(** * Trade-planning calculator: tab store, form sync, poller, quote cache
      and trade math

    A shallow embedding of the calculator script (the multi-tab version):
    the tab management system ([addNewTab], [switchTab], [closeTab],
    [reorderTabs], [saveCurrentTabState], [loadTabState]), the auto-fetch
    interval ([checkAutoFetchInterval] and friends), the quote cache
    ([getCachedPrice], [cachePrice]) and the trade arithmetic
    ([calculateTradeLevels]); then the rest of the tab system
    ([initTabSystem], [clearAllTabs], [switchToNextTab],
    [switchToPrevTab], [setCalculationMode], [cleanupOrphanedCache]), the
    listeners of the page gathered in one event type ([PageEvent],
    [dispatch]), automatic recalculation and the percent badges
    ([autoCalculate], [calculatePriceDifference],
    [updatePriceChangeDisplay]) and the theme ([toggleTheme],
    [loadTheme]).

    Conventions.
    - JavaScript numbers are IEEE-754 binary64 values: [spec_float] with the
      operations of the standard library's float specification instantiated
      at [prec = 53], [emax = 1024].
    - JavaScript strings are modelled by [string] and hold ASCII text, as
      ticker symbols do: [trim] removes the ASCII white space and
      [toUpperCase] maps the letters a-z (on other text JavaScript also
      removes the Unicode spaces and maps every cased letter).
    - [localStorage] is a typed record: the [stockTabs] and [activeTabId]
      items and the [stockPrice_<SYMBOL>] items (a finite map keyed by the
      symbol part of the key).  An item holds the value that
      [JSON.parse] reads back from the text that was written; for the
      numbers of a quote that is [jsonNumber] of the number written.
    - Browser services that the script talks to (timers, [alert],
      [confirm], the clock, the random source, the network) are explicit:
      timers and alerts are part of the state, answers and clock readings
      are arguments.
    - Of the page, the state holds what the script reads back: the six
      bound inputs.  What the script only paints (the tab strip, the
      result panel, the toggle styling, console output) is left out; the
      text of the result panel is what [calculateTradeLevels] returns.
    - An [async] function is modelled up to its first request; the
      arrival of the response is a later event.
    - The tab strip is rebuilt from the collection by every function that
      changes it, so an element of the strip is named by the position of
      its record, and its listeners receive the id of that record. *)

From Stdlib Require Import ZArith String Ascii DecimalString List Bool Lia.
From Stdlib Require Import Floats.
From stdpp Require Import gmap strings list.

Open Scope Z_scope.

(* ===================================================================== *)
(** * JavaScript numbers *)
(* ===================================================================== *)

Module JsNumber.

Definition Number := spec_float.

Definition ofZ (z : Z) : Number := binary_normalize prec emax z 0 false.

Definition add : Number -> Number -> Number := SFadd prec emax.
Definition sub : Number -> Number -> Number := SFsub prec emax.
Definition mul : Number -> Number -> Number := SFmul prec emax.
Definition div : Number -> Number -> Number := SFdiv prec emax.

(** [x <= y] and [x < y]; both are [false] as soon as one side is NaN. *)
Definition leb : Number -> Number -> bool := SFleb.
Definition ltb : Number -> Number -> bool := SFltb.

Definition isNaN (x : Number) : bool :=
  match x with S754_nan => true | _ => false end.

(** [!x] on a number: NaN, [+0] and [-0] are the falsy numbers. *)
Definition falsy (x : Number) : bool :=
  match x with S754_nan | S754_zero _ => true | _ => false end.

Definition isFinite (x : Number) : bool :=
  match x with S754_finite _ _ _ | S754_zero _ => true | _ => false end.

Definition isZero (x : Number) : bool :=
  match x with S754_zero _ => true | _ => false end.

(** A finite, strictly positive, well-formed binary64 value. *)
Definition positiveFinite (x : Number) : bool :=
  match x with
  | S754_finite false m e => bounded prec emax m e
  | _ => false
  end.

(** ** Decimal rendering *)

Definition digits (n : Z) : string :=
  NilZero.string_of_uint (N.to_uint (Z.to_N n)).

Fixpoint zeros (n : nat) : string :=
  match n with O => EmptyString | S n' => String "0" (zeros n') end.

(** Steps 11.b-11.c of [Number.prototype.toFixed]: the integer [n]
    printed with [f] digits after the point. *)
Definition fixedDigits (f : nat) (n : Z) : string :=
  let m := digits n in
  match f with
  | O => m
  | _ =>
      let k := String.length m in
      let m' := if (k <=? f)%nat then (zeros (f + 1 - k) ++ m)%string else m in
      let k' := String.length m' in
      (String.substring 0 (k' - f) m' ++ "." ++ String.substring (k' - f) f m')%string
  end.

(** Step 11.a: the integer [n] for which [n / 10^f - m * 2^e] is closest
    to zero, the larger one on a tie. *)
Definition roundScaled (f : nat) (m : positive) (e : Z) : Z :=
  let scaled := Zpos m * 10 ^ Z.of_nat f in
  if 0 <=? e then scaled * 2 ^ e
  else (2 * scaled + 2 ^ (- e)) / 2 ^ (1 - e).

(** [m * 2^e >= 10^21] *)
Definition atLeast1e21 (m : positive) (e : Z) : bool :=
  10 ^ 21 * 2 ^ Z.max (- e) 0 <=? Zpos m * 2 ^ Z.max e 0.

Fixpoint stripZeros (rev_digits : list ascii) : list ascii :=
  match rev_digits with
  | "0"%char :: r => stripZeros r
  | _ => rev_digits
  end.

Definition significant (v : Z) : string :=
  string_of_list_ascii
    (rev (stripZeros (rev (list_ascii_of_string (digits v))))).

(** The shortest decimal significand that reads back as [x], by search;
    [X] is the exact (integral) value of [x], [nd] its number of decimal
    digits and [k] the significand length being tried. *)
Fixpoint shortest (fuel : nat) (k : nat) (x : Number) (X : Z) (nd : nat) : Z :=
  match fuel with
  | O => X
  | S fuel' =>
      let p := 10 ^ Z.of_nat (nd - k) in
      let lo := (X / p) * p in
      let hi := lo + p in
      let okLo := SFeqb (ofZ lo) x in
      let okHi := SFeqb (ofZ hi) x in
      match okLo, okHi with
      | true, true =>
          if X - lo <? hi - X then lo
          else if hi - X <? X - lo then hi
          else if Z.even (lo / p) then lo else hi
      | true, false => lo
      | false, true => hi
      | false, false => shortest fuel' (S k) x X nd
      end
  end.

(** [Number::toString] on a finite value that is at least [10^21]
    (exponential notation). *)
Definition toStringLarge (m : positive) (e : Z) : string :=
  let X := Zpos m * 2 ^ e in
  let v := shortest 17 1 (S754_finite false m e) X (String.length (digits X)) in
  let n := String.length (digits v) in
  let s := significant v in
  let ex := digits (Z.of_nat n - 1) in
  match s with
  | String d EmptyString => (s ++ "e+" ++ ex)%string
  | String d rest => (String d ("." ++ rest) ++ "e+" ++ ex)%string
  | EmptyString => s
  end.

(** [x.toFixed(f)] *)
Definition toFixed (f : nat) (x : Number) : string :=
  match x with
  | S754_nan => "NaN"
  | S754_infinity false => "Infinity"
  | S754_infinity true => "-Infinity"
  | S754_zero _ => fixedDigits f 0
  | S754_finite s m e =>
      ((if s then "-" else "") ++
       (if atLeast1e21 m e then toStringLarge m e
        else fixedDigits f (roundScaled f m e)))%string
  end.

End JsNumber.

Import JsNumber.

(* ===================================================================== *)
(** * Trade math *)
(* ===================================================================== *)

(** [calculationMode]: ['current'] or ['target']. *)
Inductive CalcMode := current | target.

Definition CalcMode_eqb (a b : CalcMode) : bool :=
  match a, b with
  | current, current | target, target => true
  | _, _ => false
  end.

Module TradeMath.

(** The [errors] object of [calculateTradeLevels]. *)
Record Errors := {
  entry : string;
  target_ : string;
  quantity_ : string;
  tp : string;
  sl : string
}.

Definition noErrors : Errors :=
  {| entry := ""; target_ := ""; quantity_ := ""; tp := ""; sl := "" |}.

(** The constants computed by [calculateTradeLevels]. *)
Record Levels := {
  basePrice : Number;
  tpPrice : Number;
  slPrice : Number;
  investment : Number;
  maxProfit : Number;
  maxLoss : Number;
  perShareTP : Number;
  perShareSL : Number;
  ratio : string
}.

(** The text written to the result elements, one field per element id. *)
Record Display := {
  el_resultEntry : string;
  el_resultInvestment : string;
  el_resultTP : string;
  el_resultSL : string;
  el_maxProfit : string;
  el_maxLoss : string;
  el_perShareTPDisplay : string;
  el_perShareSLDisplay : string;
  el_riskReward : string;
  el_resultEntryMYR : string;
  el_resultInvestmentMYR : string;
  el_resultTPMYR : string;
  el_resultSLMYR : string;
  el_maxProfitMYR : string;
  el_maxLossMYR : string
}.

Definition zero : Number := ofZ 0.
Definition one : Number := ofZ 1.
Definition hundred : Number := ofZ 100.

Section Calculate.
(** [USD_TO_MYR], the exchange rate in force. *)
Variable USD_TO_MYR : Number.
Variable calculationMode : CalcMode.
(** The parsed inputs: [parseFloat] of the price and percent fields,
    [parseInt] of the quantity field. *)
Variables currentPrice targetPrice quantity tpPercent slPercent : Number.

Definition basePriceOf : Number :=
  if CalcMode_eqb calculationMode target then targetPrice else currentPrice.

(** The validation block: the [errors] object and [isValid]. *)
Definition validate : Errors * bool :=
  let badEntry := falsy currentPrice || leb currentPrice zero in
  let badTarget :=
    CalcMode_eqb calculationMode target &&
    (falsy targetPrice || leb targetPrice zero) in
  let badQuantity := falsy quantity || leb quantity zero in
  let badTp := isNaN tpPercent || ltb tpPercent zero in
  let badSl := isNaN slPercent || ltb slPercent zero in
  ({| entry := if badEntry then "Current price must be greater than 0" else "";
      target_ := if badTarget then "Target price must be greater than 0" else "";
      quantity_ := if badQuantity then "Quantity must be greater than 0" else "";
      tp := if badTp then "TP must be 0 or greater" else "";
      sl := if badSl then "SL must be 0 or greater" else "" |},
   negb (badEntry || badTarget || badQuantity || badTp || badSl)).

Definition computeLevels : Levels :=
  let basePrice := basePriceOf in
  let tpPrice := mul basePrice (add one (div tpPercent hundred)) in
  let slPrice := mul basePrice (sub one (div slPercent hundred)) in
  let investment := mul basePrice quantity in
  let maxProfit := mul (sub tpPrice basePrice) quantity in
  let maxLoss := mul (sub basePrice slPrice) quantity in
  let perShareTP := sub tpPrice basePrice in
  let perShareSL := sub basePrice slPrice in
  let ratio := toFixed 1 (div maxProfit maxLoss) in
  {| basePrice := basePrice; tpPrice := tpPrice; slPrice := slPrice;
     investment := investment; maxProfit := maxProfit; maxLoss := maxLoss;
     perShareTP := perShareTP; perShareSL := perShareSL; ratio := ratio |}.

Definition render (lv : Levels) : Display :=
  {| el_resultEntry := "$" ++ toFixed 2 (basePrice lv);
     el_resultInvestment := "$" ++ toFixed 2 (investment lv);
     el_resultTP := "$" ++ toFixed 2 (tpPrice lv);
     el_resultSL := "$" ++ toFixed 2 (slPrice lv);
     el_maxProfit := "+$" ++ toFixed 2 (maxProfit lv);
     el_maxLoss := "-$" ++ toFixed 2 (maxLoss lv);
     el_perShareTPDisplay := "+$" ++ toFixed 2 (perShareTP lv);
     el_perShareSLDisplay := "-$" ++ toFixed 2 (perShareSL lv);
     el_riskReward := "1:" ++ ratio lv;
     el_resultEntryMYR := "RM " ++ toFixed 2 (mul (basePrice lv) USD_TO_MYR);
     el_resultInvestmentMYR := "RM " ++ toFixed 2 (mul (investment lv) USD_TO_MYR);
     el_resultTPMYR := "RM " ++ toFixed 2 (mul (tpPrice lv) USD_TO_MYR);
     el_resultSLMYR := "RM " ++ toFixed 2 (mul (slPrice lv) USD_TO_MYR);
     el_maxProfitMYR := "+RM " ++ toFixed 2 (mul (maxProfit lv) USD_TO_MYR);
     el_maxLossMYR := "-RM " ++ toFixed 2 (mul (maxLoss lv) USD_TO_MYR) |}%string.

(** [calculateTradeLevels]: the error texts that are displayed, and,
    when the inputs are valid, the levels and the text written to the
    result panel ([None]: the function returned after showing the
    errors and the panel is left as it was). *)
Definition calculateTradeLevels : Errors * option (Levels * Display) :=
  let '(errors, isValid) := validate in
  if negb isValid then (errors, None)
  else let lv := computeLevels in (errors, Some (lv, render lv)).
End Calculate.

End TradeMath.

(* ===================================================================== *)
(** * Percent badges and automatic recalculation *)
(* ===================================================================== *)

(** [updatePriceChangeDisplay(percentChange)]: the text of the badge and
    whether it is painted in the "up" colour; [None] when the badge is
    hidden ([percentChange] is [null], [undefined] or NaN). *)
Definition updatePriceChangeDisplay (percentChange : option Number)
    : option (string * bool) :=
  match percentChange with
  | Some p =>
      if isNaN p then None
      else
        let sign := if leb TradeMath.zero p then "+" else "" in
        Some ((sign ++ toFixed 2 p ++ "%")%string, leb TradeMath.zero p)
  | None => None
  end.

(** [calculatePriceDifference()] on the parsed entry and target prices:
    the text of the difference badge and whether the "up" colour and arrow
    are used; [None] when the badge is hidden. *)
Definition calculatePriceDifference (currentPrice targetPrice : Number)
    : option (string * bool) :=
  if falsy currentPrice || leb currentPrice TradeMath.zero
     || falsy targetPrice || leb targetPrice TradeMath.zero
  then None
  else
    let percentDiff :=
      mul (div (sub currentPrice targetPrice) targetPrice) TradeMath.hundred in
    let isPositive := leb TradeMath.zero percentDiff in
    let sign := if isPositive then "+" else "" in
    Some ((sign ++ toFixed 2 percentDiff ++ "%")%string, isPositive).

(** [autoCalculate()] on the parsed inputs: the difference badge, and what
    [calculateTradeLevels] shows when it is called ([None]: it is not
    called). *)
Definition autoCalculate (USD_TO_MYR : Number) (calculationMode : CalcMode)
    (currentPrice targetPrice quantity tpPercent slPercent : Number)
    : option (string * bool)
      * option (TradeMath.Errors * option (TradeMath.Levels * TradeMath.Display)) :=
  (calculatePriceDifference currentPrice targetPrice,
   if negb (falsy currentPrice) && ltb TradeMath.zero currentPrice
      && negb (falsy quantity) && ltb TradeMath.zero quantity
   then
     if CalcMode_eqb calculationMode target
        && (falsy targetPrice || leb targetPrice TradeMath.zero)
     then None
     else Some (TradeMath.calculateTradeLevels USD_TO_MYR calculationMode
                  currentPrice targetPrice quantity tpPercent slPercent)
   else None).

(* ===================================================================== *)
(** * JavaScript strings and arrays *)
(* ===================================================================== *)

(** A string is truthy unless it is empty. *)
Definition nonEmpty (s : string) : bool :=
  match s with EmptyString => false | String _ _ => true end.

(** White space removed by [trim] (ASCII range). *)
Definition isSpace (c : ascii) : bool :=
  let n := nat_of_ascii c in
  ((n =? 32) || ((9 <=? n) && (n <=? 13)))%nat.

Fixpoint trimStart (l : list ascii) : list ascii :=
  match l with
  | c :: r => if isSpace c then trimStart r else l
  | [] => []
  end.

Definition trim (s : string) : string :=
  string_of_list_ascii
    (rev (trimStart (rev (trimStart (list_ascii_of_string s))))).

Definition upperChar (c : ascii) : ascii :=
  let n := nat_of_ascii c in
  if ((97 <=? n) && (n <=? 122))%nat then ascii_of_nat (n - 32) else c.

Fixpoint toUpperCase (s : string) : string :=
  match s with
  | EmptyString => EmptyString
  | String c r => String (upperChar c) (toUpperCase r)
  end.

(** [Array.prototype.splice]: the index where the change starts, for an
    integral [start]: a negative [start] counts from the end. *)
Definition spliceStart {A} (l : list A) (start : Z) : nat :=
  if start <? 0 then Z.to_nat (Z.max (Z.of_nat (length l) + start) 0)
  else Z.to_nat (Z.min start (Z.of_nat (length l))).

(** [l.splice(start, deleteCount, ...items)]: the array afterwards and the
    removed elements. *)
Definition splice {A} (l : list A) (start : Z) (deleteCount : nat)
    (items : list A) : list A * list A :=
  let i := spliceStart l start in
  (take i l ++ items ++ drop (i + deleteCount) l, take deleteCount (drop i l)).

(** The array after [x], the element at index [i], has been taken out
    and put back at index [j]. *)
Definition moveTo {A} (l : list A) (i j : nat) (x : A) : list A :=
  take j (delete i l) ++ x :: drop j (delete i l).

(* ===================================================================== *)
(** * Data model *)
(* ===================================================================== *)

Module Tab.
(** A tab object.  A string property that is absent reads as [""], an
    absent [calculationMode] as [None]. *)
Record t := mk {
  id : string;
  name : string;
  stockSymbol : string;
  entryPrice : string;
  targetPrice : string;
  quantity : string;
  tpPercent : string;
  slPercent : string;
  autoPriceEnabled : bool;
  calculationMode : option CalcMode;
  createdAt : Z
}.
End Tab.

Module Form.
(** The [value] of the six bound inputs. *)
Record t := mk {
  stockSymbol : string;
  entryPrice : string;
  targetPrice : string;
  quantity : string;
  tpPercent : string;
  slPercent : string
}.
End Form.

Module Quote.
(** The object [getCachedPrice] reads back from the JSON text that
    [cachePrice] stores under [stockPrice_<SYMBOL>]; [None] is [null] (or
    a missing property). *)
Record t := mk {
  symbol : string;
  price : option Number;
  percentChange : option Number;
  previousClose : option Number;
  openPrice : option Number;
  dayHigh : option Number;
  dayLow : option Number;
  volume : option Number;
  week52High : option Number;
  week52Low : option Number;
  timestamp : Z
}.
End Quote.

Module Storage.
(** [localStorage]: the items ['stockTabs'] and ['activeTabId'], and the
    items ['stockPrice_' + symbol], keyed here by [symbol]. *)
Record t := mk {
  stockTabs : option (list Tab.t);
  activeTabId : option string;
  stockPrice : gmap string Quote.t
}.
End Storage.

(** What a pending timeout runs when it fires. *)
Inductive Callback :=
| CbSaveCurrentTabState            (* the debounced save, 300 ms *)
| CbClearLoadingFlag               (* end of [loadTabState], 100 ms *)
| CbFetchStockPrice (symbol : string).  (* symbol input, 500 ms *)

(** The script's global variables, the part of the page it reads and
    writes, and the browser services it uses.
    - [tabs]: the [tabs] array
    - [activeTabId]: [activeTabId]; [None] is [null]
    - [calculationMode]: the global [calculationMode]
    - [autoPriceEnabled]: the global [autoPriceEnabled]
    - [isLoadingTabState]: flag that blocks saving during a load
    - [saveDebounceTimer]: handle of the pending debounced save
    - [autoFetchIntervalId]: handle of the poll interval
    - [draggedTabId]: tab being dragged
    - [symbolDebounceTimer]: [debounceTimer] of the symbol input
    - [form]: current values of the input fields
    - [formDefaults]: values the form takes on [reset()]
    - [localStorage]: the persisted items
    - [timeouts]: pending [setTimeout] callbacks
    - [intervals]: live [setInterval] timers
    - [nextTimerId]: next timer handle the browser hands out
    - [intervalLog]: the table of live intervals after each
      [setInterval]/[clearInterval] call, newest first
    - [network]: quote requests sent, newest first (by symbol)
    - [alerts]: [alert] messages shown, newest first
 *)
Record State := {
  tabs : list Tab.t;
  activeTabId : option string;
  calculationMode : CalcMode;
  autoPriceEnabled : bool;
  isLoadingTabState : bool;
  saveDebounceTimer : option positive;
  autoFetchIntervalId : option positive;
  draggedTabId : option string;
  symbolDebounceTimer : option positive;
  form : Form.t;
  formDefaults : Form.t;
  localStorage : Storage.t;
  timeouts : list (positive * Callback);
  intervals : list positive;
  nextTimerId : positive;
  intervalLog : list (list positive);
  network : list string;
  alerts : list string
}.

(** Field updates. *)

Definition with_tabs (v : list Tab.t) (s : State) : State :=
  {| tabs := v; activeTabId := activeTabId s;
     calculationMode := calculationMode s;
     autoPriceEnabled := autoPriceEnabled s;
     isLoadingTabState := isLoadingTabState s;
     saveDebounceTimer := saveDebounceTimer s;
     autoFetchIntervalId := autoFetchIntervalId s;
     draggedTabId := draggedTabId s;
     symbolDebounceTimer := symbolDebounceTimer s; form := form s;
     formDefaults := formDefaults s; localStorage := localStorage s;
     timeouts := timeouts s; intervals := intervals s;
     nextTimerId := nextTimerId s; intervalLog := intervalLog s;
     network := network s; alerts := alerts s |}.

Definition with_activeTabId (v : option string) (s : State) : State :=
  {| tabs := tabs s; activeTabId := v; calculationMode := calculationMode s;
     autoPriceEnabled := autoPriceEnabled s;
     isLoadingTabState := isLoadingTabState s;
     saveDebounceTimer := saveDebounceTimer s;
     autoFetchIntervalId := autoFetchIntervalId s;
     draggedTabId := draggedTabId s;
     symbolDebounceTimer := symbolDebounceTimer s; form := form s;
     formDefaults := formDefaults s; localStorage := localStorage s;
     timeouts := timeouts s; intervals := intervals s;
     nextTimerId := nextTimerId s; intervalLog := intervalLog s;
     network := network s; alerts := alerts s |}.

Definition with_calculationMode (v : CalcMode) (s : State) : State :=
  {| tabs := tabs s; activeTabId := activeTabId s; calculationMode := v;
     autoPriceEnabled := autoPriceEnabled s;
     isLoadingTabState := isLoadingTabState s;
     saveDebounceTimer := saveDebounceTimer s;
     autoFetchIntervalId := autoFetchIntervalId s;
     draggedTabId := draggedTabId s;
     symbolDebounceTimer := symbolDebounceTimer s; form := form s;
     formDefaults := formDefaults s; localStorage := localStorage s;
     timeouts := timeouts s; intervals := intervals s;
     nextTimerId := nextTimerId s; intervalLog := intervalLog s;
     network := network s; alerts := alerts s |}.

Definition with_autoPriceEnabled (v : bool) (s : State) : State :=
  {| tabs := tabs s; activeTabId := activeTabId s;
     calculationMode := calculationMode s; autoPriceEnabled := v;
     isLoadingTabState := isLoadingTabState s;
     saveDebounceTimer := saveDebounceTimer s;
     autoFetchIntervalId := autoFetchIntervalId s;
     draggedTabId := draggedTabId s;
     symbolDebounceTimer := symbolDebounceTimer s; form := form s;
     formDefaults := formDefaults s; localStorage := localStorage s;
     timeouts := timeouts s; intervals := intervals s;
     nextTimerId := nextTimerId s; intervalLog := intervalLog s;
     network := network s; alerts := alerts s |}.

Definition with_isLoadingTabState (v : bool) (s : State) : State :=
  {| tabs := tabs s; activeTabId := activeTabId s;
     calculationMode := calculationMode s;
     autoPriceEnabled := autoPriceEnabled s; isLoadingTabState := v;
     saveDebounceTimer := saveDebounceTimer s;
     autoFetchIntervalId := autoFetchIntervalId s;
     draggedTabId := draggedTabId s;
     symbolDebounceTimer := symbolDebounceTimer s; form := form s;
     formDefaults := formDefaults s; localStorage := localStorage s;
     timeouts := timeouts s; intervals := intervals s;
     nextTimerId := nextTimerId s; intervalLog := intervalLog s;
     network := network s; alerts := alerts s |}.

Definition with_saveDebounceTimer (v : option positive) (s : State) : State :=
  {| tabs := tabs s; activeTabId := activeTabId s;
     calculationMode := calculationMode s;
     autoPriceEnabled := autoPriceEnabled s;
     isLoadingTabState := isLoadingTabState s; saveDebounceTimer := v;
     autoFetchIntervalId := autoFetchIntervalId s;
     draggedTabId := draggedTabId s;
     symbolDebounceTimer := symbolDebounceTimer s; form := form s;
     formDefaults := formDefaults s; localStorage := localStorage s;
     timeouts := timeouts s; intervals := intervals s;
     nextTimerId := nextTimerId s; intervalLog := intervalLog s;
     network := network s; alerts := alerts s |}.

Definition with_autoFetchIntervalId (v : option positive) (s : State) : State :=
  {| tabs := tabs s; activeTabId := activeTabId s;
     calculationMode := calculationMode s;
     autoPriceEnabled := autoPriceEnabled s;
     isLoadingTabState := isLoadingTabState s;
     saveDebounceTimer := saveDebounceTimer s; autoFetchIntervalId := v;
     draggedTabId := draggedTabId s;
     symbolDebounceTimer := symbolDebounceTimer s; form := form s;
     formDefaults := formDefaults s; localStorage := localStorage s;
     timeouts := timeouts s; intervals := intervals s;
     nextTimerId := nextTimerId s; intervalLog := intervalLog s;
     network := network s; alerts := alerts s |}.

Definition with_draggedTabId (v : option string) (s : State) : State :=
  {| tabs := tabs s; activeTabId := activeTabId s;
     calculationMode := calculationMode s;
     autoPriceEnabled := autoPriceEnabled s;
     isLoadingTabState := isLoadingTabState s;
     saveDebounceTimer := saveDebounceTimer s;
     autoFetchIntervalId := autoFetchIntervalId s; draggedTabId := v;
     symbolDebounceTimer := symbolDebounceTimer s; form := form s;
     formDefaults := formDefaults s; localStorage := localStorage s;
     timeouts := timeouts s; intervals := intervals s;
     nextTimerId := nextTimerId s; intervalLog := intervalLog s;
     network := network s; alerts := alerts s |}.

Definition with_symbolDebounceTimer (v : option positive) (s : State) : State :=
  {| tabs := tabs s; activeTabId := activeTabId s;
     calculationMode := calculationMode s;
     autoPriceEnabled := autoPriceEnabled s;
     isLoadingTabState := isLoadingTabState s;
     saveDebounceTimer := saveDebounceTimer s;
     autoFetchIntervalId := autoFetchIntervalId s;
     draggedTabId := draggedTabId s; symbolDebounceTimer := v;
     form := form s; formDefaults := formDefaults s;
     localStorage := localStorage s; timeouts := timeouts s;
     intervals := intervals s; nextTimerId := nextTimerId s;
     intervalLog := intervalLog s; network := network s;
     alerts := alerts s |}.

Definition with_form (v : Form.t) (s : State) : State :=
  {| tabs := tabs s; activeTabId := activeTabId s;
     calculationMode := calculationMode s;
     autoPriceEnabled := autoPriceEnabled s;
     isLoadingTabState := isLoadingTabState s;
     saveDebounceTimer := saveDebounceTimer s;
     autoFetchIntervalId := autoFetchIntervalId s;
     draggedTabId := draggedTabId s;
     symbolDebounceTimer := symbolDebounceTimer s; form := v;
     formDefaults := formDefaults s; localStorage := localStorage s;
     timeouts := timeouts s; intervals := intervals s;
     nextTimerId := nextTimerId s; intervalLog := intervalLog s;
     network := network s; alerts := alerts s |}.

Definition with_formDefaults (v : Form.t) (s : State) : State :=
  {| tabs := tabs s; activeTabId := activeTabId s;
     calculationMode := calculationMode s;
     autoPriceEnabled := autoPriceEnabled s;
     isLoadingTabState := isLoadingTabState s;
     saveDebounceTimer := saveDebounceTimer s;
     autoFetchIntervalId := autoFetchIntervalId s;
     draggedTabId := draggedTabId s;
     symbolDebounceTimer := symbolDebounceTimer s; form := form s;
     formDefaults := v; localStorage := localStorage s;
     timeouts := timeouts s; intervals := intervals s;
     nextTimerId := nextTimerId s; intervalLog := intervalLog s;
     network := network s; alerts := alerts s |}.

Definition with_localStorage (v : Storage.t) (s : State) : State :=
  {| tabs := tabs s; activeTabId := activeTabId s;
     calculationMode := calculationMode s;
     autoPriceEnabled := autoPriceEnabled s;
     isLoadingTabState := isLoadingTabState s;
     saveDebounceTimer := saveDebounceTimer s;
     autoFetchIntervalId := autoFetchIntervalId s;
     draggedTabId := draggedTabId s;
     symbolDebounceTimer := symbolDebounceTimer s; form := form s;
     formDefaults := formDefaults s; localStorage := v;
     timeouts := timeouts s; intervals := intervals s;
     nextTimerId := nextTimerId s; intervalLog := intervalLog s;
     network := network s; alerts := alerts s |}.

Definition with_timeouts (v : list (positive * Callback)) (s : State) : State :=
  {| tabs := tabs s; activeTabId := activeTabId s;
     calculationMode := calculationMode s;
     autoPriceEnabled := autoPriceEnabled s;
     isLoadingTabState := isLoadingTabState s;
     saveDebounceTimer := saveDebounceTimer s;
     autoFetchIntervalId := autoFetchIntervalId s;
     draggedTabId := draggedTabId s;
     symbolDebounceTimer := symbolDebounceTimer s; form := form s;
     formDefaults := formDefaults s; localStorage := localStorage s;
     timeouts := v; intervals := intervals s; nextTimerId := nextTimerId s;
     intervalLog := intervalLog s; network := network s;
     alerts := alerts s |}.

Definition with_intervals (v : list positive) (s : State) : State :=
  {| tabs := tabs s; activeTabId := activeTabId s;
     calculationMode := calculationMode s;
     autoPriceEnabled := autoPriceEnabled s;
     isLoadingTabState := isLoadingTabState s;
     saveDebounceTimer := saveDebounceTimer s;
     autoFetchIntervalId := autoFetchIntervalId s;
     draggedTabId := draggedTabId s;
     symbolDebounceTimer := symbolDebounceTimer s; form := form s;
     formDefaults := formDefaults s; localStorage := localStorage s;
     timeouts := timeouts s; intervals := v; nextTimerId := nextTimerId s;
     intervalLog := intervalLog s; network := network s;
     alerts := alerts s |}.

Definition with_nextTimerId (v : positive) (s : State) : State :=
  {| tabs := tabs s; activeTabId := activeTabId s;
     calculationMode := calculationMode s;
     autoPriceEnabled := autoPriceEnabled s;
     isLoadingTabState := isLoadingTabState s;
     saveDebounceTimer := saveDebounceTimer s;
     autoFetchIntervalId := autoFetchIntervalId s;
     draggedTabId := draggedTabId s;
     symbolDebounceTimer := symbolDebounceTimer s; form := form s;
     formDefaults := formDefaults s; localStorage := localStorage s;
     timeouts := timeouts s; intervals := intervals s; nextTimerId := v;
     intervalLog := intervalLog s; network := network s;
     alerts := alerts s |}.

Definition with_intervalLog (v : list (list positive)) (s : State) : State :=
  {| tabs := tabs s; activeTabId := activeTabId s;
     calculationMode := calculationMode s;
     autoPriceEnabled := autoPriceEnabled s;
     isLoadingTabState := isLoadingTabState s;
     saveDebounceTimer := saveDebounceTimer s;
     autoFetchIntervalId := autoFetchIntervalId s;
     draggedTabId := draggedTabId s;
     symbolDebounceTimer := symbolDebounceTimer s; form := form s;
     formDefaults := formDefaults s; localStorage := localStorage s;
     timeouts := timeouts s; intervals := intervals s;
     nextTimerId := nextTimerId s; intervalLog := v; network := network s;
     alerts := alerts s |}.

Definition with_network (v : list string) (s : State) : State :=
  {| tabs := tabs s; activeTabId := activeTabId s;
     calculationMode := calculationMode s;
     autoPriceEnabled := autoPriceEnabled s;
     isLoadingTabState := isLoadingTabState s;
     saveDebounceTimer := saveDebounceTimer s;
     autoFetchIntervalId := autoFetchIntervalId s;
     draggedTabId := draggedTabId s;
     symbolDebounceTimer := symbolDebounceTimer s; form := form s;
     formDefaults := formDefaults s; localStorage := localStorage s;
     timeouts := timeouts s; intervals := intervals s;
     nextTimerId := nextTimerId s; intervalLog := intervalLog s;
     network := v; alerts := alerts s |}.

Definition with_alerts (v : list string) (s : State) : State :=
  {| tabs := tabs s; activeTabId := activeTabId s;
     calculationMode := calculationMode s;
     autoPriceEnabled := autoPriceEnabled s;
     isLoadingTabState := isLoadingTabState s;
     saveDebounceTimer := saveDebounceTimer s;
     autoFetchIntervalId := autoFetchIntervalId s;
     draggedTabId := draggedTabId s;
     symbolDebounceTimer := symbolDebounceTimer s; form := form s;
     formDefaults := formDefaults s; localStorage := localStorage s;
     timeouts := timeouts s; intervals := intervals s;
     nextTimerId := nextTimerId s; intervalLog := intervalLog s;
     network := network s; alerts := v |}.

(* ===================================================================== *)
(** * Browser services *)
(* ===================================================================== *)

Definition alert (msg : string) (s : State) : State :=
  with_alerts (msg :: alerts s) s.

(** [setTimeout(cb, ms)]: the handle and the state with the callback
    pending. *)
Definition setTimeout (cb : Callback) (s : State) : positive * State :=
  let h := nextTimerId s in
  (h, with_nextTimerId (Pos.succ h) (with_timeouts (timeouts s ++ [(h, cb)]) s)).

Definition clearTimeout (h : positive) (s : State) : State :=
  with_timeouts (filter (fun p => fst p ≠ h) (timeouts s)) s.

(** [setInterval(() => fetchPriceForActiveTab(), AUTO_FETCH_INTERVAL)] *)
Definition setInterval (s : State) : positive * State :=
  let h := nextTimerId s in
  let live := h :: intervals s in
  (h, with_intervalLog (live :: intervalLog s)
        (with_nextTimerId (Pos.succ h) (with_intervals live s))).

Definition clearInterval (h : positive) (s : State) : State :=
  let live := filter (fun i => i ≠ h) (intervals s) in
  with_intervalLog (live :: intervalLog s) (with_intervals live s).

(** [fetch] of the quote endpoint for [symbol]; what happens when the
    response arrives is a later event and is not part of the call. *)
Definition fetchQuote (symbol : string) (s : State) : State :=
  with_network (symbol :: network s) s.

(* ===================================================================== *)
(** * Quote cache *)
(* ===================================================================== *)

Definition PRICE_CACHE_DURATION : Z := 1 * 60 * 1000.
Definition AUTO_FETCH_INTERVAL : Z := 1 * 60 * 1000.

Definition with_stockPrice (m : gmap string Quote.t) (s : State) : State :=
  with_localStorage
    {| Storage.stockTabs := Storage.stockTabs (localStorage s);
       Storage.activeTabId := Storage.activeTabId (localStorage s);
       Storage.stockPrice := m |} s.

(** [localStorage.removeItem('stockPrice_' + symbol)] *)
Definition removeStockPrice (symbol : string) (s : State) : State :=
  with_stockPrice (delete symbol (Storage.stockPrice (localStorage s))) s.

(** [getCachedPrice(symbol)], called when the clock reads [now]: the value
    returned ([None] is [null]) and the state afterwards. *)
Definition getCachedPrice (now : Z) (symbol : string) (s : State)
    : option Quote.t * State :=
  match Storage.stockPrice (localStorage s) !! symbol with
  | Some data =>
      if now - Quote.timestamp data <? PRICE_CACHE_DURATION then (Some data, s)
      else (None, removeStockPrice symbol s)
  | None => (None, s)
  end.

(** What [JSON.parse] reads back of a number that [JSON.stringify] has
    written: NaN and the infinities are written as [null], [-0] is written
    as [0], and any other number reads back as it was. *)
Definition jsonNumber (x : Number) : option Number :=
  match x with
  | S754_nan | S754_infinity _ => None
  | S754_zero _ => Some (S754_zero false)
  | S754_finite _ _ _ => Some x
  end.

(** [cachePrice(symbol, price, ...)], called when the clock reads [now]:
    the item is the JSON text of the quote. *)
Definition cachePrice (now : Z) (symbol : string) (price : Number)
    (percentChange previousClose openPrice dayHigh dayLow volume
       week52High week52Low : option Number) (s : State) : State :=
  let data :=
    {| Quote.symbol := symbol; Quote.price := jsonNumber price;
       Quote.percentChange := percentChange ≫= jsonNumber;
       Quote.previousClose := previousClose ≫= jsonNumber;
       Quote.openPrice := openPrice ≫= jsonNumber;
       Quote.dayHigh := dayHigh ≫= jsonNumber;
       Quote.dayLow := dayLow ≫= jsonNumber;
       Quote.volume := volume ≫= jsonNumber;
       Quote.week52High := week52High ≫= jsonNumber;
       Quote.week52Low := week52Low ≫= jsonNumber;
       Quote.timestamp := now |} in
  with_stockPrice (<[symbol := data]> (Storage.stockPrice (localStorage s))) s.

(* ===================================================================== *)
(** * Tab store and form sync *)
(* ===================================================================== *)

Definition MAX_TABS : nat := 20.

(** [tabs.find(t => t.id === tabId)] and [tabs.findIndex(...)], the
    latter as JavaScript returns it: [-1] when there is no such tab. *)
Definition find (tabId : string) (l : list Tab.t) : option Tab.t :=
  snd <$> list_find (fun t => Tab.id t = tabId) l.

Definition findIndex (tabId : string) (l : list Tab.t) : Z :=
  match list_find (fun t => Tab.id t = tabId) l with
  | Some (i, _) => Z.of_nat i
  | None => -1
  end.

(** [tabs.find(t => t.id === activeTabId)]; no id equals [null]. *)
Definition findActive (s : State) : option Tab.t :=
  match activeTabId s with
  | Some a => find a (tabs s)
  | None => None
  end.

(** [if (activeTabId)] *)
Definition idTruthy (a : option string) : bool :=
  match a with Some i => nonEmpty i | None => false end.

(** The string [localStorage.setItem('activeTabId', activeTabId)] stores. *)
Definition itemOfId (a : option string) : string :=
  match a with Some i => i | None => "null" end.

Definition setItemActiveTabId (s : State) : State :=
  with_localStorage
    {| Storage.stockTabs := Storage.stockTabs (localStorage s);
       Storage.activeTabId := Some (itemOfId (activeTabId s));
       Storage.stockPrice := Storage.stockPrice (localStorage s) |} s.

Definition saveTabsToStorage (s : State) : State :=
  with_localStorage
    {| Storage.stockTabs := Some (tabs s);
       Storage.activeTabId := Some (itemOfId (activeTabId s));
       Storage.stockPrice := Storage.stockPrice (localStorage s) |} s.

(** [renderTabs] rebuilds the tab strip from [tabs] and [activeTabId]; the
    strip holds no state of its own. *)
Definition renderTabs (s : State) : State := s.

Definition generateTabId (now : Z) (random : string) : string :=
  "tab_" ++ NilZero.string_of_int (Z.to_int now) ++ "_" ++ random.

Definition saveCurrentTabState (s : State) : State :=
  if isLoadingTabState s then s
  else
    match activeTabId s with
    | None => s
    | Some a =>
        match list_find (fun t => Tab.id t = a) (tabs s) with
        | None => s
        | Some (i, tab) =>
            let tab' :=
              {| Tab.id := Tab.id tab;
                 Tab.name := Tab.name tab;
                 Tab.stockSymbol := trim (Form.stockSymbol (form s));
                 Tab.entryPrice := Form.entryPrice (form s);
                 Tab.targetPrice := Form.targetPrice (form s);
                 Tab.quantity := Form.quantity (form s);
                 Tab.tpPercent := Form.tpPercent (form s);
                 Tab.slPercent := Form.slPercent (form s);
                 Tab.autoPriceEnabled := autoPriceEnabled s;
                 Tab.calculationMode := Some (calculationMode s);
                 Tab.createdAt := Tab.createdAt tab |} in
            renderTabs (saveTabsToStorage (with_tabs (<[i := tab']> (tabs s)) s))
        end
    end.

Definition debouncedSaveTabState (s : State) : State :=
  if isLoadingTabState s then s
  else
    let s1 :=
      match saveDebounceTimer s with
      | Some h => clearTimeout h s
      | None => s
      end in
    let '(h, s2) := setTimeout CbSaveCurrentTabState s1 in
    with_saveDebounceTimer (Some h) s2.

(** [loadTabState(tabId)].  The recomputation of the result panel that
    follows the restore only repaints the page. *)
Definition loadTabState (tabId : string) (s : State) : State :=
  match find tabId (tabs s) with
  | None => s
  | Some tab =>
      let s1 := with_isLoadingTabState true s in
      let s2 :=
        with_form
          {| Form.stockSymbol := Tab.stockSymbol tab;
             Form.entryPrice := Tab.entryPrice tab;
             Form.targetPrice := Tab.targetPrice tab;
             Form.quantity := Tab.quantity tab;
             Form.tpPercent := Tab.tpPercent tab;
             Form.slPercent := Tab.slPercent tab |} s1 in
      let s3 :=
        if Bool.eqb (Tab.autoPriceEnabled tab) (autoPriceEnabled s2) then s2
        else with_autoPriceEnabled (Tab.autoPriceEnabled tab) s2 in
      let s4 :=
        match Tab.calculationMode tab with
        | Some m => with_calculationMode m s3
        | None => s3
        end in
      snd (setTimeout CbClearLoadingFlag s4)
  end.

Definition clearCalculatorForm (s : State) : State :=
  with_autoPriceEnabled false (with_form (formDefaults s) s).

(** [addNewTab()]; [now] and [random] are what [Date.now()] and the random
    source give to [generateTabId], [created] is the reading of the clock
    for [createdAt]. *)
Definition addNewTab (now : Z) (random : string) (created : Z) (s : State) : State :=
  if (MAX_TABS <=? length (tabs s))%nat then
    alert "Maximum 20 tabs allowed. Please close some tabs to add new ones." s
  else
    let s1 := if idTruthy (activeTabId s) then saveCurrentTabState s else s in
    let newTab :=
      {| Tab.id := generateTabId now random;
         Tab.name := "New Tab";
         Tab.stockSymbol := "";
         Tab.entryPrice := "";
         Tab.targetPrice := "";
         Tab.quantity := "";
         Tab.tpPercent := "";
         Tab.slPercent := "";
         Tab.autoPriceEnabled := false;
         Tab.calculationMode := Some current;
         Tab.createdAt := created |} in
    let s2 := with_tabs (tabs s1 ++ [newTab]) s1 in
    let s3 := with_activeTabId (Some (Tab.id newTab)) s2 in
    clearCalculatorForm (renderTabs (saveTabsToStorage s3)).

(* ===================================================================== *)
(** * Active-tab poller *)
(* ===================================================================== *)

(** [activeTab && activeTab.autoPriceEnabled && activeTab.stockSymbol] *)
Definition hasAutoPrice (s : State) : bool :=
  match findActive s with
  | Some activeTab =>
      Tab.autoPriceEnabled activeTab && nonEmpty (Tab.stockSymbol activeTab)
  | None => false
  end.

(** [fetchPriceForActiveTab()] up to the request it sends. *)
Definition fetchPriceForActiveTab (s : State) : State :=
  match findActive s with
  | None => s
  | Some activeTab =>
      if negb (Tab.autoPriceEnabled activeTab)
         || negb (nonEmpty (Tab.stockSymbol activeTab)) then s
      else
        let symbol := toUpperCase (trim (Tab.stockSymbol activeTab)) in
        if negb (nonEmpty symbol) then s
        else fetchQuote symbol s
  end.

Definition startAutoFetchInterval (s : State) : State :=
  let s1 :=
    match autoFetchIntervalId s with
    | Some h => clearInterval h s
    | None => s
    end in
  if hasAutoPrice s1 then
    let s2 := fetchPriceForActiveTab s1 in
    let '(h, s3) := setInterval s2 in
    with_autoFetchIntervalId (Some h) s3
  else s1.

Definition stopAutoFetchInterval (s : State) : State :=
  match autoFetchIntervalId s with
  | Some h => with_autoFetchIntervalId None (clearInterval h s)
  | None => s
  end.

Definition checkAutoFetchInterval (s : State) : State :=
  let hasAutoPrice := hasAutoPrice s in
  let running := bool_decide (is_Some (autoFetchIntervalId s)) in
  if hasAutoPrice && negb running then startAutoFetchInterval s
  else if negb hasAutoPrice && running then stopAutoFetchInterval s
  else if hasAutoPrice && running then startAutoFetchInterval s
  else s.

(** One firing of the interval timer [h]. *)
Definition intervalTick (h : positive) (s : State) : State :=
  if bool_decide (h ∈ intervals s) then fetchPriceForActiveTab s else s.

(* ===================================================================== *)
(** * Switching, closing and reordering tabs *)
(* ===================================================================== *)

Definition switchTab (tabId : string) (s : State) : State :=
  if bool_decide (activeTabId s = Some tabId) then s
  else
    let s1 := if idTruthy (activeTabId s) then saveCurrentTabState s else s in
    let s2 := setItemActiveTabId (with_activeTabId (Some tabId) s1) in
    let s3 := loadTabState tabId (renderTabs s2) in
    checkAutoFetchInterval s3.

(** How an event handler ends: normally, or by an uncaught [TypeError]
    (the state is the one reached when it was thrown). *)
Inductive Outcome :=
| Done (s : State)
| Threw (s : State).

Definition stateOf (o : Outcome) : State :=
  match o with Done s | Threw s => s end.

(** [closeTab(event, tabId)]; [confirmAnswer] is what the user answers if
    the confirmation dialog is shown. *)
Definition closeTab (confirmAnswer : bool) (tabId : string) (s : State) : Outcome :=
  if (length (tabs s) =? 1)%nat then
    Done (alert "Cannot close the last tab. At least one tab must remain open." s)
  else
    let tab := find tabId (tabs s) in
    let hasSymbol :=
      match tab with
      | Some t => nonEmpty (Tab.stockSymbol t)
      | None => false
      end in
    if hasSymbol && negb confirmAnswer then Done s
    else
      let s1 :=
        match tab with
        | Some t =>
            if nonEmpty (Tab.stockSymbol t)
            then removeStockPrice (toUpperCase (Tab.stockSymbol t)) s
            else s
        | None => s
        end in
      let tabIndex := findIndex tabId (tabs s1) in
      let s2 := with_tabs (fst (splice (tabs s1) tabIndex 1 [])) s1 in
      let finish s' :=
        Done (checkAutoFetchInterval (renderTabs (saveTabsToStorage s'))) in
      if bool_decide (activeTabId s2 = Some tabId) then
        let newActiveIndex := Z.max 0 (tabIndex - 1) in
        match tabs s2 !! Z.to_nat newActiveIndex with
        | None => Threw s2
        | Some t =>
            let s3 := setItemActiveTabId (with_activeTabId (Some (Tab.id t)) s2) in
            finish (loadTabState (Tab.id t) s3)
        end
      else finish s2.

Definition reorderTabs (draggedId dropTargetId : string) (s : State) : State :=
  let draggedIndex := findIndex draggedId (tabs s) in
  let dropIndex := findIndex dropTargetId (tabs s) in
  if (draggedIndex =? -1) || (dropIndex =? -1) then s
  else
    let '(rest, removed) := splice (tabs s) draggedIndex 1 [] in
    let tabs' := fst (splice rest dropIndex 0 (take 1 removed)) in
    renderTabs (saveTabsToStorage (with_tabs tabs' s)).

(** [handleDragStart] and [handleDrop] on the tab elements whose
    [data-tab-id] is given ([None]: the event target is not a tab). *)
Definition handleDragStart (tabElement : option string) (s : State) : State :=
  match tabElement with
  | None => s
  | Some tabId => with_draggedTabId (Some tabId) s
  end.

Definition handleDrop (dropTarget : option string) (s : State) : State :=
  match dropTarget with
  | None => s
  | Some dropTabId =>
      if bool_decide (draggedTabId s ≠ Some dropTabId) then
        match draggedTabId s with
        | Some draggedId => reorderTabs draggedId dropTabId s
        | None => s (* no tab has id [null]: [reorderTabs] returns at once *)
        end
      else s
  end.

(* ===================================================================== *)
(** * Input events and auto-price *)
(* ===================================================================== *)

(** The [input] listeners of the entry price field: the recomputation of
    the result panel (a repaint) and the debounced save. *)
Definition onEntryPriceInput (s : State) : State :=
  debouncedSaveTabState s.

Definition with_entryPrice (v : string) (s : State) : State :=
  with_form
    {| Form.stockSymbol := Form.stockSymbol (form s);
       Form.entryPrice := v;
       Form.targetPrice := Form.targetPrice (form s);
       Form.quantity := Form.quantity (form s);
       Form.tpPercent := Form.tpPercent (form s);
       Form.slPercent := Form.slPercent (form s) |} s.

Definition with_stockSymbol (v : string) (s : State) : State :=
  with_form
    {| Form.stockSymbol := v;
       Form.entryPrice := Form.entryPrice (form s);
       Form.targetPrice := Form.targetPrice (form s);
       Form.quantity := Form.quantity (form s);
       Form.tpPercent := Form.tpPercent (form s);
       Form.slPercent := Form.slPercent (form s) |} s.

(** [fetchStockPrice(symbol)] up to its first request.  On a cached
    quote whose price is [null], [cachedData.price.toFixed(2)] throws: the
    promise of the function is rejected, which no caller awaits, and
    nothing is written. *)
Definition fetchStockPrice (now : Z) (symbol : string) (s : State) : State :=
  if negb (nonEmpty symbol) || negb (autoPriceEnabled s) then s
  else
    let upperSymbol := toUpperCase symbol in
    let '(cachedData, s1) := getCachedPrice now upperSymbol s in
    match cachedData with
    | Some data =>
        match Quote.price data with
        | Some price => onEntryPriceInput (with_entryPrice (toFixed 2 price) s1)
        | None => s1
        end
    | None => fetchQuote upperSymbol s1
    end.

Definition toggleAutoPrice (now : Z) (s : State) : State :=
  let s1 := with_autoPriceEnabled (negb (autoPriceEnabled s)) s in
  let s2 :=
    if autoPriceEnabled s1 then
      let stockSymbol := trim (Form.stockSymbol (form s1)) in
      if nonEmpty stockSymbol then fetchStockPrice now stockSymbol s1 else s1
    else s1 in
  let s3 := if idTruthy (activeTabId s2) then saveCurrentTabState s2 else s2 in
  checkAutoFetchInterval s3.

(** The user changes the symbol field to [value]: the two [input]
    listeners of the field, in the order they were registered. *)
Definition onStockSymbolInput (value : string) (s : State) : State :=
  let s0 := with_stockSymbol value s in
  (* listener added when the script runs *)
  let symbol := trim value in
  let s1 :=
    match symbolDebounceTimer s0 with
    | Some h => clearTimeout h s0
    | None => s0
    end in
  let s2 :=
    if autoPriceEnabled s1 && negb (nonEmpty symbol)
    then with_entryPrice "" s1 else s1 in
  let s3 :=
    if nonEmpty symbol && autoPriceEnabled s2 then
      let '(h, s') := setTimeout (CbFetchStockPrice symbol) s2 in
      with_symbolDebounceTimer (Some h) s'
    else s2 in
  (* listener added on DOMContentLoaded *)
  if idTruthy (activeTabId s3)
  then checkAutoFetchInterval (debouncedSaveTabState s3)
  else s3.

(** The callback the pending timeout [h] will run, if [h] is pending. *)
Definition pendingCallback (h : positive) (s : State) : option Callback :=
  (fun r => snd (snd r)) <$> list_find (fun p => fst p = h) (timeouts s).

(** The pending timeout [h] fires when the clock reads [now]. *)
Definition fireTimeout (now : Z) (h : positive) (s : State) : State :=
  match pendingCallback h s with
  | None => s
  | Some cb =>
      let s1 := with_timeouts (filter (fun p => fst p ≠ h) (timeouts s)) s in
      match cb with
      | CbSaveCurrentTabState => saveCurrentTabState s1
      | CbClearLoadingFlag => with_isLoadingTabState false s1
      | CbFetchStockPrice symbol => fetchStockPrice now symbol s1
      end
  end.

(* ===================================================================== *)
(** * Theme *)
(* ===================================================================== *)

Module Theme.

(** What the theme functions read and write: whether the body carries the
    class [light-mode], whether each of the two icons carries the class
    [hidden], and the [theme] item of [localStorage]. *)
Record Page := {
  lightMode : bool;
  themeIconDarkHidden : bool;
  themeIconLightHidden : bool;
  themeItem : option string
}.

Definition toggleTheme (p : Page) : Page :=
  if negb (lightMode p) then
    {| lightMode := true; themeIconDarkHidden := true;
       themeIconLightHidden := false; themeItem := Some "light" |}
  else
    {| lightMode := false; themeIconDarkHidden := false;
       themeIconLightHidden := true; themeItem := Some "dark" |}.

Definition loadTheme (p : Page) : Page :=
  if bool_decide (themeItem p = Some "light") then
    {| lightMode := true; themeIconDarkHidden := true;
       themeIconLightHidden := false; themeItem := themeItem p |}
  else p.

End Theme.

(* ===================================================================== *)
(** * Sequences of store operations *)
(* ===================================================================== *)

(** The operations that change the collection. *)
Inductive Op :=
| OpCreate (now : Z) (random : string) (created : Z)
| OpClose (confirmAnswer : bool) (tabId : string)
| OpReorder (movedId beforeId : string).

Definition step (o : Op) (s : State) : State :=
  match o with
  | OpCreate now random created => addNewTab now random created s
  | OpClose confirmAnswer tabId => stateOf (closeTab confirmAnswer tabId s)
  | OpReorder movedId beforeId => reorderTabs movedId beforeId s
  end.

Definition run (ops : list Op) (s : State) : State :=
  fold_left (fun s o => step o s) ops s.

(** ** Store invariants *)

Definition ids (s : State) : list string := map Tab.id (tabs s).

Definition uniqueIds (s : State) : Prop := NoDup (ids s).

Definition activeResolves (s : State) : Prop :=
  exists a, activeTabId s = Some a /\ a ∈ ids s.

Definition validStore (s : State) : Prop := uniqueIds s /\ activeResolves s.

(** Every record holds its symbol as [saveCurrentTabState] writes it. *)
Definition symbolsTrimmed (s : State) : Prop :=
  Forall (fun t => trim (Tab.stockSymbol t) = Tab.stockSymbol t) (tabs s).

(** The ratio text names no number. *)
Definition nonNumericText (r : string) : bool :=
  (r =? "NaN")%string || (r =? "Infinity")%string || (r =? "-Infinity")%string.

(** [x] sits right before [y] in [l]. *)
Fixpoint immediatelyBefore (x y : string) (l : list string) : bool :=
  match l with
  | a :: (b :: _) as r =>
      (bool_decide (a = x) && bool_decide (b = y)) || immediatelyBefore x y r
  | _ => false
  end.

(** ** Example stores *)

Definition sampleTab (i sym : string) (auto : bool) : Tab.t :=
  {| Tab.id := i; Tab.name := "New Tab"; Tab.stockSymbol := sym;
     Tab.entryPrice := ""; Tab.targetPrice := ""; Tab.quantity := "";
     Tab.tpPercent := ""; Tab.slPercent := "";
     Tab.autoPriceEnabled := auto; Tab.calculationMode := Some current;
     Tab.createdAt := 0 |}.

Definition emptyForm : Form.t :=
  {| Form.stockSymbol := ""; Form.entryPrice := ""; Form.targetPrice := "";
     Form.quantity := ""; Form.tpPercent := ""; Form.slPercent := "" |}.

(** A store as it is right after a reload: [l] persisted with [a] active,
    the form showing [f], no timer pending. *)
Definition sampleStore (l : list Tab.t) (a : string) (f : Form.t)
    (cache : gmap string Quote.t) : State :=
  {| tabs := l; activeTabId := Some a; calculationMode := current;
     autoPriceEnabled := false; isLoadingTabState := false;
     saveDebounceTimer := None; autoFetchIntervalId := None;
     draggedTabId := None; symbolDebounceTimer := None;
     form := f; formDefaults := emptyForm;
     localStorage :=
       {| Storage.stockTabs := Some l; Storage.activeTabId := Some a;
          Storage.stockPrice := cache |};
     timeouts := []; intervals := []; nextTimerId := 1; intervalLog := [];
     network := []; alerts := [] |}.

Definition sampleQuote (sym : string) (p : Z) (t : Z) : Quote.t :=
  {| Quote.symbol := sym; Quote.price := Some (ofZ p); Quote.percentChange := None;
     Quote.previousClose := None; Quote.openPrice := None;
     Quote.dayHigh := None; Quote.dayLow := None; Quote.volume := None;
     Quote.week52High := None; Quote.week52Low := None;
     Quote.timestamp := t |}.

(** One tab holding AAPL and a quote for it cached at time 1000. *)
Definition appleQuote : Quote.t := sampleQuote "AAPL" 190 1000.

Definition storeWithQuote : State :=
  sampleStore [sampleTab "a" "AAPL" false] "a" emptyForm {[ "AAPL" := appleQuote ]}.

(** A single tab store, and the same store while a load is painting the
    form: the user has typed MSFT over the loaded symbol, a debounced save
    is pending under handle 1 and the flag is to be cleared by handle 2. *)
Definition singleTabStore : State :=
  sampleStore [sampleTab "a" "AAPL" false] "a" emptyForm ∅.

Definition typedForm : Form.t :=
  {| Form.stockSymbol := "MSFT"; Form.entryPrice := "410"; Form.targetPrice := "";
     Form.quantity := "3"; Form.tpPercent := ""; Form.slPercent := "" |}.

Definition loadingStore : State :=
  with_nextTimerId 3
    (with_timeouts [(1%positive, CbSaveCurrentTabState); (2%positive, CbClearLoadingFlag)]
       (with_saveDebounceTimer (Some 1%positive)
          (with_isLoadingTabState true
             (sampleStore [sampleTab "a" "AAPL" false] "a" typedForm ∅)))).

(** Three empty tabs, the middle one active. *)
Definition threeTabStore : State :=
  sampleStore [sampleTab "a" "" false; sampleTab "b" "" false; sampleTab "c" "" false]
    "b" emptyForm ∅.

(** Two tabs on the same symbol, with a quote for it in the cache. *)
Definition sharedSymbolStore : State :=
  sampleStore [sampleTab "a" "AAPL" false; sampleTab "b" "AAPL" false]
    "a" emptyForm {[ "AAPL" := appleQuote ]}.

(** Two empty tabs, the second one active. *)
Definition twoTabStore : State :=
  sampleStore [sampleTab "a" "" false; sampleTab "b" "" false] "b" emptyForm ∅.

(** A sequence of operations is admissible from [s] when every id that
    [generateTabId] produces is new to the collection at that point and
    every close names a tab of the collection at that point. *)
Definition admissibleOp (o : Op) (s : State) : Prop :=
  match o with
  | OpCreate now random _ => generateTabId now random ∉ ids s
  | OpClose _ tabId => tabId ∈ ids s
  | OpReorder _ _ => True
  end.

Fixpoint admissible (ops : list Op) (s : State) : Prop :=
  match ops with
  | [] => True
  | o :: rest => admissibleOp o s /\ admissible rest (step o s)
  end.

(** The handles the browser has handed out for intervals are accounted
    for: a live interval is the one held in [autoFetchIntervalId], and the
    handle held there is older than the next one the browser will give. *)
Definition pollerConsistent (s : State) : Prop :=
  (forall h, h ∈ intervals s -> intervals s = [h] /\ autoFetchIntervalId s = Some h) /\
  (forall h, autoFetchIntervalId s = Some h -> (h < nextTimerId s)%positive).

(** Two tabs with auto-price on, on different symbols; "a" is active. *)
Definition autoPriceStore : State :=
  sampleStore [sampleTab "a" "AAPL" true; sampleTab "b" "MSFT" true] "a"
    emptyForm ∅.

(** The poller's own variables and the browser's interval table are the
    same in [s'] as in [s]; the browser may have handed out more handles. *)
Definition pollerUntouched (s s' : State) : Prop :=
  autoFetchIntervalId s' = autoFetchIntervalId s /\
  intervals s' = intervals s /\
  intervalLog s' = intervalLog s /\
  (nextTimerId s <= nextTimerId s')%positive.


(** A create, a reorder and a close, as the page would issue them on
    [twoTabStore]. *)
Definition sampleOps : list Op :=
  [OpCreate 1700000000000 "abc123xyz" 1700000000000;
   OpReorder "a" "b";
   OpClose true "a"].

(** A store whose only tab was created an instant ago, under the id that
    the same clock reading and random string produce again. *)
Definition collidingStore : State :=
  sampleStore [sampleTab "tab_1700000000000_abc123xyz" "" false]
    "tab_1700000000000_abc123xyz" emptyForm ∅.

(* ===================================================================== *)
(** * Keyboard navigation, clearing all tabs, calculation mode *)
(* ===================================================================== *)

(** [tabs.findIndex(t => t.id === activeTabId)]; no id equals [null]. *)
Definition activeIndex (s : State) : Z :=
  match activeTabId s with
  | Some a => findIndex a (tabs s)
  | None => -1
  end.

(** [switchToNextTab()] and [switchToPrevTab()].  Reading [.id] of a
    missing array element would end the handler with a [TypeError]. *)
Definition switchToNextTab (s : State) : Outcome :=
  if (length (tabs s) <=? 1)%nat then Done s
  else
    let currentIndex := activeIndex s in
    if currentIndex =? -1 then Done s
    else
      let nextIndex := Z.rem (currentIndex + 1) (Z.of_nat (length (tabs s))) in
      match tabs s !! Z.to_nat nextIndex with
      | Some t => Done (switchTab (Tab.id t) s)
      | None => Threw s
      end.

Definition switchToPrevTab (s : State) : Outcome :=
  if (length (tabs s) <=? 1)%nat then Done s
  else
    let currentIndex := activeIndex s in
    if currentIndex =? -1 then Done s
    else
      let prevIndex :=
        if currentIndex =? 0 then Z.of_nat (length (tabs s)) - 1
        else currentIndex - 1 in
      match tabs s !! Z.to_nat prevIndex with
      | Some t => Done (switchTab (Tab.id t) s)
      | None => Threw s
      end.

(** The [keydown] listener of the document. *)
Definition onKeyDown (isInputFocused : bool) (key : string) (s : State) : Outcome :=
  if isInputFocused then Done s
  else if (key =? "ArrowRight")%string then switchToNextTab s
  else if (key =? "ArrowLeft")%string then switchToPrevTab s
  else Done s.

(** [localStorage.removeItem('stockTabs')] and
    [localStorage.removeItem('activeTabId')] *)
Definition removeItemsOfTabs (s : State) : State :=
  with_localStorage
    {| Storage.stockTabs := None;
       Storage.activeTabId := None;
       Storage.stockPrice := Storage.stockPrice (localStorage s) |} s.

(** The [forEach] over the tabs that removes the cached quote of every
    tab holding a symbol. *)
Definition removeQuotesOf (l : list Tab.t) (s : State) : State :=
  fold_left
    (fun acc tab =>
       if nonEmpty (Tab.stockSymbol tab)
       then removeStockPrice (toUpperCase (Tab.stockSymbol tab)) acc
       else acc)
    l s.

(** [clearAllTabs()]; [confirmAnswer] is the answer to the confirmation
    dialog (its wording depends on the tabs, the question is always
    asked), the other arguments are those of the [addNewTab] it ends
    with. *)
Definition clearAllTabs (confirmAnswer : bool) (now : Z) (random : string)
    (created : Z) (s : State) : State :=
  if negb confirmAnswer then s
  else
    let s1 := removeQuotesOf (tabs s) s in
    let s2 := with_activeTabId None (with_tabs [] s1) in
    addNewTab now random created (removeItemsOfTabs s2).

(** [setCalculationMode(mode)]; the repaint of the mode buttons and of the
    result panel are left out. *)
Definition setCalculationMode (mode : CalcMode) (s : State) : State :=
  let s1 := with_calculationMode mode s in
  if idTruthy (activeTabId s1) then saveCurrentTabState s1 else s1.

(** [handleDragEnd]: the drag is over. *)
Definition handleDragEnd (s : State) : State :=
  with_draggedTabId None s.

(* ===================================================================== *)
(** * Orphaned quotes and page load *)
(* ===================================================================== *)

(** The symbols held by the tabs, as [cleanupOrphanedCache] collects
    them. *)
Definition activeSymbols (s : State) : list string :=
  map (fun tab => toUpperCase (Tab.stockSymbol tab))
      (filter (fun tab => nonEmpty (Tab.stockSymbol tab) = true) (tabs s)).

(** [cleanupOrphanedCache()]: the number it returns and the state
    afterwards.  The keys of the quote items are visited in the order the
    storage lists them. *)
Definition cleanupOrphanedCache (s : State) : nat * State :=
  let activeSymbols := activeSymbols s in
  let keysToRemove :=
    filter (fun symbol => symbol ∉ activeSymbols)
           (map fst (map_to_list (Storage.stockPrice (localStorage s)))) in
  (length keysToRemove,
   fold_left (fun acc key => removeStockPrice key acc) keysToRemove s).

(** The script's variables as they are when the page has just been
    parsed: [storage] is what the browser kept, [defaults] the values the
    form's markup gives the inputs, [nextId] the first timer handle the
    browser has not handed out yet. *)
Definition pageLoaded (storage : Storage.t) (defaults : Form.t)
    (nextId : positive) : State :=
  {| tabs := []; activeTabId := None; calculationMode := current;
     autoPriceEnabled := false; isLoadingTabState := false;
     saveDebounceTimer := None; autoFetchIntervalId := None;
     draggedTabId := None; symbolDebounceTimer := None;
     form := defaults; formDefaults := defaults;
     localStorage := storage;
     timeouts := []; intervals := []; nextTimerId := nextId;
     intervalLog := []; network := []; alerts := [] |}.

(** [localStorage.getItem('activeTabId') || tabs[0]?.id || null] *)
Definition restoredActiveTabId (stored : option string) (saved : list Tab.t)
    : option string :=
  if idTruthy stored then stored
  else
    match saved with
    | t :: _ => if nonEmpty (Tab.id t) then Some (Tab.id t) else None
    | [] => None
    end.

(** [initTabSystem()].  The timeout it ends with runs
    [cleanupOrphanedCache] a second later; its handle is returned next to
    the state, and its firing is the event [cleanupOrphanedCache]. *)
Definition initTabSystem (now : Z) (random : string) (created : Z) (s : State)
    : positive * State :=
  let s1 :=
    match Storage.stockTabs (localStorage s) with
    | Some saved =>
        with_activeTabId
          (restoredActiveTabId (Storage.activeTabId (localStorage s)) saved)
          (with_tabs saved s)
    | None => s
    end in
  let s2 :=
    if (length (tabs s1) =? 0)%nat then addNewTab now random created s1
    else
      let s' := renderTabs s1 in
      match activeTabId s' with
      | Some a => if nonEmpty a then loadTabState a s' else s'
      | None => s'
      end in
  let s3 := checkAutoFetchInterval s2 in
  (nextTimerId s3, with_nextTimerId (Pos.succ (nextTimerId s3)) s3).

(* ===================================================================== *)
(** * The events of the page *)
(* ===================================================================== *)

(** The five number inputs that share one [input] listener body. *)
Inductive NumberField :=
| entryPriceField | targetPriceField | quantityField
| tpPercentField | slPercentField.

Definition setField (fld : NumberField) (v : string) (f : Form.t) : Form.t :=
  {| Form.stockSymbol := Form.stockSymbol f;
     Form.entryPrice := match fld with entryPriceField => v | _ => Form.entryPrice f end;
     Form.targetPrice := match fld with targetPriceField => v | _ => Form.targetPrice f end;
     Form.quantity := match fld with quantityField => v | _ => Form.quantity f end;
     Form.tpPercent := match fld with tpPercentField => v | _ => Form.tpPercent f end;
     Form.slPercent := match fld with slPercentField => v | _ => Form.slPercent f end |}.

(** The user changes the number input [fld] to [value]: the recomputation
    of the result panel (a repaint) and the debounced save. *)
Definition onNumberInput (fld : NumberField) (value : string) (s : State) : State :=
  debouncedSaveTabState (with_form (setField fld value (form s)) s).

(** The listeners [createTabElement] gives the element of a tab.
    [renderTabs] builds one element per record, in order, so an element is
    named by the position of its record. *)
Definition onTabClick (i : nat) (s : State) : State :=
  match tabs s !! i with
  | Some tab => switchTab (Tab.id tab) s
  | None => s
  end.

Definition onTabCloseClick (confirmAnswer : bool) (i : nat) (s : State) : Outcome :=
  match tabs s !! i with
  | Some tab => closeTab confirmAnswer (Tab.id tab) s
  | None => Done s
  end.

Inductive PageEvent :=
| EvAddTab (now : Z) (random : string) (created : Z)
| EvTabClick (i : nat)
| EvTabCloseClick (confirmAnswer : bool) (i : nat)
| EvDragStart (i : nat)
| EvDrop (i : nat)
| EvDragEnd
| EvKeyDown (isInputFocused : bool) (key : string)
| EvClearAll (confirmAnswer : bool) (now : Z) (random : string) (created : Z)
| EvSetCalculationMode (mode : CalcMode)
| EvToggleAutoPrice (now : Z)
| EvSymbolInput (value : string)
| EvNumberInput (fld : NumberField) (value : string)
| EvTimeout (now : Z) (h : positive)
| EvIntervalTick (h : positive)
| EvCleanupOrphanedCache.

Definition dispatch (e : PageEvent) (s : State) : Outcome :=
  match e with
  | EvAddTab now random created => Done (addNewTab now random created s)
  | EvTabClick i => Done (onTabClick i s)
  | EvTabCloseClick confirmAnswer i => onTabCloseClick confirmAnswer i s
  | EvDragStart i => Done (handleDragStart (Tab.id <$> tabs s !! i) s)
  | EvDrop i => Done (handleDrop (Tab.id <$> tabs s !! i) s)
  | EvDragEnd => Done (handleDragEnd s)
  | EvKeyDown isInputFocused key => onKeyDown isInputFocused key s
  | EvClearAll confirmAnswer now random created =>
      Done (clearAllTabs confirmAnswer now random created s)
  | EvSetCalculationMode mode => Done (setCalculationMode mode s)
  | EvToggleAutoPrice now => Done (toggleAutoPrice now s)
  | EvSymbolInput value => Done (onStockSymbolInput value s)
  | EvNumberInput fld value => Done (onNumberInput fld value s)
  | EvTimeout now h => Done (fireTimeout now h s)
  | EvIntervalTick h => Done (intervalTick h s)
  | EvCleanupOrphanedCache => Done (snd (cleanupOrphanedCache s))
  end.

(** The events of a list, one after the other; an event that ends with an
    exception leaves the state it had reached. *)
Definition runEvents (es : list PageEvent) (s : State) : State :=
  fold_left (fun s e => stateOf (dispatch e s)) es s.

(** The ids [generateTabId] produces along [es] are new to the collection
    at the moment they are produced. *)
Definition freshAt (e : PageEvent) (s : State) : Prop :=
  match e with
  | EvAddTab now random _ => generateTabId now random ∉ ids s
  | _ => True
  end.

Fixpoint freshAlong (es : list PageEvent) (s : State) : Prop :=
  match es with
  | [] => True
  | e :: rest => freshAt e s /\ freshAlong rest (stateOf (dispatch e s))
  end.

(** ** More invariants *)

(** Between one and [MAX_TABS] tabs. *)
Definition withinBounds (s : State) : Prop :=
  (1 <= length (tabs s) <= MAX_TABS)%nat.

(** The persisted copy is the live collection and pointer. *)
Definition persistedInSync (s : State) : Prop :=
  Storage.stockTabs (localStorage s) = Some (tabs s) /\
  Storage.activeTabId (localStorage s) = Some (itemOfId (activeTabId s)).

(** Every pending timeout has a handle the browser has handed out, no
    handle is pending twice, and a pending save is the one
    [saveDebounceTimer] names. *)
Definition timersConsistent (s : State) : Prop :=
  NoDup (map fst (timeouts s)) /\
  (forall h cb, (h, cb) ∈ timeouts s -> (h < nextTimerId s)%positive) /\
  (forall h, (h, CbSaveCurrentTabState) ∈ timeouts s -> saveDebounceTimer s = Some h).

(** The handles of the saves that are pending. *)
Definition isSave (cb : Callback) : bool :=
  match cb with CbSaveCurrentTabState => true | _ => false end.

Definition pendingSaves (s : State) : list positive :=
  map fst (filter (fun p => isSave (snd p) = true) (timeouts s)).

(** ** More example stores *)

(** Two tabs, "a" active and edited on the form but not yet saved. *)
Definition editedStore : State :=
  sampleStore [sampleTab "a" "AAPL" false; sampleTab "b" "TSLA" true] "a"
    typedForm ∅.

(** ** Relations between the states before and after an event *)

(** [s'] has the collection and the pointer of [s], and the same
    persisted copies of them. *)
Definition storeUntouched (s s' : State) : Prop :=
  tabs s' = tabs s /\ activeTabId s' = activeTabId s /\
  Storage.stockTabs (localStorage s') = Storage.stockTabs (localStorage s) /\
  Storage.activeTabId (localStorage s') = Storage.activeTabId (localStorage s).

(** [s'] has the ids and the pointer of [s]; fields of records may have
    been written, as [saveCurrentTabState] writes them. *)
Definition storeKept (s s' : State) : Prop :=
  ids s' = ids s /\ activeTabId s' = activeTabId s /\
  (persistedInSync s -> persistedInSync s') /\
  (symbolsTrimmed s -> symbolsTrimmed s').

(** No snapshot of the browser's interval table holds two handles. *)
Definition logBounded (s : State) : Prop :=
  Forall (fun live : list positive => (length live <= 1)%nat) (intervalLog s).

(** The timeout table and [saveDebounceTimer] are those of [s]; the
    browser may have handed out more handles. *)
Definition timersUntouched (s s' : State) : Prop :=
  timeouts s' = timeouts s /\
  saveDebounceTimer s' = saveDebounceTimer s /\
  (nextTimerId s <= nextTimerId s')%positive.

(** No event of the sequence ends with an exception. *)
Fixpoint endNormally (es : list PageEvent) (s : State) : Prop :=
  match es with
  | [] => True
  | e :: rest =>
      (exists s', dispatch e s = Done s') /\ endNormally rest (stateOf (dispatch e s))
  end.

(** A session on [twoTabStore]: a tab is added, the first tab is clicked
    and its load completes, a symbol is typed, auto-price is switched on,
    the left arrow is pressed and then the right one, the first tab is
    dragged onto the last one, the interval ticks, the middle tab is
    closed, and everything is cleared. *)
Definition sampleEvents : list PageEvent :=
  [EvAddTab 1700000000000 "abc123xyz" 1700000000000;
   EvTabClick 0;
   EvTimeout 1700000000200 1;
   EvSymbolInput "aapl ";
   EvToggleAutoPrice 1700000001000;
   EvKeyDown false "ArrowLeft";
   EvKeyDown false "ArrowRight";
   EvDragStart 0; EvDrop 2; EvDragEnd;
   EvIntervalTick 6;
   EvTabCloseClick true 1;
   EvClearAll true 1700000003000 "def456uvw" 1700000003000].

(** [singleTabStore] with auto-price on and a quote for AAPL cached at
    time 1000. *)
Definition quotedStore : State :=
  cachePrice 1000 "AAPL" (ofZ 190) None None None None None None None None
    (with_autoPriceEnabled true singleTabStore).

(* ===================================================================== *)
(** * Properties of the trade math *)
(* ===================================================================== *)

Module TradeMathFacts.
Import TradeMath.

Lemma digits2_shift52 (m : positive) :
  Zpos (digits2_pos (4503599627370496 * m)) = Zpos (digits2_pos m) + 52.
Proof.
  change (4503599627370496 * m)%positive with (Pos.iter xO m 52%positive).
  cbn [Pos.iter digits2_pos]. lia.
Qed.

Lemma shr_52 (m : positive) :
  @SpecFloat.iter_pos shr_record shr_1 52%positive
    {| shr_m := Zpos (4503599627370496 * m); shr_r := false; shr_s := false |}
  = {| shr_m := Zpos m; shr_r := false; shr_s := false |}.
Proof. reflexivity. Qed.

(** Multiplying a finite binary64 value by 1 is exact. *)
Lemma mul_one (s : bool) (m : positive) (e : Z) :
  bounded prec emax m e = true ->
  mul (S754_finite s m e) one = S754_finite s m e.
Proof.
  intros Hb. unfold bounded, canonical_mantissa in Hb.
  apply andb_prop in Hb as [Hc He]. apply Z.eqb_eq in Hc.
  change one with (S754_finite false 4503599627370496 (-52)).
  unfold mul, SFmul. rewrite xorb_false_r, Pos.mul_comm.
  unfold binary_round_aux, shr_fexp.
  cbn [Zdigits2 shr_record_of_loc].
  rewrite digits2_shift52.
  replace (Z.pos (digits2_pos m) + 52 + (e + -52))
    with (Z.pos (digits2_pos m) + e) by lia.
  rewrite Hc. replace (e - (e + -52)) with 52 by lia.
  cbn [shr]. rewrite shr_52.
  cbn [shr_m loc_of_shr_record round_nearest_even Zdigits2 shr_record_of_loc].
  replace (e + -52 + 52) with e by lia.
  rewrite Hc, Z.sub_diag. cbn [shr shr_m].
  rewrite He. reflexivity.
Qed.

(** A finite value minus itself is [+0]. *)
Lemma sub_diag (s : bool) (m : positive) (e : Z) :
  sub (S754_finite s m e) (S754_finite s m e) = S754_zero false.
Proof.
  unfold sub, SFsub. rewrite Z.min_id. unfold shl_align.
  rewrite Z.sub_diag. cbv beta iota. cbn [fst]. reflexivity.
Qed.

Lemma one_plus_zero_percent (b : bool) :
  add one (div (S754_zero b) hundred) = one.
Proof. destruct b; reflexivity. Qed.

Lemma one_minus_zero_percent (b : bool) :
  sub one (div (S754_zero b) hundred) = one.
Proof. destruct b; reflexivity. Qed.

Lemma positiveFinite_inv (x : Number) :
  positiveFinite x = true ->
  exists m e, x = S754_finite false m e /\ bounded prec emax m e = true.
Proof.
  destruct x as [| | |[] m e]; simpl; try discriminate. eauto.
Qed.

Lemma isZero_inv (x : Number) : isZero x = true -> exists b, x = S754_zero b.
Proof. destruct x; simpl; try discriminate. eauto. Qed.

(** With both percentages zero the levels collapse onto the base price
    and the ratio is [0 / 0]. *)
Lemma computeLevels_zero_percent mode cp tgt q b1 b2 :
  positiveFinite (basePriceOf mode cp tgt) = true ->
  positiveFinite q = true ->
  let lv := computeLevels mode cp tgt q (S754_zero b1) (S754_zero b2) in
  basePrice lv = basePriceOf mode cp tgt /\
  tpPrice lv = basePrice lv /\ slPrice lv = basePrice lv /\
  maxProfit lv = S754_zero false /\ maxLoss lv = S754_zero false /\
  ratio lv = "NaN".
Proof.
  intros Hb Hq lv. subst lv. unfold computeLevels.
  rewrite one_plus_zero_percent, one_minus_zero_percent.
  apply positiveFinite_inv in Hb as (m & e & -> & Hme).
  apply positiveFinite_inv in Hq as (mq & eq & -> & _).
  cbn [basePrice tpPrice slPrice maxProfit maxLoss ratio].
  rewrite (mul_one _ _ _ Hme), sub_diag.
  repeat split; reflexivity.
Qed.

(** C7: with price 100, quantity 10, take-profit 10% and stop-loss 5% in
    current-price mode, the inputs are accepted and the result panel
    shows 110.00 as take-profit price, 95.00 as stop-loss price, 1000.00
    as investment, 100.00 as maximum profit, 50.00 as maximum loss and the
    ratio "1:2.0" (whatever the target field and the exchange rate are). *)
Theorem calculateTradeLevels_worked_example (rate targetPrice : Number) :
  exists lv d,
    calculateTradeLevels rate current (ofZ 100) targetPrice (ofZ 10)
      (ofZ 10) (ofZ 5) = (noErrors, Some (lv, d)) /\
    el_resultTP d = "$110.00" /\
    el_resultSL d = "$95.00" /\
    el_resultInvestment d = "$1000.00" /\
    el_maxProfit d = "+$100.00" /\
    el_maxLoss d = "-$50.00" /\
    ratio lv = "2.0" /\
    el_riskReward d = "1:2.0".
Proof.
  eexists _, _. split; [reflexivity |].
  repeat split; vm_compute; reflexivity.
Qed.

(** C8, as the code has it: for every positive finite base price and
    positive finite quantity with both percentages zero, the inputs are
    accepted, the take-profit and stop-loss prices equal the base price,
    maximum profit and maximum loss are 0, and the ratio is the unguarded
    quotient 0 / 0: its text is "NaN" and the panel shows "1:NaN". *)
Theorem zero_percent_levels (rate : Number) (mode : CalcMode)
    (currentPrice targetPrice quantity tpPercent slPercent : Number) :
  positiveFinite currentPrice = true ->
  (mode = target -> positiveFinite targetPrice = true) ->
  positiveFinite quantity = true ->
  isZero tpPercent = true ->
  isZero slPercent = true ->
  exists lv d,
    calculateTradeLevels rate mode currentPrice targetPrice quantity
      tpPercent slPercent = (noErrors, Some (lv, d)) /\
    basePrice lv = (if CalcMode_eqb mode target then targetPrice else currentPrice) /\
    tpPrice lv = basePrice lv /\
    slPrice lv = basePrice lv /\
    maxProfit lv = S754_zero false /\
    maxLoss lv = S754_zero false /\
    div (maxProfit lv) (maxLoss lv) = S754_nan /\
    ratio lv = "NaN" /\
    el_riskReward d = "1:NaN".
Proof.
  intros Hcp Htgt Hq Htp Hsl.
  apply isZero_inv in Htp as [b1 ->]. apply isZero_inv in Hsl as [b2 ->].
  assert (Hbase : positiveFinite (basePriceOf mode currentPrice targetPrice) = true).
  { unfold basePriceOf. destruct mode; simpl; auto. }
  destruct (computeLevels_zero_percent mode currentPrice targetPrice quantity
              b1 b2 Hbase Hq) as (H0 & H1 & H2 & H3 & H4 & H5).
  eexists _, _. split.
  - unfold calculateTradeLevels, validate.
    assert (Hv : forall x, positiveFinite x = true ->
                   falsy x || leb x zero = false).
    { intros x Hx. apply positiveFinite_inv in Hx as (m & e & -> & _).
      reflexivity. }
    rewrite (Hv _ Hcp), (Hv _ Hq).
    assert (Ht : CalcMode_eqb mode target &&
                 (falsy targetPrice || leb targetPrice zero) = false).
    { destruct mode; simpl; [reflexivity |]. apply Hv, Htgt. reflexivity. }
    rewrite Ht.
    assert (Hz : forall b, isNaN (S754_zero b) || ltb (S754_zero b) zero = false).
    { intros []; reflexivity. }
    rewrite !Hz. cbn [orb negb]. reflexivity.
  - rewrite H3, H4, H5. cbn [el_riskReward render].
    repeat split; try assumption; try reflexivity.
    rewrite H5. reflexivity.
Qed.

(** The hypotheses of [zero_percent_levels] hold at price 100 and
    quantity 10. *)
Lemma zero_percent_levels_witness :
  exists lv d,
    calculateTradeLevels (ofZ 4) current (ofZ 100) S754_nan (ofZ 10)
      (ofZ 0) (ofZ 0) = (noErrors, Some (lv, d)) /\
    basePrice lv = ofZ 100 /\
    tpPrice lv = basePrice lv /\
    slPrice lv = basePrice lv /\
    maxProfit lv = S754_zero false /\
    maxLoss lv = S754_zero false /\
    div (maxProfit lv) (maxLoss lv) = S754_nan /\
    ratio lv = "NaN" /\
    el_riskReward d = "1:NaN".
Proof.
  apply (zero_percent_levels (ofZ 4) current (ofZ 100) S754_nan (ofZ 10)
           (ofZ 0) (ofZ 0)).
  - reflexivity.
  - discriminate.
  - reflexivity.
  - reflexivity.
  - reflexivity.
Defined.

(** C8 as stated fails: at price 100, quantity 10 and both percentages
    zero the maximum loss is 0, the ratio is computed as 0 / 0, and the
    text shown is "1:NaN": no fallback replaces the NaN.  (And a price
    that parses to [Infinity] is accepted as positive, after which the
    maximum profit is NaN rather than 0.) *)
Lemma zero_percent_ratio_not_defined :
  (exists lv d,
     calculateTradeLevels (ofZ 4) current (ofZ 100) S754_nan (ofZ 10)
       (ofZ 0) (ofZ 0) = (noErrors, Some (lv, d)) /\
     isZero (maxLoss lv) = true /\
     div (maxProfit lv) (maxLoss lv) = S754_nan /\
     nonNumericText (ratio lv) = true /\
     el_riskReward d = "1:NaN") /\
  (exists lv d,
     calculateTradeLevels (ofZ 4) current (S754_infinity false) S754_nan (ofZ 10)
       (ofZ 0) (ofZ 0) = (noErrors, Some (lv, d)) /\
     maxProfit lv = S754_nan).
Proof.
  split; eexists _, _; (split; [reflexivity |]);
    repeat split; vm_compute; reflexivity.
Qed.

(** The operations of the model agree with the machine's binary64
    arithmetic on the worked example: 100 * (1 + 10 / 100) is
    110.00000000000001 in both, and so are the profit and the ratio. *)
Example machine_floats_agree :
  Prim2SF (100 * (1 + 10 / 100))%float
  = mul (ofZ 100) (add one (div (ofZ 10) hundred)) /\
  Prim2SF ((100 * (1 + 10 / 100) - 100) * 10)%float
  = S754_finite false 7036874417766410 (-46) /\
  Prim2SF (((100 * (1 + 10 / 100) - 100) * 10)
           / ((100 - 100 * (1 - 5 / 100)) * 10))%float
  = div (S754_finite false 7036874417766410 (-46)) (ofZ 50) /\
  Prim2SF (0 / 0)%float = S754_nan.
Proof. repeat split; vm_compute; reflexivity. Qed.

End TradeMathFacts.

(* ===================================================================== *)
(** * Shared tactics *)
(* ===================================================================== *)

Ltac state_simpl :=
  cbn [tabs activeTabId calculationMode autoPriceEnabled isLoadingTabState
       saveDebounceTimer autoFetchIntervalId draggedTabId symbolDebounceTimer
       form formDefaults localStorage timeouts intervals nextTimerId
       intervalLog network alerts
       with_tabs with_activeTabId with_calculationMode with_autoPriceEnabled
       with_isLoadingTabState with_saveDebounceTimer with_autoFetchIntervalId
       with_draggedTabId with_symbolDebounceTimer with_form with_formDefaults
       with_localStorage with_timeouts with_intervals with_nextTimerId
       with_intervalLog with_network with_alerts
       with_stockPrice with_entryPrice with_stockSymbol
       Storage.stockTabs Storage.activeTabId Storage.stockPrice
       fst snd] in *.

Ltac decide_by_computation :=
  apply (bool_decide_unpack _); vm_compute; exact I.

(* ===================================================================== *)
(** * Arrays: [findIndex], [find], [splice] and [moveTo] *)
(* ===================================================================== *)

Lemma findIndex_cases (tabId : string) (l : list Tab.t) :
  (findIndex tabId l = -1 /\ find tabId l = None /\
   Forall (fun t => Tab.id t ≠ tabId) l) \/
  (exists i t, findIndex tabId l = Z.of_nat i /\ find tabId l = Some t /\
               list_find (fun t => Tab.id t = tabId) l = Some (i, t) /\
               l !! i = Some t /\ Tab.id t = tabId).
Proof.
  unfold findIndex, find.
  destruct (list_find _ l) as [[i t] |] eqn:Hf.
  - right. exists i, t. apply list_find_Some in Hf as Hf'.
    destruct Hf' as (Hi & Hid & _). auto.
  - left. apply list_find_None in Hf. auto.
Qed.

Lemma findIndex_absent (tabId : string) (l : list Tab.t) :
  tabId ∉ map Tab.id l -> findIndex tabId l = -1 /\ find tabId l = None.
Proof.
  intros Hnot. destruct (findIndex_cases tabId l) as [(H1 & H2 & _) | (i & t & _ & _ & _ & Hi & Hid)].
  - auto.
  - exfalso. apply Hnot. apply list_elem_of_fmap. exists t. split; [auto |].
    apply list_elem_of_lookup. eauto.
Qed.

Lemma findIndex_present (tabId : string) (l : list Tab.t) :
  tabId ∈ map Tab.id l ->
  exists i t, findIndex tabId l = Z.of_nat i /\ find tabId l = Some t /\
              list_find (fun t => Tab.id t = tabId) l = Some (i, t) /\
              l !! i = Some t /\ Tab.id t = tabId.
Proof.
  intros Hin. destruct (findIndex_cases tabId l) as [(_ & _ & Hall) | H]; [| exact H].
  exfalso. apply list_elem_of_fmap in Hin as (t & Hid & Ht).
  rewrite Forall_forall in Hall. apply (Hall t Ht). auto.
Qed.

Lemma findIndex_lookup (tabId : string) (l : list Tab.t) (i : nat) :
  findIndex tabId l = Z.of_nat i ->
  exists x, l !! i = Some x /\ Tab.id x = tabId.
Proof.
  intros H. destruct (findIndex_cases tabId l) as [(H1 & _) | (i' & t & H1 & _ & _ & H2 & H3)].
  - lia.
  - assert (i' = i) as -> by lia. eauto.
Qed.

Lemma spliceStart_index {A} (l : list A) (i : nat) :
  (i <= length l)%nat -> spliceStart l (Z.of_nat i) = i.
Proof.
  intros Hi. unfold spliceStart.
  destruct (Z.ltb_spec (Z.of_nat i) 0); lia.
Qed.

(** Removing the element at a valid index. *)
Lemma splice_remove {A} (l : list A) (i : nat) (x : A) :
  l !! i = Some x ->
  splice l (Z.of_nat i) 1 [] = (delete i l, [x]).
Proof.
  intros Hx. pose proof (lookup_lt_Some _ _ _ Hx) as Hlt.
  unfold splice. rewrite spliceStart_index by lia.
  rewrite delete_take_drop. replace (i + 1)%nat with (S i) by lia.
  rewrite (drop_S _ _ _ Hx). reflexivity.
Qed.

(** [splice(-1, 1)] removes the last element. *)
Lemma splice_minus_one {A} (l : list A) :
  fst (splice l (-1) 1 []) = take (length l - 1) l.
Proof.
  unfold splice, spliceStart. cbn [fst app].
  replace (Z.to_nat (Z.max (Z.of_nat (length l) + -1) 0)) with (length l - 1)%nat by lia.
  destruct (Z.ltb_spec (-1) 0); [| lia].
  rewrite drop_ge; [apply app_nil_r |].
  destruct l; simpl; lia.
Qed.

(** Inserting one element at an index within the array. *)
Lemma splice_insert {A} (l : list A) (j : nat) (x : A) :
  (j <= length l)%nat ->
  fst (splice l (Z.of_nat j) 0 [x]) = take j l ++ x :: drop j l.
Proof.
  intros Hj. unfold splice. rewrite spliceStart_index by lia.
  rewrite Nat.add_0_r. reflexivity.
Qed.

Lemma moveTo_length_rest {A} (l : list A) (i j : nat) (x : A) :
  l !! i = Some x -> (j < length l)%nat -> (j <= length (delete i l))%nat.
Proof. intros Hi Hj. rewrite length_delete by eauto. lia. Qed.

Lemma moveTo_at_target {A} (l : list A) (i j : nat) (x : A) :
  l !! i = Some x -> (j < length l)%nat -> moveTo l i j x !! j = Some x.
Proof.
  intros Hi Hj. apply list_lookup_middle. rewrite length_take_le; [reflexivity |].
  eapply moveTo_length_rest; eassumption.
Qed.

Lemma moveTo_delete {A} (l : list A) (i j : nat) (x : A) :
  l !! i = Some x -> (j < length l)%nat -> delete j (moveTo l i j x) = delete i l.
Proof.
  intros Hi Hj. unfold moveTo. rewrite delete_take_drop.
  pose proof (moveTo_length_rest l i j x Hi Hj) as Hle.
  rewrite take_app_length' by (rewrite length_take_le; lia).
  replace (S j) with (j + 1)%nat by lia.
  rewrite (drop_app_add' _ _ j 1) by (rewrite length_take_le; lia).
  change (drop 1 (x :: drop j (delete i l))) with (drop j (delete i l)).
  apply take_drop.
Qed.

Lemma moveTo_Permutation {A} (l : list A) (i j : nat) (x : A) :
  l !! i = Some x -> moveTo l i j x ≡ₚ l.
Proof.
  intros Hi. unfold moveTo. rewrite <- Permutation_middle, take_drop.
  symmetry. apply delete_Permutation, Hi.
Qed.

Lemma moveTo_target_after {A} (l : list A) (i j : nat) (x : A) :
  l !! i = Some x -> (j < length l)%nat -> (j < i)%nat ->
  moveTo l i j x !! S j = l !! j.
Proof.
  intros Hi Hj Hlt. unfold moveTo.
  pose proof (moveTo_length_rest l i j x Hi Hj) as Hle.
  rewrite lookup_app_r by (rewrite length_take_le; lia).
  rewrite length_take_le by lia.
  replace (S j - j)%nat with 1%nat by lia.
  change (drop j (delete i l) !! 0%nat = l !! j).
  rewrite lookup_drop, Nat.add_0_r. apply list_lookup_delete_lt, Hlt.
Qed.

Lemma moveTo_target_before {A} (l : list A) (i j : nat) (x : A) :
  l !! i = Some x -> (j < length l)%nat -> (i < j)%nat ->
  moveTo l i j x !! (j - 1)%nat = l !! j.
Proof.
  intros Hi Hj Hlt. unfold moveTo.
  pose proof (moveTo_length_rest l i j x Hi Hj) as Hle.
  rewrite lookup_app_l by (rewrite length_take_le; lia).
  rewrite lookup_take_lt by lia.
  rewrite list_lookup_delete_ge by lia. f_equal. lia.
Qed.

Lemma moveTo_same_index {A} (l : list A) (i : nat) (x : A) :
  l !! i = Some x -> moveTo l i i x = l.
Proof.
  intros Hx. pose proof (lookup_lt_Some _ _ _ Hx) as Hlt. unfold moveTo.
  rewrite delete_take_drop.
  rewrite take_app_length' by (rewrite length_take_le; lia).
  rewrite drop_app_length' by (rewrite length_take_le; lia).
  apply take_drop_middle, Hx.
Qed.

Lemma elem_of_delete_other {A} (l : list A) (i : nat) (x y : A) :
  l !! i = Some y -> x ∈ l -> x ≠ y -> x ∈ delete i l.
Proof.
  intros Hy Hx Hne. rewrite (delete_Permutation _ _ _ Hy) in Hx.
  apply elem_of_cons in Hx as [-> | Hx]; [contradiction | exact Hx].
Qed.

(* ===================================================================== *)
(** * Strings: [trim] and [toUpperCase] *)
(* ===================================================================== *)

Lemma nonEmpty_toUpperCase (x : string) : nonEmpty (toUpperCase x) = nonEmpty x.
Proof. destruct x; reflexivity. Qed.

Lemma trimStart_suffix (l : list ascii) : exists p, l = p ++ trimStart l.
Proof.
  induction l as [| c r [p IH]]; [exists []; reflexivity |].
  cbn [trimStart]. destruct (isSpace c).
  - exists (c :: p). cbn. congruence.
  - exists []. reflexivity.
Qed.

Lemma trimStart_fixed (l : list ascii) :
  trimStart l = l <-> match l with c :: _ => isSpace c = false | [] => True end.
Proof.
  destruct l as [| c r]; [split; auto |]. cbn [trimStart].
  destruct (isSpace c) eqn:E; split; auto; try discriminate.
  intros H. destruct (trimStart_suffix r) as [p Hp].
  assert (Hlen : length (trimStart r) = length (c :: r)) by congruence.
  rewrite Hp in Hlen at 2. cbn in Hlen. rewrite length_app in Hlen. lia.
Qed.

Lemma trimStart_head (l : list ascii) :
  match trimStart l with c :: _ => isSpace c = false | [] => True end.
Proof.
  induction l as [| c r IH]; [exact I |]. cbn [trimStart].
  destruct (isSpace c) eqn:E; [exact IH | exact E].
Qed.

Lemma trimStart_idempotent (l : list ascii) : trimStart (trimStart l) = trimStart l.
Proof. apply trimStart_fixed, trimStart_head. Qed.

Lemma trim_idempotent (x : string) : trim (trim x) = trim x.
Proof.
  unfold trim. rewrite list_ascii_of_string_of_list_ascii.
  set (l1 := trimStart (list_ascii_of_string x)).
  set (l2 := rev (trimStart (rev l1))).
  assert (Hfix : trimStart l2 = l2).
  { apply trimStart_fixed. subst l2.
    destruct (trimStart_suffix (rev l1)) as [p Hp].
    assert (Hl1 : l1 = rev (trimStart (rev l1)) ++ rev p).
    { rewrite <- rev_app_distr, <- Hp, rev_involutive. reflexivity. }
    pose proof (trimStart_head (list_ascii_of_string x)) as Hhead.
    fold l1 in Hhead.
    destruct (rev (trimStart (rev l1))) as [| c r] eqn:E; [exact I |].
    rewrite Hl1 in Hhead. exact Hhead. }
  rewrite Hfix. subst l2. rewrite rev_involutive, trimStart_idempotent.
  reflexivity.
Qed.

(* ===================================================================== *)
(** * Properties of the quote cache *)
(* ===================================================================== *)

Lemma stockPrice_removeStockPrice (symbol : string) (s : State) :
  Storage.stockPrice (localStorage (removeStockPrice symbol s))
  = delete symbol (Storage.stockPrice (localStorage s)).
Proof. reflexivity. Qed.

(** C10: reading a stored entry returns it exactly when its age is below
    the freshness window, and then leaves the state alone; reading a stale
    entry returns [null] and removes that entry (and nothing else) from
    storage; reading an absent key returns [null] and changes nothing. *)
Theorem getCachedPrice_fresh_or_evicted (now : Z) (symbol : string)
    (s : State) (entry : option Quote.t) :
  Storage.stockPrice (localStorage s) !! symbol = entry ->
  let r := getCachedPrice now symbol s in
  match entry with
  | None => r = (None, s)
  | Some data =>
      (fst r = Some data <-> now - Quote.timestamp data < PRICE_CACHE_DURATION) /\
      (now - Quote.timestamp data < PRICE_CACHE_DURATION -> r = (Some data, s)) /\
      (PRICE_CACHE_DURATION <= now - Quote.timestamp data ->
         fst r = None /\
         snd r = with_stockPrice
                   (delete symbol (Storage.stockPrice (localStorage s))) s /\
         Storage.stockPrice (localStorage (snd r)) !! symbol = None /\
         forall other, other ≠ symbol ->
           Storage.stockPrice (localStorage (snd r)) !! other
           = Storage.stockPrice (localStorage s) !! other)
  end.
Proof.
  intros Hentry r. subst r. unfold getCachedPrice. rewrite Hentry.
  destruct entry as [data |]; [| reflexivity].
  destruct (Z.ltb_spec (now - Quote.timestamp data) PRICE_CACHE_DURATION) as [Hlt | Hge].
  - split; [| split].
    + split; [intros _; exact Hlt | reflexivity].
    + reflexivity.
    + intros Hle. lia.
  - split; [| split].
    + split; [discriminate | intros Hlt; lia].
    + intros Hlt. lia.
    + intros _. cbn [fst snd]. rewrite stockPrice_removeStockPrice.
      repeat split.
      * apply lookup_delete_eq.
      * intros other Hne. apply lookup_delete_ne. congruence.
Qed.

(** An entry written 30 s before the read is returned. *)
Lemma getCachedPrice_fresh_or_evicted_witness :
  (fst (getCachedPrice 31000 "AAPL" storeWithQuote) = Some appleQuote
   <-> 31000 - Quote.timestamp appleQuote < PRICE_CACHE_DURATION) /\
  (31000 - Quote.timestamp appleQuote < PRICE_CACHE_DURATION ->
   getCachedPrice 31000 "AAPL" storeWithQuote = (Some appleQuote, storeWithQuote)) /\
  (PRICE_CACHE_DURATION <= 31000 - Quote.timestamp appleQuote ->
     fst (getCachedPrice 31000 "AAPL" storeWithQuote) = None /\
     snd (getCachedPrice 31000 "AAPL" storeWithQuote)
     = with_stockPrice
         (delete "AAPL" (Storage.stockPrice (localStorage storeWithQuote)))
         storeWithQuote /\
     Storage.stockPrice
       (localStorage (snd (getCachedPrice 31000 "AAPL" storeWithQuote))) !! "AAPL"
     = None /\
     forall other, other ≠ "AAPL" ->
       Storage.stockPrice
         (localStorage (snd (getCachedPrice 31000 "AAPL" storeWithQuote))) !! other
       = Storage.stockPrice (localStorage storeWithQuote) !! other).
Proof.
  apply (getCachedPrice_fresh_or_evicted 31000 "AAPL" storeWithQuote
           (Some appleQuote)).
  reflexivity.
Defined.

(** What [cachePrice] stores at time [t0] is served until the window has
    elapsed, and evicted by the first read after that. *)
Lemma cachePrice_then_getCachedPrice (t0 now : Z) (symbol : string)
    (price : Number) (pc prev op hi lo vol w52h w52l : option Number) (s : State) :
  let s1 := cachePrice t0 symbol price pc prev op hi lo vol w52h w52l s in
  (now - t0 < PRICE_CACHE_DURATION ->
     exists data, getCachedPrice now symbol s1 = (Some data, s1) /\
                  Quote.price data = jsonNumber price /\
                  Quote.timestamp data = t0) /\
  (PRICE_CACHE_DURATION <= now - t0 ->
     fst (getCachedPrice now symbol s1) = None /\
     Storage.stockPrice (localStorage (snd (getCachedPrice now symbol s1))) !! symbol
     = None).
Proof.
  intros s1. subst s1. unfold getCachedPrice, cachePrice. state_simpl.
  rewrite lookup_insert_eq. cbn [Quote.timestamp].
  destruct (Z.ltb_spec (now - t0) PRICE_CACHE_DURATION) as [Hlt | Hge]; split;
    try (intros; lia).
  - intros _. eexists. split; [reflexivity |]. split; reflexivity.
  - intros _. state_simpl. split; [reflexivity |].
    rewrite stockPrice_removeStockPrice. apply lookup_delete_eq.
Qed.

(* ===================================================================== *)
(** * What each function leaves alone *)
(* ===================================================================== *)

Lemma pollerUntouched_refl (s : State) : pollerUntouched s s.
Proof. repeat split. lia. Qed.

Lemma pollerUntouched_trans (s1 s2 s3 : State) :
  pollerUntouched s1 s2 -> pollerUntouched s2 s3 -> pollerUntouched s1 s3.
Proof.
  intros (A1 & A2 & A3 & A4) (B1 & B2 & B3 & B4).
  repeat split; try congruence. lia.
Qed.

Lemma pollerUntouched_consistent (s s' : State) :
  pollerUntouched s s' -> pollerConsistent s -> pollerConsistent s'.
Proof.
  intros (H1 & H2 & _ & H4) [Hlive Hold]. split.
  - intros h Hh. rewrite H1, H2 in *. apply Hlive, Hh.
  - intros h Hh. rewrite H1 in Hh. specialize (Hold h Hh). lia.
Qed.

Lemma pollerConsistent_idle (s : State) :
  autoFetchIntervalId s = None -> intervals s = [] -> pollerConsistent s.
Proof.
  intros Hid Hlive. split.
  - intros h Hh. rewrite Hlive in Hh. inversion Hh.
  - intros h Hh. congruence.
Qed.

Lemma pollerConsistent_started (s s' : State) :
  autoFetchIntervalId s' = Some (nextTimerId s) ->
  intervals s' = [nextTimerId s] ->
  nextTimerId s' = Pos.succ (nextTimerId s) ->
  pollerConsistent s'.
Proof.
  intros Hid Hlive Hnext. split.
  - intros h Hh. rewrite Hlive in Hh. apply list_elem_of_singleton in Hh. subst h.
    auto.
  - intros h Hh. rewrite Hid in Hh. injection Hh as <-. rewrite Hnext. lia.
Qed.

Lemma findActive_elem (s : State) (t : Tab.t) :
  findActive s = Some t -> t ∈ tabs s.
Proof.
  unfold findActive, find. destruct (activeTabId s) as [a |]; [| discriminate].
  destruct (list_find _ (tabs s)) as [[i t0] |] eqn:Hf; [| discriminate].
  cbn. intros [= ->]. apply list_find_Some in Hf as (Hi & _).
  apply list_elem_of_lookup. eauto.
Qed.

Lemma hasAutoPrice_inv (s : State) :
  hasAutoPrice s = true ->
  exists t, findActive s = Some t /\ Tab.autoPriceEnabled t = true /\
            nonEmpty (Tab.stockSymbol t) = true.
Proof.
  unfold hasAutoPrice. destruct (findActive s) as [t |]; [| discriminate].
  intros H. apply andb_prop in H as [H1 H2]. eauto.
Qed.

Lemma hasAutoPrice_ext (s s' : State) :
  tabs s' = tabs s -> activeTabId s' = activeTabId s ->
  hasAutoPrice s' = hasAutoPrice s /\ findActive s' = findActive s.
Proof.
  intros Ht Ha. unfold hasAutoPrice, findActive. rewrite Ht, Ha. auto.
Qed.

Lemma loadTabState_frame (tabId : string) (s : State) :
  tabs (loadTabState tabId s) = tabs s /\
  activeTabId (loadTabState tabId s) = activeTabId s /\
  localStorage (loadTabState tabId s) = localStorage s /\
  autoFetchIntervalId (loadTabState tabId s) = autoFetchIntervalId s /\
  intervals (loadTabState tabId s) = intervals s /\
  intervalLog (loadTabState tabId s) = intervalLog s /\
  network (loadTabState tabId s) = network s /\
  alerts (loadTabState tabId s) = alerts s.
Proof.
  unfold loadTabState. destruct (find tabId (tabs s)) as [tab |]; [| repeat split].
  unfold setTimeout.
  destruct (Bool.eqb _ _); destruct (Tab.calculationMode tab); repeat split.
Qed.

Lemma loadTabState_pollerUntouched (tabId : string) (s : State) :
  pollerUntouched s (loadTabState tabId s).
Proof.
  unfold loadTabState, pollerUntouched.
  destruct (find tabId (tabs s)) as [tab |]; [| repeat split; lia].
  unfold setTimeout.
  destruct (Bool.eqb _ _); destruct (Tab.calculationMode tab);
    repeat split; cbn; lia.
Qed.

Lemma fetchPriceForActiveTab_frame (s : State) :
  tabs (fetchPriceForActiveTab s) = tabs s /\
  activeTabId (fetchPriceForActiveTab s) = activeTabId s /\
  localStorage (fetchPriceForActiveTab s) = localStorage s /\
  form (fetchPriceForActiveTab s) = form s /\
  autoFetchIntervalId (fetchPriceForActiveTab s) = autoFetchIntervalId s /\
  intervals (fetchPriceForActiveTab s) = intervals s /\
  intervalLog (fetchPriceForActiveTab s) = intervalLog s /\
  nextTimerId (fetchPriceForActiveTab s) = nextTimerId s /\
  alerts (fetchPriceForActiveTab s) = alerts s.
Proof.
  unfold fetchPriceForActiveTab.
  destruct (findActive s) as [t |]; [| repeat split].
  destruct (negb _ || negb _); [repeat split |].
  destruct (negb _); repeat split.
Qed.

Lemma checkAutoFetchInterval_cases (s : State) :
  checkAutoFetchInterval s
  = match hasAutoPrice s, autoFetchIntervalId s with
    | true, _ => startAutoFetchInterval s
    | false, Some _ => stopAutoFetchInterval s
    | false, None => s
    end.
Proof.
  unfold checkAutoFetchInterval.
  destruct (hasAutoPrice s), (autoFetchIntervalId s) as [h |];
    cbn [andb negb];
    try rewrite (bool_decide_eq_true_2 _ (mk_is_Some _ _ eq_refl));
    try rewrite (bool_decide_eq_false_2 (is_Some None) (is_Some_None (A := positive)));
    reflexivity.
Qed.

Lemma checkAutoFetchInterval_frame (s : State) :
  tabs (checkAutoFetchInterval s) = tabs s /\
  activeTabId (checkAutoFetchInterval s) = activeTabId s /\
  localStorage (checkAutoFetchInterval s) = localStorage s /\
  form (checkAutoFetchInterval s) = form s /\
  alerts (checkAutoFetchInterval s) = alerts s.
Proof.
  assert (Hstart : tabs (startAutoFetchInterval s) = tabs s /\
                   activeTabId (startAutoFetchInterval s) = activeTabId s /\
                   localStorage (startAutoFetchInterval s) = localStorage s /\
                   form (startAutoFetchInterval s) = form s /\
                   alerts (startAutoFetchInterval s) = alerts s).
  { unfold startAutoFetchInterval.
    set (s1 := match autoFetchIntervalId s with
               | Some h => clearInterval h s | None => s end).
    assert (H1 : tabs s1 = tabs s /\ activeTabId s1 = activeTabId s /\
                 localStorage s1 = localStorage s /\ form s1 = form s /\
                 alerts s1 = alerts s).
    { subst s1. destruct (autoFetchIntervalId s); repeat split. }
    destruct (hasAutoPrice s1); [| exact H1].
    unfold setInterval. state_simpl.
    destruct (fetchPriceForActiveTab_frame s1) as (F1 & F2 & F3 & F4 & _ & _ & _ & _ & F9).
    destruct H1 as (G1 & G2 & G3 & G4 & G5).
    rewrite F1, F2, F3, F4, F9. auto. }
  assert (Hstop : tabs (stopAutoFetchInterval s) = tabs s /\
                  activeTabId (stopAutoFetchInterval s) = activeTabId s /\
                  localStorage (stopAutoFetchInterval s) = localStorage s /\
                  form (stopAutoFetchInterval s) = form s /\
                  alerts (stopAutoFetchInterval s) = alerts s).
  { unfold stopAutoFetchInterval. destruct (autoFetchIntervalId s); repeat split. }
  unfold checkAutoFetchInterval.
  destruct (hasAutoPrice s), (bool_decide _); cbn [andb negb]; auto.
Qed.

Lemma checkAutoFetchInterval_frame_ui (s : State) :
  autoPriceEnabled (checkAutoFetchInterval s) = autoPriceEnabled s /\
  calculationMode (checkAutoFetchInterval s) = calculationMode s /\
  isLoadingTabState (checkAutoFetchInterval s) = isLoadingTabState s /\
  timeouts (checkAutoFetchInterval s) = timeouts s /\
  saveDebounceTimer (checkAutoFetchInterval s) = saveDebounceTimer s.
Proof.
  assert (Hfetch : forall s0,
            autoPriceEnabled (fetchPriceForActiveTab s0) = autoPriceEnabled s0 /\
            calculationMode (fetchPriceForActiveTab s0) = calculationMode s0 /\
            isLoadingTabState (fetchPriceForActiveTab s0) = isLoadingTabState s0 /\
            timeouts (fetchPriceForActiveTab s0) = timeouts s0 /\
            saveDebounceTimer (fetchPriceForActiveTab s0) = saveDebounceTimer s0).
  { intros s0. unfold fetchPriceForActiveTab.
    destruct (findActive s0) as [t |]; [| repeat split].
    destruct (negb _ || negb _); [repeat split |].
    destruct (negb _); repeat split. }
  rewrite checkAutoFetchInterval_cases.
  destruct (hasAutoPrice s).
  - unfold startAutoFetchInterval.
    set (s1 := match autoFetchIntervalId s with
               | Some h => clearInterval h s | None => s end).
    assert (H1 : autoPriceEnabled s1 = autoPriceEnabled s /\
                 calculationMode s1 = calculationMode s /\
                 isLoadingTabState s1 = isLoadingTabState s /\
                 timeouts s1 = timeouts s /\
                 saveDebounceTimer s1 = saveDebounceTimer s).
    { subst s1. destruct (autoFetchIntervalId s); repeat split. }
    destruct (hasAutoPrice s1); [| exact H1].
    unfold setInterval. state_simpl.
    destruct (Hfetch s1) as (F1 & F2 & F3 & F4 & F5).
    destruct H1 as (G1 & G2 & G3 & G4 & G5).
    rewrite F1, F2, F3, F4, F5. auto.
  - unfold stopAutoFetchInterval. destruct (autoFetchIntervalId s); repeat split.
Qed.

Lemma ids_saveCurrentTabState (s : State) :
  ids (saveCurrentTabState s) = ids s /\
  activeTabId (saveCurrentTabState s) = activeTabId s.
Proof.
  unfold saveCurrentTabState, ids.
  destruct (isLoadingTabState s); [auto |].
  destruct (activeTabId s) as [a |] eqn:Ha; [| auto].
  destruct (list_find _ (tabs s)) as [[i tab] |] eqn:Hf; [| rewrite Ha; auto].
  apply list_find_Some in Hf as (Hi & _ & _).
  unfold renderTabs, saveTabsToStorage. state_simpl. split; [| exact Ha].
  change (map Tab.id ?l) with (Tab.id <$> l).
  rewrite list_fmap_insert. cbn [Tab.id].
  apply list_insert_id. rewrite list_lookup_fmap, Hi. reflexivity.
Qed.

Lemma saveCurrentTabState_pollerUntouched (s : State) :
  pollerUntouched s (saveCurrentTabState s) /\
  network (saveCurrentTabState s) = network s.
Proof.
  unfold saveCurrentTabState, pollerUntouched.
  destruct (isLoadingTabState s); [repeat split; lia |].
  destruct (activeTabId s) as [a |]; [| repeat split; lia].
  destruct (list_find _ (tabs s)) as [[i tab] |]; repeat split; cbn; lia.
Qed.

Lemma saveCurrentTabState_symbolsTrimmed (s : State) :
  symbolsTrimmed s -> symbolsTrimmed (saveCurrentTabState s).
Proof.
  intros H. unfold saveCurrentTabState.
  destruct (isLoadingTabState s); [exact H |].
  destruct (activeTabId s) as [a |]; [| exact H].
  destruct (list_find _ (tabs s)) as [[i tab] |]; [| exact H].
  unfold symbolsTrimmed, renderTabs, saveTabsToStorage in *. state_simpl.
  apply Forall_insert; [exact H |]. cbn [Tab.stockSymbol]. apply trim_idempotent.
Qed.

Lemma debouncedSaveTabState_frame (s : State) :
  pollerUntouched s (debouncedSaveTabState s) /\
  tabs (debouncedSaveTabState s) = tabs s /\
  activeTabId (debouncedSaveTabState s) = activeTabId s /\
  localStorage (debouncedSaveTabState s) = localStorage s /\
  form (debouncedSaveTabState s) = form s /\
  network (debouncedSaveTabState s) = network s.
Proof.
  unfold debouncedSaveTabState, pollerUntouched.
  destruct (isLoadingTabState s); [repeat split; lia |].
  unfold setTimeout, clearTimeout.
  destruct (saveDebounceTimer s); repeat split; cbn; lia.
Qed.

Lemma fetchStockPrice_pollerUntouched (now : Z) (symbol : string) (s : State) :
  pollerUntouched s (fetchStockPrice now symbol s).
Proof.
  unfold fetchStockPrice.
  destruct (negb _ || negb _); [apply pollerUntouched_refl |].
  unfold getCachedPrice.
  destruct (Storage.stockPrice (localStorage s) !! toUpperCase symbol) as [data |].
  - destruct (now - Quote.timestamp data <? PRICE_CACHE_DURATION).
    + destruct (Quote.price data) as [price |]; [| apply pollerUntouched_refl].
      unfold onEntryPriceInput.
      eapply pollerUntouched_trans; [| apply debouncedSaveTabState_frame].
      repeat split. cbn. lia.
    + repeat split. cbn. lia.
  - repeat split. cbn. lia.
Qed.

(** Flushing the active record leaves every other record where it is. *)
Lemma find_after_flush (tabId : string) (s : State) :
  activeTabId s ≠ Some tabId ->
  find tabId (tabs (saveCurrentTabState s)) = find tabId (tabs s).
Proof.
  intros Hne. unfold saveCurrentTabState.
  destruct (isLoadingTabState s); [reflexivity |].
  destruct (activeTabId s) as [a |] eqn:Ha; [| reflexivity].
  destruct (list_find _ (tabs s)) as [[i tab] |] eqn:Hf; [| reflexivity].
  apply list_find_Some in Hf as (Hi & Hid & _).
  unfold renderTabs, saveTabsToStorage. state_simpl.
  assert (Hother : a ≠ tabId) by congruence.
  pose proof (lookup_lt_Some _ _ _ Hi) as Hlt.
  set (tab' := Tab.mk _ _ _ _ _ _ _ _ _ _ _).
  assert (Hid' : Tab.id tab' ≠ tabId) by (subst tab'; cbn; congruence).
  unfold find.
  destruct (list_find (fun t => Tab.id t = tabId) (tabs s)) as [[k t] |] eqn:Hk.
  - apply list_find_Some in Hk as (Hkt & Hkid & Hfirst).
    assert (Hki : k ≠ i) by (intros ->; congruence).
    assert (Hgoal : list_find (fun t => Tab.id t = tabId) (<[i:=tab']> (tabs s))
                    = Some (k, t)).
    { apply list_find_Some. split; [| split].
      - rewrite list_lookup_insert_ne by congruence. exact Hkt.
      - exact Hkid.
      - intros j y Hy Hjk. destruct (decide (j = i)) as [-> | Hji].
        + rewrite list_lookup_insert_eq in Hy by exact Hlt.
          injection Hy as <-. exact Hid'.
        + rewrite list_lookup_insert_ne in Hy by congruence.
          eapply Hfirst; eassumption. }
    rewrite Hgoal. reflexivity.
  - apply list_find_None in Hk.
    assert (Hgoal : list_find (fun t => Tab.id t = tabId) (<[i:=tab']> (tabs s)) = None).
    { apply list_find_None. apply Forall_insert; assumption. }
    rewrite Hgoal. reflexivity.
Qed.

(* ===================================================================== *)
(** * Form sync: the load guard *)
(* ===================================================================== *)

(** C3: while a load is in progress, [saveCurrentTabState] returns the
    state it was given, [debouncedSaveTabState] schedules nothing, and a
    debounced save that was already pending does nothing when it fires
    beyond leaving the timer table: records, active pointer, persisted
    items and form are untouched. *)
Theorem save_is_noop_while_loading (s : State) :
  isLoadingTabState s = true ->
  saveCurrentTabState s = s /\
  debouncedSaveTabState s = s /\
  forall now h,
    pendingCallback h s = Some CbSaveCurrentTabState ->
    fireTimeout now h s
    = with_timeouts (filter (fun p => fst p ≠ h) (timeouts s)) s /\
    tabs (fireTimeout now h s) = tabs s /\
    activeTabId (fireTimeout now h s) = activeTabId s /\
    localStorage (fireTimeout now h s) = localStorage s /\
    form (fireTimeout now h s) = form s.
Proof.
  intros Hload. split; [| split].
  - unfold saveCurrentTabState. rewrite Hload. reflexivity.
  - unfold debouncedSaveTabState. rewrite Hload. reflexivity.
  - intros now h Hcb. unfold fireTimeout. rewrite Hcb.
    unfold saveCurrentTabState. state_simpl. rewrite Hload.
    repeat split.
Qed.

Lemma save_is_noop_while_loading_witness :
  saveCurrentTabState loadingStore = loadingStore /\
  debouncedSaveTabState loadingStore = loadingStore /\
  forall now h,
    pendingCallback h loadingStore = Some CbSaveCurrentTabState ->
    fireTimeout now h loadingStore
    = with_timeouts (filter (fun p => fst p ≠ h) (timeouts loadingStore))
        loadingStore /\
    tabs (fireTimeout now h loadingStore) = tabs loadingStore /\
    activeTabId (fireTimeout now h loadingStore) = activeTabId loadingStore /\
    localStorage (fireTimeout now h loadingStore) = localStorage loadingStore /\
    form (fireTimeout now h loadingStore) = form loadingStore.
Proof.
  apply (save_is_noop_while_loading loadingStore).
  reflexivity.
Defined.

(** The guard matters: with the flag clear the same pending save writes
    the form into the active record. *)
Example save_writes_when_not_loading :
  Tab.stockSymbol <$>
    tabs (fireTimeout 0 1 (with_isLoadingTabState false loadingStore)) !! 0%nat
  = Some "MSFT" /\
  Tab.stockSymbol <$> tabs (fireTimeout 0 1 loadingStore) !! 0%nat = Some "AAPL".
Proof. split; reflexivity. Qed.

(* ===================================================================== *)
(** * Closing a tab *)
(* ===================================================================== *)

(** C6: with exactly one tab in the collection, [closeTab] (whatever id it
    is given, that tab's included, and whatever the user would answer)
    shows the refusal message and returns; the collection, the active
    pointer and the persisted items are unchanged: only the alert is new. *)
Theorem closeTab_sole_tab_refused (confirmAnswer : bool) (tabId : string)
    (s : State) :
  length (tabs s) = 1%nat ->
  closeTab confirmAnswer tabId s
  = Done (alert "Cannot close the last tab. At least one tab must remain open." s) /\
  tabs (stateOf (closeTab confirmAnswer tabId s)) = tabs s /\
  activeTabId (stateOf (closeTab confirmAnswer tabId s)) = activeTabId s /\
  localStorage (stateOf (closeTab confirmAnswer tabId s)) = localStorage s /\
  alerts (stateOf (closeTab confirmAnswer tabId s))
  = "Cannot close the last tab. At least one tab must remain open." :: alerts s.
Proof.
  intros Hlen. unfold closeTab. rewrite Hlen. cbn [Nat.eqb stateOf].
  repeat split.
Qed.

Lemma closeTab_sole_tab_refused_witness :
  closeTab true "a" singleTabStore
  = Done (alert "Cannot close the last tab. At least one tab must remain open."
            singleTabStore) /\
  tabs (stateOf (closeTab true "a" singleTabStore)) = tabs singleTabStore /\
  activeTabId (stateOf (closeTab true "a" singleTabStore))
  = activeTabId singleTabStore /\
  localStorage (stateOf (closeTab true "a" singleTabStore))
  = localStorage singleTabStore /\
  alerts (stateOf (closeTab true "a" singleTabStore))
  = "Cannot close the last tab. At least one tab must remain open."
    :: alerts singleTabStore.
Proof.
  apply (closeTab_sole_tab_refused true "a" singleTabStore).
  reflexivity.
Defined.

Lemma closeTab_declined (tabId : string) (s : State) (t : Tab.t) :
  length (tabs s) ≠ 1%nat ->
  find tabId (tabs s) = Some t ->
  nonEmpty (Tab.stockSymbol t) = true ->
  closeTab false tabId s = Done s.
Proof.
  intros Hlen Hfind Hsym. unfold closeTab.
  destruct (Nat.eqb_spec (length (tabs s)) 1); [contradiction |].
  rewrite Hfind, Hsym. reflexivity.
Qed.

(** A close that goes through on a tab of the collection: the record is
    deleted, the cache entry of its symbol (if it has one) is removed
    unconditionally, and the active pointer moves to the left neighbour
    when the closed tab was the active one. *)
Lemma closeTab_present (confirmAnswer : bool) (tabId : string) (s : State)
    (i : nat) (t : Tab.t) :
  length (tabs s) ≠ 1%nat ->
  list_find (fun t => Tab.id t = tabId) (tabs s) = Some (i, t) ->
  nonEmpty (Tab.stockSymbol t) = false \/ confirmAnswer = true ->
  exists s',
    closeTab confirmAnswer tabId s = Done s' /\
    tabs s' = delete i (tabs s) /\
    Storage.stockPrice (localStorage s')
    = (if nonEmpty (Tab.stockSymbol t)
       then delete (toUpperCase (Tab.stockSymbol t))
              (Storage.stockPrice (localStorage s))
       else Storage.stockPrice (localStorage s)) /\
    Storage.stockTabs (localStorage s') = Some (delete i (tabs s)) /\
    (activeTabId s ≠ Some tabId -> activeTabId s' = activeTabId s) /\
    (activeTabId s = Some tabId ->
       exists t', delete i (tabs s) !! (i - 1)%nat = Some t' /\
                  activeTabId s' = Some (Tab.id t')).
Proof.
  intros Hlen Hfind Hgo.
  pose proof Hfind as Hf. apply list_find_Some in Hf as (Hi & Hid & _).
  pose proof (lookup_lt_Some _ _ _ Hi) as Hlt.
  assert (Hfd : find tabId (tabs s) = Some t) by (unfold find; rewrite Hfind; reflexivity).
  unfold closeTab.
  destruct (Nat.eqb_spec (length (tabs s)) 1); [contradiction |].
  rewrite Hfd.
  replace (nonEmpty (Tab.stockSymbol t) && negb confirmAnswer) with false
    by (destruct Hgo as [-> | ->]; [reflexivity | rewrite andb_false_r; reflexivity]).
  set (s1 := if nonEmpty (Tab.stockSymbol t)
             then removeStockPrice (toUpperCase (Tab.stockSymbol t)) s else s).
  assert (H1 : tabs s1 = tabs s /\ activeTabId s1 = activeTabId s /\
               Storage.stockPrice (localStorage s1)
               = (if nonEmpty (Tab.stockSymbol t)
                  then delete (toUpperCase (Tab.stockSymbol t))
                         (Storage.stockPrice (localStorage s))
                  else Storage.stockPrice (localStorage s))).
  { subst s1. destruct (nonEmpty (Tab.stockSymbol t)); repeat split. }
  destruct H1 as (T1 & A1 & P1).
  assert (Hidx : findIndex tabId (tabs s1) = Z.of_nat i).
  { unfold findIndex. rewrite T1, Hfind. reflexivity. }
  rewrite Hidx. rewrite T1, (splice_remove _ _ _ Hi). cbn [fst].
  state_simpl. rewrite A1.
  destruct (bool_decide_reflect (activeTabId s = Some tabId)) as [Hact | Hact].
  - assert (Hpos : Z.to_nat (Z.max 0 (Z.of_nat i - 1)) = (i - 1)%nat) by lia.
    rewrite Hpos.
    assert (Hex : is_Some (delete i (tabs s) !! (i - 1)%nat)).
    { apply lookup_lt_is_Some. rewrite length_delete by eauto. lia. }
    destruct Hex as [t' Ht']. rewrite Ht'.
    eexists. split; [reflexivity |].
    destruct (checkAutoFetchInterval_frame
                (renderTabs (saveTabsToStorage
                   (loadTabState (Tab.id t')
                      (setItemActiveTabId
                         (with_activeTabId (Some (Tab.id t'))
                            (with_tabs (delete i (tabs s)) s1)))))))
      as (C1 & C2 & C3 & _).
    rewrite C1, C2, C3. unfold renderTabs, saveTabsToStorage. state_simpl.
    destruct (loadTabState_frame (Tab.id t')
                (setItemActiveTabId
                   (with_activeTabId (Some (Tab.id t'))
                      (with_tabs (delete i (tabs s)) s1))))
      as (L1 & L2 & L3 & _).
    rewrite L1, L2, L3. unfold setItemActiveTabId. state_simpl.
    repeat split; auto.
    + intros Hne. contradiction.
    + intros _. eauto.
  - eexists. split; [reflexivity |].
    destruct (checkAutoFetchInterval_frame
                (renderTabs (saveTabsToStorage (with_tabs (delete i (tabs s)) s1))))
      as (C1 & C2 & C3 & _).
    rewrite C1, C2, C3. unfold renderTabs, saveTabsToStorage. state_simpl.
    repeat split; auto.
    intros Heq. contradiction.
Qed.

(** [closeTab] on an id that is not in the collection (and with more
    than one tab open) removes the last tab, whichever it is, and keeps
    the pointer. *)
Lemma closeTab_unknown (confirmAnswer : bool) (tabId : string) (s : State) :
  length (tabs s) ≠ 1%nat ->
  tabId ∉ ids s ->
  activeTabId s ≠ Some tabId ->
  tabs (stateOf (closeTab confirmAnswer tabId s))
  = take (length (tabs s) - 1) (tabs s) /\
  activeTabId (stateOf (closeTab confirmAnswer tabId s)) = activeTabId s.
Proof.
  intros Hlen Hnot Hne. destruct (findIndex_absent tabId (tabs s) Hnot) as [Hidx Hfd].
  unfold closeTab.
  destruct (Nat.eqb_spec (length (tabs s)) 1); [contradiction |].
  rewrite Hfd. cbn [andb]. rewrite Hidx. state_simpl.
  rewrite bool_decide_eq_false_2 by exact Hne. cbn [stateOf].
  destruct (checkAutoFetchInterval_frame
              (renderTabs (saveTabsToStorage
                 (with_tabs (fst (splice (tabs s) (-1) 1 [])) s))))
    as (C1 & C2 & _).
  rewrite C1, C2. unfold renderTabs, saveTabsToStorage. state_simpl.
  rewrite splice_minus_one. auto.
Qed.

(** C5, as the code has it: a confirmed close of a tab with a non-empty
    symbol goes through and removes the [stockPrice_<SYMBOL>] entry of that
    symbol in every case, whether or not another remaining tab holds the
    same symbol; entries under other keys are kept and the record is
    deleted from the collection. *)
Theorem closeTab_always_evicts_symbol (tabId : string) (s : State) (t : Tab.t) :
  length (tabs s) ≠ 1%nat ->
  find tabId (tabs s) = Some t ->
  nonEmpty (Tab.stockSymbol t) = true ->
  exists s',
    closeTab true tabId s = Done s' /\
    Storage.stockPrice (localStorage s') !! toUpperCase (Tab.stockSymbol t) = None /\
    (forall other, other ≠ toUpperCase (Tab.stockSymbol t) ->
       Storage.stockPrice (localStorage s') !! other
       = Storage.stockPrice (localStorage s) !! other) /\
    exists i, tabs s !! i = Some t /\ tabs s' = delete i (tabs s).
Proof.
  intros Hlen Hfind Hsym. unfold find in Hfind.
  destruct (list_find _ (tabs s)) as [[i t0] |] eqn:Hf; [| discriminate].
  cbn in Hfind. injection Hfind as ->.
  destruct (closeTab_present true tabId s i t Hlen Hf (or_intror eq_refl))
    as (s' & Hdone & Htabs & Hprice & _).
  rewrite Hsym in Hprice.
  exists s'. split; [exact Hdone |]. rewrite Hprice.
  split; [apply lookup_delete_eq |].
  split; [intros other Hne; apply lookup_delete_ne; congruence |].
  exists i. split; [| exact Htabs].
  apply list_find_Some in Hf as (Hi & _). exact Hi.
Qed.

Lemma closeTab_always_evicts_symbol_witness :
  exists s',
    closeTab true "a" sharedSymbolStore = Done s' /\
    Storage.stockPrice (localStorage s')
      !! toUpperCase (Tab.stockSymbol (sampleTab "a" "AAPL" false)) = None /\
    (forall other,
       other ≠ toUpperCase (Tab.stockSymbol (sampleTab "a" "AAPL" false)) ->
       Storage.stockPrice (localStorage s') !! other
       = Storage.stockPrice (localStorage sharedSymbolStore) !! other) /\
    exists i, tabs sharedSymbolStore !! i = Some (sampleTab "a" "AAPL" false) /\
              tabs s' = delete i (tabs sharedSymbolStore).
Proof.
  apply (closeTab_always_evicts_symbol "a" sharedSymbolStore
           (sampleTab "a" "AAPL" false)).
  - vm_compute. discriminate.
  - reflexivity.
  - reflexivity.
Defined.

(** C5 as stated fails: tabs "a" and "b" both hold AAPL and a quote for
    AAPL is cached; after the confirmed close of "a" the remaining tab
    still holds AAPL, and the cache entry is gone. *)
Lemma closeTab_evicts_shared_symbol :
  Storage.stockPrice (localStorage sharedSymbolStore) !! "AAPL" = Some appleQuote /\
  Tab.stockSymbol <$> tabs (stateOf (closeTab true "a" sharedSymbolStore))
  = ["AAPL"] /\
  ids (stateOf (closeTab true "a" sharedSymbolStore)) = ["b"] /\
  Storage.stockPrice
    (localStorage (stateOf (closeTab true "a" sharedSymbolStore))) !! "AAPL"
  = None.
Proof. repeat split; vm_compute; reflexivity. Qed.

(* ===================================================================== *)
(** * Reordering tabs *)
(* ===================================================================== *)

Lemma reorderTabs_missing (movedId beforeId : string) (s : State) :
  findIndex movedId (tabs s) = -1 \/ findIndex beforeId (tabs s) = -1 ->
  reorderTabs movedId beforeId s = s.
Proof.
  intros [H | H]; unfold reorderTabs; rewrite H; cbn [Z.eqb orb].
  - reflexivity.
  - rewrite orb_true_r. reflexivity.
Qed.

Lemma reorderTabs_present (movedId beforeId : string) (s : State)
    (i j : nat) (x : Tab.t) :
  findIndex movedId (tabs s) = Z.of_nat i ->
  findIndex beforeId (tabs s) = Z.of_nat j ->
  tabs s !! i = Some x ->
  (j < length (tabs s))%nat ->
  reorderTabs movedId beforeId s
  = saveTabsToStorage (with_tabs (moveTo (tabs s) i j x) s).
Proof.
  intros Hi Hj Hx Hlt. unfold reorderTabs. rewrite Hi, Hj.
  replace (Z.of_nat i =? -1) with false by (symmetry; apply Z.eqb_neq; lia).
  replace (Z.of_nat j =? -1) with false by (symmetry; apply Z.eqb_neq; lia).
  cbn [orb]. rewrite (splice_remove _ _ _ Hx). cbn [take].
  rewrite splice_insert by (rewrite length_delete by eauto; lia).
  reflexivity.
Qed.

Lemma reorderTabs_Permutation (movedId beforeId : string) (s : State) :
  tabs (reorderTabs movedId beforeId s) ≡ₚ tabs s /\
  activeTabId (reorderTabs movedId beforeId s) = activeTabId s.
Proof.
  destruct (findIndex_cases movedId (tabs s)) as [(H1 & _) | (i & x & H1 & _ & _ & Hx & _)].
  { rewrite reorderTabs_missing; auto. }
  destruct (findIndex_cases beforeId (tabs s)) as [(H2 & _) | (j & y & H2 & _ & _ & Hy & _)].
  { rewrite reorderTabs_missing; auto. }
  pose proof (lookup_lt_Some _ _ _ Hy) as Hlt.
  rewrite (reorderTabs_present _ _ _ _ _ _ H1 H2 Hx Hlt).
  unfold saveTabsToStorage. state_simpl. split; [| reflexivity].
  eapply moveTo_Permutation; eassumption.
Qed.

(** Dropping a tab on itself does not reach [reorderTabs]; neither does a
    drop outside the tab strip. *)
Lemma handleDrop_on_itself (tabId : string) (s : State) :
  draggedTabId s = Some tabId ->
  handleDrop (Some tabId) s = s /\ handleDrop None s = s.
Proof.
  intros H. unfold handleDrop. rewrite H.
  rewrite bool_decide_eq_false_2 by (intros Hne; apply Hne; reflexivity).
  split; reflexivity.
Qed.

(** A drop on another tab is [reorderTabs] on the dragged and the target
    id. *)
Lemma handleDrop_on_other (draggedId dropTabId : string) (s : State) :
  draggedTabId s = Some draggedId ->
  draggedId ≠ dropTabId ->
  handleDrop (Some dropTabId) s = reorderTabs draggedId dropTabId s.
Proof.
  intros H Hne. unfold handleDrop. rewrite H.
  rewrite bool_decide_eq_true_2 by congruence. reflexivity.
Qed.

(** C9, as the code has it: [reorderTabs] removes the moved record and puts
    it back at the index the target had before the removal.  The other
    records keep their order; the target ends up right after the moved
    record when the moved record came from its right, and right before it
    when the moved record came from its left.  The active pointer is never
    changed, the new order is persisted, and nothing at all happens when an
    id is missing; with identical ids the collection is unchanged. *)
Theorem reorderTabs_moves_to_target_index (movedId beforeId : string)
    (s : State) (di dj : Z) :
  findIndex movedId (tabs s) = di ->
  findIndex beforeId (tabs s) = dj ->
  activeTabId (reorderTabs movedId beforeId s) = activeTabId s /\
  (di = -1 \/ dj = -1 -> reorderTabs movedId beforeId s = s) /\
  (movedId = beforeId -> tabs (reorderTabs movedId beforeId s) = tabs s) /\
  (forall i j : nat, di = Z.of_nat i -> dj = Z.of_nat j ->
     exists x,
       tabs s !! i = Some x /\ Tab.id x = movedId /\
       tabs (reorderTabs movedId beforeId s) = moveTo (tabs s) i j x /\
       tabs (reorderTabs movedId beforeId s) !! j = Some x /\
       delete j (tabs (reorderTabs movedId beforeId s)) = delete i (tabs s) /\
       tabs (reorderTabs movedId beforeId s) ≡ₚ tabs s /\
       ((j < i)%nat ->
          tabs (reorderTabs movedId beforeId s) !! S j = tabs s !! j) /\
       ((i < j)%nat ->
          tabs (reorderTabs movedId beforeId s) !! (j - 1)%nat = tabs s !! j) /\
       Storage.stockTabs (localStorage (reorderTabs movedId beforeId s))
       = Some (tabs (reorderTabs movedId beforeId s))).
Proof.
  intros Hdi Hdj.
  assert (Hmain : forall i j : nat, di = Z.of_nat i -> dj = Z.of_nat j ->
            exists x, tabs s !! i = Some x /\ Tab.id x = movedId /\
              (j < length (tabs s))%nat /\
              reorderTabs movedId beforeId s
              = saveTabsToStorage (with_tabs (moveTo (tabs s) i j x) s)).
  { intros i j Ei Ej. subst di dj.
    destruct (findIndex_lookup _ _ _ Ei) as (x & Hx & Hidx).
    destruct (findIndex_lookup _ _ _ Ej) as (y & Hy & _).
    pose proof (lookup_lt_Some _ _ _ Hy) as Hlt.
    exists x. repeat split; auto.
    apply (reorderTabs_present _ _ _ _ _ _ Ei Ej Hx Hlt). }
  split; [| split; [| split]].
  - destruct (findIndex_cases movedId (tabs s)) as [(H1 & _) | (i & _ & H1 & _)].
    { rewrite reorderTabs_missing; auto. }
    destruct (findIndex_cases beforeId (tabs s)) as [(H2 & _) | (j & _ & H2 & _)].
    { rewrite reorderTabs_missing; auto. }
    destruct (Hmain i j) as (x & _ & _ & _ & ->); [congruence | congruence |].
    reflexivity.
  - intros H. apply reorderTabs_missing. subst di dj. exact H.
  - intros ->.
    destruct (findIndex_cases beforeId (tabs s)) as [(H1 & _) | (i & _ & H1 & _)].
    { rewrite reorderTabs_missing; auto. }
    destruct (Hmain i i) as (x & Hx & _ & _ & ->); [congruence | congruence |].
    state_simpl. apply moveTo_same_index, Hx.
  - intros i j Ei Ej.
    destruct (Hmain i j Ei Ej) as (x & Hx & Hidx & Hlt & ->).
    exists x. unfold saveTabsToStorage. state_simpl.
    split; [exact Hx |]. split; [exact Hidx |]. split; [reflexivity |].
    split; [eapply moveTo_at_target; eassumption |].
    split; [eapply moveTo_delete; eassumption |].
    split; [eapply moveTo_Permutation; eassumption |].
    split; [eapply moveTo_target_after; eassumption |].
    split; [eapply moveTo_target_before; eassumption |].
    reflexivity.
Qed.

Lemma reorderTabs_moves_to_target_index_witness :
  activeTabId (reorderTabs "c" "a" threeTabStore) = activeTabId threeTabStore /\
  (2 = -1 \/ 0 = -1 -> reorderTabs "c" "a" threeTabStore = threeTabStore) /\
  ("c" = "a" -> tabs (reorderTabs "c" "a" threeTabStore) = tabs threeTabStore) /\
  (forall i j : nat, 2 = Z.of_nat i -> 0 = Z.of_nat j ->
     exists x,
       tabs threeTabStore !! i = Some x /\ Tab.id x = "c" /\
       tabs (reorderTabs "c" "a" threeTabStore) = moveTo (tabs threeTabStore) i j x /\
       tabs (reorderTabs "c" "a" threeTabStore) !! j = Some x /\
       delete j (tabs (reorderTabs "c" "a" threeTabStore))
       = delete i (tabs threeTabStore) /\
       tabs (reorderTabs "c" "a" threeTabStore) ≡ₚ tabs threeTabStore /\
       ((j < i)%nat ->
          tabs (reorderTabs "c" "a" threeTabStore) !! S j = tabs threeTabStore !! j) /\
       ((i < j)%nat ->
          tabs (reorderTabs "c" "a" threeTabStore) !! (j - 1)%nat
          = tabs threeTabStore !! j) /\
       Storage.stockTabs (localStorage (reorderTabs "c" "a" threeTabStore))
       = Some (tabs (reorderTabs "c" "a" threeTabStore))).
Proof.
  apply (reorderTabs_moves_to_target_index "c" "a" threeTabStore 2 0).
  - reflexivity.
  - reflexivity.
Defined.

(** C9 as stated fails: moving "a" onto "b" in [a; b; c] gives [b; a; c];
    both ids are present and distinct, yet "a" ends up after "b", not
    immediately before it. *)
Lemma reorderTabs_rightwards_lands_after_target :
  ids threeTabStore = ["a"; "b"; "c"] /\
  ids (reorderTabs "a" "b" threeTabStore) = ["b"; "a"; "c"] /\
  immediatelyBefore "a" "b" (ids (reorderTabs "a" "b" threeTabStore)) = false /\
  immediatelyBefore "b" "a" (ids (reorderTabs "a" "b" threeTabStore)) = true.
Proof. repeat split. Qed.

(* ===================================================================== *)
(** * The store invariants along sequences of operations *)
(* ===================================================================== *)

Lemma twoTabStore_valid : validStore twoTabStore.
Proof.
  split.
  - unfold uniqueIds. decide_by_computation.
  - exists "b". split; [reflexivity | decide_by_computation].
Qed.

Lemma addNewTab_validStore (now : Z) (random : string) (created : Z) (s : State) :
  validStore s ->
  generateTabId now random ∉ ids s ->
  validStore (addNewTab now random created s).
Proof.
  intros [Huniq Hact] Hfresh. unfold addNewTab.
  destruct (MAX_TABS <=? length (tabs s))%nat; [split; assumption |].
  set (s1 := if idTruthy (activeTabId s) then saveCurrentTabState s else s).
  assert (Hids : ids s1 = ids s).
  { subst s1. destruct (idTruthy _); [apply ids_saveCurrentTabState | reflexivity]. }
  unfold clearCalculatorForm, renderTabs, saveTabsToStorage.
  unfold validStore, uniqueIds, activeResolves, ids in *. state_simpl.
  rewrite map_app, Hids. cbn [map Tab.id]. split.
  - apply NoDup_app. split; [exact Huniq |]. split; [| apply NoDup_singleton].
    intros x Hx Hx'. apply list_elem_of_singleton in Hx'. subst x. contradiction.
  - eexists. split; [reflexivity |]. apply elem_of_app. right.
    apply list_elem_of_singleton. reflexivity.
Qed.

Lemma closeTab_validStore (confirmAnswer : bool) (tabId : string) (s : State) :
  validStore s ->
  tabId ∈ ids s ->
  validStore (stateOf (closeTab confirmAnswer tabId s)).
Proof.
  intros [Huniq Hact] Hin.
  destruct (Nat.eq_dec (length (tabs s)) 1%nat) as [Hone | Hlen].
  { unfold closeTab. rewrite Hone. split; assumption. }
  destruct (findIndex_present tabId (tabs s) Hin) as (i & t & _ & Hfd & Hfind & Hi & Hid).
  assert (Hcases : (nonEmpty (Tab.stockSymbol t) = true /\ confirmAnswer = false) \/
                   (nonEmpty (Tab.stockSymbol t) = false \/ confirmAnswer = true)).
  { destruct (nonEmpty (Tab.stockSymbol t)), confirmAnswer; auto. }
  destruct Hcases as [[Hsym ->] | Hgo].
  { rewrite (closeTab_declined tabId s t Hlen Hfd Hsym). split; assumption. }
  destruct (closeTab_present confirmAnswer tabId s i t Hlen Hfind Hgo)
    as (s' & -> & Htabs & _ & _ & Hkeep & Hmove).
  cbn [stateOf]. unfold validStore, uniqueIds, activeResolves, ids in *.
  rewrite Htabs. change (map Tab.id ?l) with (Tab.id <$> l) in *.
  rewrite list_fmap_delete. split.
  - eapply sublist_NoDup; [exact Huniq | apply sublist_delete].
  - destruct (decide (activeTabId s = Some tabId)) as [Heq | Hne].
    + destruct (Hmove Heq) as (t' & Ht' & ->). eexists. split; [reflexivity |].
      rewrite <- list_fmap_delete. apply list_elem_of_fmap. exists t'.
      split; [reflexivity |]. apply list_elem_of_lookup. eauto.
    + rewrite (Hkeep Hne). destruct Hact as (a & Ha & Hain).
      exists a. split; [exact Ha |].
      apply (elem_of_delete_other _ _ _ tabId).
      * rewrite list_lookup_fmap, Hi. cbn. congruence.
      * exact Hain.
      * congruence.
Qed.

Lemma reorderTabs_validStore (movedId beforeId : string) (s : State) :
  validStore s -> validStore (reorderTabs movedId beforeId s).
Proof.
  intros [Huniq Hact].
  destruct (reorderTabs_Permutation movedId beforeId s) as [Hperm Hsame].
  assert (Hids : ids (reorderTabs movedId beforeId s) ≡ₚ ids s).
  { unfold ids. change (map Tab.id ?l) with (Tab.id <$> l). rewrite Hperm. reflexivity. }
  unfold validStore, uniqueIds, activeResolves in *. rewrite Hsame. split.
  - rewrite Hids. exact Huniq.
  - destruct Hact as (a & Ha & Hin). exists a. split; [exact Ha |].
    rewrite Hids. exact Hin.
Qed.

Lemma step_validStore (o : Op) (s : State) :
  validStore s -> admissibleOp o s -> validStore (step o s).
Proof.
  intros Hv Hok. destruct o as [now random created | c tabId | m b]; cbn [step admissibleOp] in *.
  - apply addNewTab_validStore; assumption.
  - apply closeTab_validStore; assumption.
  - apply reorderTabs_validStore; assumption.
Qed.

(** C1, as the code has it: along every sequence of create, close and
    reorder operations from a valid store in which every generated id is
    new to the collection and every close names a tab of the collection,
    the ids stay pairwise distinct and the active pointer stays the id of
    a record of the collection. *)
Theorem run_preserves_validStore (ops : list Op) (s : State) :
  validStore s ->
  admissible ops s ->
  validStore (run ops s).
Proof.
  revert s. induction ops as [| o rest IH]; intros s Hv Hadm.
  - exact Hv.
  - destruct Hadm as [Hok Hrest]. cbn [run fold_left].
    apply IH; [apply step_validStore; assumption | exact Hrest].
Qed.

Lemma run_preserves_validStore_witness : validStore (run sampleOps twoTabStore).
Proof.
  apply (run_preserves_validStore sampleOps twoTabStore).
  - exact twoTabStore_valid.
  - cbn [sampleOps admissible admissibleOp]. repeat split.
    + apply (bool_decide_unpack _). vm_compute. exact I.
    + apply (bool_decide_unpack _). vm_compute. exact I.
Defined.

Example sampleOps_result :
  ids (run sampleOps twoTabStore) = ["b"; "tab_1700000000000_abc123xyz"] /\
  activeTabId (run sampleOps twoTabStore) = Some "tab_1700000000000_abc123xyz".
Proof. split; reflexivity. Qed.

(** From the valid store [a; b] with "b" active, closing the id "zzz",
    which no tab has, removes "b" and leaves the pointer on it: the
    pointer no longer names a record. *)
Lemma closeTab_unknown_id_leaves_pointer_dangling :
  validStore twoTabStore /\
  ids (run [OpClose true "zzz"] twoTabStore) = ["a"] /\
  activeTabId (run [OpClose true "zzz"] twoTabStore) = Some "b" /\
  ~ activeResolves (run [OpClose true "zzz"] twoTabStore) /\
  ~ validStore (run [OpClose true "zzz"] twoTabStore).
Proof.
  assert (Hids : ids (run [OpClose true "zzz"] twoTabStore) = ["a"]) by reflexivity.
  assert (Hact : activeTabId (run [OpClose true "zzz"] twoTabStore) = Some "b")
    by reflexivity.
  assert (Hdangling : ~ activeResolves (run [OpClose true "zzz"] twoTabStore)).
  { intros (a & Ha & Hin). rewrite Hact in Ha. injection Ha as <-.
    rewrite Hids in Hin. apply list_elem_of_singleton in Hin. discriminate. }
  split; [exact twoTabStore_valid |].
  split; [exact Hids |]. split; [exact Hact |]. split; [exact Hdangling |].
  intros [_ H]. exact (Hdangling H).
Qed.

(** C1 as stated fails, in two ways.  (1) [generateTabId] does not look at
    the collection: when the clock reading and the random string repeat,
    [addNewTab] appends a second record under an id already in use.
    (2) [closeTab] on an id that no tab has removes the last tab: from
    [a; b] with "b" active the pointer is left on the removed "b". *)
Lemma validStore_not_kept_by_every_sequence :
  (validStore collidingStore /\
   ids (run [OpCreate 1700000000000 "abc123xyz" 1700000000001] collidingStore)
   = ["tab_1700000000000_abc123xyz"; "tab_1700000000000_abc123xyz"] /\
   ~ uniqueIds (run [OpCreate 1700000000000 "abc123xyz" 1700000000001] collidingStore)) /\
  (validStore twoTabStore /\
   ids (run [OpClose true "zzz"] twoTabStore) = ["a"] /\
   activeTabId (run [OpClose true "zzz"] twoTabStore) = Some "b" /\
   ~ activeResolves (run [OpClose true "zzz"] twoTabStore)).
Proof.
  split.
  - split; [| split].
    + split.
      * unfold uniqueIds. decide_by_computation.
      * eexists. split; [reflexivity | decide_by_computation].
    + reflexivity.
    + unfold uniqueIds.
      change (ids (run [OpCreate 1700000000000 "abc123xyz" 1700000000001]
                     collidingStore))
        with ["tab_1700000000000_abc123xyz"; "tab_1700000000000_abc123xyz"].
      intros Hnd. apply NoDup_cons in Hnd as [Hnot _]. apply Hnot. left.
  - destruct closeTab_unknown_id_leaves_pointer_dangling as (H1 & H2 & H3 & H4 & _).
    auto.
Qed.

(** The bounds need no assumption: a store with at least one and at most
    20 tabs stays so under every operation, with any arguments. *)
Lemma step_keeps_bounds (o : Op) (s : State) :
  (1 <= length (tabs s) <= MAX_TABS)%nat ->
  (1 <= length (tabs (step o s)) <= MAX_TABS)%nat.
Proof.
  intros Hb. destruct o as [now random created | c tabId | m b]; cbn [step].
  - unfold addNewTab.
    destruct (Nat.leb_spec MAX_TABS (length (tabs s))); [exact Hb |].
    unfold clearCalculatorForm, renderTabs, saveTabsToStorage. state_simpl.
    rewrite length_app. cbn [length].
    assert (Hlen : length (tabs (if idTruthy (activeTabId s)
                                 then saveCurrentTabState s else s))
                   = length (tabs s)).
    { destruct (idTruthy _); [| reflexivity].
      pose proof (ids_saveCurrentTabState s) as [Hids _]. unfold ids in Hids.
      rewrite <- (length_map Tab.id), Hids, length_map. reflexivity. }
    rewrite Hlen. lia.
  - destruct (Nat.eq_dec (length (tabs s)) 1%nat) as [Hone | Hlen].
    { unfold closeTab. rewrite Hone. exact Hb. }
    destruct (decide (tabId ∈ ids s)) as [Hin | Hnot].
    + destruct (findIndex_present tabId (tabs s) Hin)
        as (i & t & _ & Hfd & Hfind & Hi & _).
      assert (Hcases : (nonEmpty (Tab.stockSymbol t) = true /\ c = false) \/
                       (nonEmpty (Tab.stockSymbol t) = false \/ c = true)).
      { destruct (nonEmpty (Tab.stockSymbol t)), c; auto. }
      destruct Hcases as [[Hsym ->] | Hgo].
      { rewrite (closeTab_declined tabId s t Hlen Hfd Hsym). exact Hb. }
      destruct (closeTab_present c tabId s i t Hlen Hfind Hgo)
        as (s' & -> & Htabs & _).
      cbn [stateOf]. rewrite Htabs, length_delete by eauto. lia.
    + assert (Hlast : length (fst (splice (tabs s) (-1) 1 []))
                      = (length (tabs s) - 1)%nat).
      { rewrite splice_minus_one, length_take_le; lia. }
      destruct (findIndex_absent tabId (tabs s) Hnot) as [Hidx Hfd].
      unfold closeTab.
      destruct (Nat.eqb_spec (length (tabs s)) 1); [contradiction |].
      rewrite Hfd. cbn [andb]. rewrite Hidx. state_simpl.
      destruct (bool_decide _).
      * destruct (_ !! _) as [t' |]; cbn [stateOf].
        -- destruct (checkAutoFetchInterval_frame
                       (renderTabs (saveTabsToStorage
                          (loadTabState (Tab.id t')
                             (setItemActiveTabId
                                (with_activeTabId (Some (Tab.id t'))
                                   (with_tabs (fst (splice (tabs s) (-1) 1 [])) s)))))))
             as (C1 & _).
           rewrite C1. unfold renderTabs, saveTabsToStorage. state_simpl.
           destruct (loadTabState_frame (Tab.id t')
                       (setItemActiveTabId
                          (with_activeTabId (Some (Tab.id t'))
                             (with_tabs (fst (splice (tabs s) (-1) 1 [])) s))))
             as (L1 & _).
           rewrite L1. unfold setItemActiveTabId. state_simpl. rewrite Hlast. lia.
        -- state_simpl. rewrite Hlast. lia.
      * cbn [stateOf].
        destruct (checkAutoFetchInterval_frame
                    (renderTabs (saveTabsToStorage
                       (with_tabs (fst (splice (tabs s) (-1) 1 [])) s))))
          as (C1 & _).
        rewrite C1. unfold renderTabs, saveTabsToStorage. state_simpl.
        rewrite Hlast. lia.
  - destruct (reorderTabs_Permutation m b s) as [Hperm _].
    rewrite Hperm. exact Hb.
Qed.

Lemma run_keeps_bounds (ops : list Op) (s : State) :
  (1 <= length (tabs s) <= MAX_TABS)%nat ->
  (1 <= length (tabs (run ops s)) <= MAX_TABS)%nat.
Proof.
  revert s. induction ops as [| o rest IH]; intros s Hb; [exact Hb |].
  cbn [run fold_left]. apply IH, step_keeps_bounds, Hb.
Qed.

(* ===================================================================== *)
(** * Switching tabs *)
(* ===================================================================== *)

Lemma switchTab_same (tabId : string) (s : State) :
  activeTabId s = Some tabId -> switchTab tabId s = s.
Proof.
  intros H. unfold switchTab. rewrite bool_decide_eq_true_2 by exact H. reflexivity.
Qed.

(** What [switchTab] does on any id other than the active one: the
    pointer and its persisted copy are set before the target is looked
    up, and the poller rule is evaluated last. *)
Lemma switchTab_other (tabId : string) (s : State) :
  activeTabId s ≠ Some tabId ->
  let flushed := if idTruthy (activeTabId s) then saveCurrentTabState s else s in
  let loaded :=
    loadTabState tabId (setItemActiveTabId (with_activeTabId (Some tabId) flushed)) in
  switchTab tabId s = checkAutoFetchInterval loaded /\
  tabs (switchTab tabId s) = tabs flushed /\
  activeTabId (switchTab tabId s) = Some tabId /\
  Storage.activeTabId (localStorage (switchTab tabId s)) = Some tabId /\
  Storage.stockTabs (localStorage (switchTab tabId s))
  = Storage.stockTabs (localStorage flushed) /\
  find tabId (tabs flushed) = find tabId (tabs s) /\
  pollerUntouched s loaded.
Proof.
  intros Hne flushed loaded. unfold switchTab.
  rewrite bool_decide_eq_false_2 by exact Hne. fold flushed.
  unfold renderTabs. fold loaded.
  destruct (checkAutoFetchInterval_frame loaded) as (C1 & C2 & C3 & _).
  rewrite C1, C2, C3.
  destruct (loadTabState_frame tabId
              (setItemActiveTabId (with_activeTabId (Some tabId) flushed)))
    as (L1 & L2 & L3 & _).
  subst loaded. rewrite L1, L2, L3. unfold setItemActiveTabId. state_simpl.
  repeat split.
  - subst flushed. destruct (idTruthy _); [apply find_after_flush, Hne | reflexivity].
  - destruct (loadTabState_pollerUntouched tabId
                (setItemActiveTabId (with_activeTabId (Some tabId) flushed)))
      as (P1 & _). unfold setItemActiveTabId in P1. state_simpl. rewrite P1.
    subst flushed. destruct (idTruthy _); [| reflexivity].
    apply saveCurrentTabState_pollerUntouched.
  - destruct (loadTabState_pollerUntouched tabId
                (setItemActiveTabId (with_activeTabId (Some tabId) flushed)))
      as (_ & P2 & _). unfold setItemActiveTabId in P2. state_simpl. rewrite P2.
    subst flushed. destruct (idTruthy _); [| reflexivity].
    apply saveCurrentTabState_pollerUntouched.
  - destruct (loadTabState_pollerUntouched tabId
                (setItemActiveTabId (with_activeTabId (Some tabId) flushed)))
      as (_ & _ & P3 & _). unfold setItemActiveTabId in P3. state_simpl. rewrite P3.
    subst flushed. destruct (idTruthy _); [| reflexivity].
    apply saveCurrentTabState_pollerUntouched.
  - destruct (loadTabState_pollerUntouched tabId
                (setItemActiveTabId (with_activeTabId (Some tabId) flushed)))
      as (_ & _ & _ & P4). unfold setItemActiveTabId in P4. state_simpl.
    etransitivity; [| exact P4].
    subst flushed. destruct (idTruthy _); [| reflexivity].
    apply saveCurrentTabState_pollerUntouched.
Qed.

(** Switching to another tab of the collection: the active record is
    flushed first (unless a load is in progress), the pointer is set and
    persisted, the target's fields are on the form, the load flag is up,
    and the poller rule has been evaluated on the new active tab. *)
Lemma switchTab_existing (tabId : string) (s : State) (t : Tab.t) :
  activeTabId s ≠ Some tabId ->
  find tabId (tabs s) = Some t ->
  activeTabId (switchTab tabId s) = Some tabId /\
  Storage.activeTabId (localStorage (switchTab tabId s)) = Some tabId /\
  tabs (switchTab tabId s)
  = tabs (if idTruthy (activeTabId s) then saveCurrentTabState s else s) /\
  form (switchTab tabId s)
  = {| Form.stockSymbol := Tab.stockSymbol t;
       Form.entryPrice := Tab.entryPrice t;
       Form.targetPrice := Tab.targetPrice t;
       Form.quantity := Tab.quantity t;
       Form.tpPercent := Tab.tpPercent t;
       Form.slPercent := Tab.slPercent t |} /\
  autoPriceEnabled (switchTab tabId s) = Tab.autoPriceEnabled t /\
  isLoadingTabState (switchTab tabId s) = true /\
  findActive (switchTab tabId s) = Some t /\
  exists s3, switchTab tabId s = checkAutoFetchInterval s3 /\
             pollerUntouched s s3 /\ findActive s3 = Some t.
Proof.
  intros Hne Hfind.
  destruct (switchTab_other tabId s Hne) as (Heq & Htabs & Hact & Hst & _ & Hkeep & Hpoll).
  set (flushed := if idTruthy (activeTabId s) then saveCurrentTabState s else s) in *.
  set (pre := setItemActiveTabId (with_activeTabId (Some tabId) flushed)) in *.
  rewrite Hfind in Hkeep.
  assert (Hload : form (loadTabState tabId pre)
                  = {| Form.stockSymbol := Tab.stockSymbol t;
                       Form.entryPrice := Tab.entryPrice t;
                       Form.targetPrice := Tab.targetPrice t;
                       Form.quantity := Tab.quantity t;
                       Form.tpPercent := Tab.tpPercent t;
                       Form.slPercent := Tab.slPercent t |} /\
                  autoPriceEnabled (loadTabState tabId pre) = Tab.autoPriceEnabled t /\
                  isLoadingTabState (loadTabState tabId pre) = true).
  { unfold loadTabState. subst pre. unfold setItemActiveTabId. state_simpl.
    rewrite Hkeep. unfold setTimeout.
    destruct (Bool.eqb (Tab.autoPriceEnabled t) (autoPriceEnabled flushed)) eqn:E;
      destruct (Tab.calculationMode t); state_simpl; repeat split;
      symmetry; apply Bool.eqb_prop, E. }
  destruct Hload as (Hform & Hauto & Hflag).
  assert (Hfa : findActive (loadTabState tabId pre) = Some t).
  { unfold findActive.
    destruct (loadTabState_frame tabId pre) as (L1 & L2 & _).
    rewrite L1, L2. subst pre. unfold setItemActiveTabId. state_simpl. exact Hkeep. }
  destruct (checkAutoFetchInterval_frame (loadTabState tabId pre)) as (C1 & C2 & _ & C4 & _).
  destruct (checkAutoFetchInterval_frame_ui (loadTabState tabId pre)) as (U1 & _ & U3 & _).
  rewrite Heq.
  split; [rewrite <- Heq; exact Hact |].
  split; [rewrite <- Heq; exact Hst |].
  split; [rewrite <- Heq; exact Htabs |].
  split; [rewrite C4; exact Hform |].
  split; [rewrite U1; exact Hauto |].
  split; [rewrite U3; exact Hflag |].
  split.
  - destruct (hasAutoPrice_ext _ _ C1 C2) as [_ ->]. exact Hfa.
  - exists (loadTabState tabId pre). auto.
Qed.

(** Switching to an id that is not in the collection still overwrites the
    pointer and its persisted copy; only the form load is skipped. *)
Lemma switchTab_unknown (tabId : string) (s : State) :
  activeTabId s ≠ Some tabId ->
  tabId ∉ ids s ->
  activeTabId (switchTab tabId s) = Some tabId /\
  Storage.activeTabId (localStorage (switchTab tabId s)) = Some tabId /\
  ids (switchTab tabId s) = ids s /\
  ~ activeResolves (switchTab tabId s).
Proof.
  intros Hne Hnot.
  destruct (switchTab_other tabId s Hne) as (_ & Htabs & Hact & Hst & _).
  assert (Hids : ids (switchTab tabId s) = ids s).
  { unfold ids. rewrite Htabs. destruct (idTruthy _); [| reflexivity].
    apply ids_saveCurrentTabState. }
  repeat split; auto.
  intros (a & Ha & Hin). rewrite Hact in Ha. injection Ha as <-.
  rewrite Hids in Hin. contradiction.
Qed.




(* ===================================================================== *)
(** * The active-tab poller *)
(* ===================================================================== *)

(** With auto-price wanted and the symbol stored trimmed, the fetch cycle
    sends one request, for the upper-cased symbol. *)
Lemma fetchPriceForActiveTab_sends (s : State) (t : Tab.t) :
  findActive s = Some t ->
  Tab.autoPriceEnabled t = true ->
  nonEmpty (Tab.stockSymbol t) = true ->
  trim (Tab.stockSymbol t) = Tab.stockSymbol t ->
  fetchPriceForActiveTab s = fetchQuote (toUpperCase (Tab.stockSymbol t)) s.
Proof.
  intros Hf Ha Hs Ht. unfold fetchPriceForActiveTab.
  rewrite Hf, Ha, Hs, Ht, nonEmpty_toUpperCase, Hs. reflexivity.
Qed.

Lemma live_intervals_cases (s : State) (h : positive) :
  pollerConsistent s ->
  autoFetchIntervalId s = Some h ->
  intervals s = [] \/ intervals s = [h].
Proof.
  intros [Hlive _] Hh. destruct (intervals s) as [| h' r] eqn:E; [auto |].
  right. destruct (Hlive h') as [H1 H2]; [left |]. congruence.
Qed.

Lemma live_intervals_idle (s : State) :
  pollerConsistent s -> autoFetchIntervalId s = None -> intervals s = [].
Proof.
  intros [Hlive _] Hnone. destruct (intervals s) as [| h' r] eqn:E; [auto |].
  destruct (Hlive h') as [_ H2]; [left |]. congruence.
Qed.

Lemma filter_out_live (s : State) (h : positive) :
  pollerConsistent s ->
  autoFetchIntervalId s = Some h ->
  filter (fun i => i ≠ h) (intervals s) = [].
Proof.
  intros Hc Hh. destruct (live_intervals_cases s h Hc Hh) as [-> | ->].
  - reflexivity.
  - rewrite filter_cons. destruct (decide (h ≠ h)); [contradiction | reflexivity].
Qed.

(** Starting from an idle poller. *)
Lemma startAutoFetchInterval_idle (s : State) (t : Tab.t) :
  autoFetchIntervalId s = None ->
  intervals s = [] ->
  findActive s = Some t ->
  Tab.autoPriceEnabled t = true ->
  nonEmpty (Tab.stockSymbol t) = true ->
  trim (Tab.stockSymbol t) = Tab.stockSymbol t ->
  startAutoFetchInterval s
  = with_autoFetchIntervalId (Some (nextTimerId s))
      (with_intervalLog ([nextTimerId s] :: intervalLog s)
         (with_nextTimerId (Pos.succ (nextTimerId s))
            (with_intervals [nextTimerId s]
               (fetchQuote (toUpperCase (Tab.stockSymbol t)) s)))).
Proof.
  intros Hid Hlive Hf Ha Hs Ht. unfold startAutoFetchInterval. rewrite Hid.
  unfold hasAutoPrice. rewrite Hf, Ha, Hs. cbn [andb].
  rewrite (fetchPriceForActiveTab_sends s t Hf Ha Hs Ht).
  unfold setInterval, fetchQuote. state_simpl. rewrite Hlive. reflexivity.
Qed.

(** Starting while an interval is running: the old one is cleared first. *)
Lemma startAutoFetchInterval_running (s : State) (h : positive) (t : Tab.t) :
  pollerConsistent s ->
  autoFetchIntervalId s = Some h ->
  findActive s = Some t ->
  Tab.autoPriceEnabled t = true ->
  nonEmpty (Tab.stockSymbol t) = true ->
  trim (Tab.stockSymbol t) = Tab.stockSymbol t ->
  startAutoFetchInterval s
  = with_autoFetchIntervalId (Some (nextTimerId s))
      (with_intervalLog ([nextTimerId s] :: [] :: intervalLog s)
         (with_nextTimerId (Pos.succ (nextTimerId s))
            (with_intervals [nextTimerId s]
               (fetchQuote (toUpperCase (Tab.stockSymbol t)) s)))).
Proof.
  intros Hc Hid Hf Ha Hs Ht. unfold startAutoFetchInterval. rewrite Hid.
  destruct (hasAutoPrice_ext s (clearInterval h s) eq_refl eq_refl) as [Hh Hfa].
  rewrite Hh. unfold hasAutoPrice. rewrite Hf, Ha, Hs. cbn [andb].
  rewrite (fetchPriceForActiveTab_sends (clearInterval h s) t)
    by (try assumption; rewrite Hfa; exact Hf).
  unfold setInterval, fetchQuote, clearInterval. state_simpl.
  rewrite (filter_out_live s h Hc Hid). reflexivity.
Qed.

Lemma stopAutoFetchInterval_running (s : State) (h : positive) :
  pollerConsistent s ->
  autoFetchIntervalId s = Some h ->
  stopAutoFetchInterval s
  = with_autoFetchIntervalId None
      (with_intervalLog ([] :: intervalLog s) (with_intervals [] s)).
Proof.
  intros Hc Hid. unfold stopAutoFetchInterval, clearInterval. rewrite Hid.
  rewrite (filter_out_live s h Hc Hid). reflexivity.
Qed.

(** The rule keeps the interval handles accounted for. *)
Lemma checkAutoFetchInterval_keeps_consistent (s : State) :
  pollerConsistent s ->
  symbolsTrimmed s ->
  pollerConsistent (checkAutoFetchInterval s).
Proof.
  intros Hc Htrim. rewrite checkAutoFetchInterval_cases.
  destruct (hasAutoPrice s) eqn:Hhas.
  - apply hasAutoPrice_inv in Hhas as (t & Hf & Ha & Hs).
    assert (Ht : trim (Tab.stockSymbol t) = Tab.stockSymbol t).
    { unfold symbolsTrimmed in Htrim. rewrite Forall_forall in Htrim.
      apply Htrim, findActive_elem, Hf. }
    destruct (autoFetchIntervalId s) as [h |] eqn:Hid.
    + rewrite (startAutoFetchInterval_running s h t Hc Hid Hf Ha Hs Ht).
      eapply pollerConsistent_started; reflexivity.
    + pose proof (live_intervals_idle s Hc Hid) as Hlive.
      rewrite (startAutoFetchInterval_idle s t Hid Hlive Hf Ha Hs Ht).
      eapply pollerConsistent_started; reflexivity.
  - destruct (autoFetchIntervalId s) as [h |] eqn:Hid; [| exact Hc].
    rewrite (stopAutoFetchInterval_running s h Hc Hid).
    split; [intros h' Hh'; inversion Hh' | intros h' Hh'; discriminate].
Qed.

(** One evaluation of the poller rule, in a store whose timer handles
    are accounted for and whose symbols are stored trimmed, as
    [saveCurrentTabState] writes them.
    - Active record with auto-price and a symbol, poller idle: the
      interval is created and the request for the record's symbol is sent
      right away.
    - No such record, poller running: the interval is cleared and nothing
      is requested.
    - Active record with auto-price and a symbol, poller running: the old
      interval is cleared, then the request for the record's symbol is
      sent and a new interval is created.
    - Otherwise nothing changes.
    After every [setInterval] and [clearInterval] call of the step, and at
    its end, at most one interval is live. *)
Theorem checkAutoFetchInterval_step (s : State) :
  pollerConsistent s ->
  symbolsTrimmed s ->
  (forall t,
     findActive s = Some t -> Tab.autoPriceEnabled t = true ->
     nonEmpty (Tab.stockSymbol t) = true -> autoFetchIntervalId s = None ->
     autoFetchIntervalId (checkAutoFetchInterval s) = Some (nextTimerId s) /\
     intervals (checkAutoFetchInterval s) = [nextTimerId s] /\
     network (checkAutoFetchInterval s)
     = toUpperCase (Tab.stockSymbol t) :: network s /\
     intervalLog (checkAutoFetchInterval s) = [nextTimerId s] :: intervalLog s) /\
  (forall h,
     hasAutoPrice s = false -> autoFetchIntervalId s = Some h ->
     autoFetchIntervalId (checkAutoFetchInterval s) = None /\
     intervals (checkAutoFetchInterval s) = [] /\
     network (checkAutoFetchInterval s) = network s /\
     intervalLog (checkAutoFetchInterval s) = [] :: intervalLog s) /\
  (forall t h,
     findActive s = Some t -> Tab.autoPriceEnabled t = true ->
     nonEmpty (Tab.stockSymbol t) = true -> autoFetchIntervalId s = Some h ->
     autoFetchIntervalId (checkAutoFetchInterval s) = Some (nextTimerId s) /\
     nextTimerId s ≠ h /\
     intervals (checkAutoFetchInterval s) = [nextTimerId s] /\
     network (checkAutoFetchInterval s)
     = toUpperCase (Tab.stockSymbol t) :: network s /\
     intervalLog (checkAutoFetchInterval s)
     = [nextTimerId s] :: [] :: intervalLog s) /\
  (hasAutoPrice s = false -> autoFetchIntervalId s = None ->
     checkAutoFetchInterval s = s) /\
  (exists new,
     intervalLog (checkAutoFetchInterval s) = new ++ intervalLog s /\
     Forall (fun live => (length live <= 1)%nat) new) /\
  (length (intervals (checkAutoFetchInterval s)) <= 1)%nat /\
  pollerConsistent (checkAutoFetchInterval s).
Proof.
  intros Hc Htrim. rewrite checkAutoFetchInterval_cases.
  assert (Hwanted : forall t, findActive s = Some t ->
            Tab.autoPriceEnabled t = true -> nonEmpty (Tab.stockSymbol t) = true ->
            hasAutoPrice s = true /\ trim (Tab.stockSymbol t) = Tab.stockSymbol t).
  { intros t Hf Ha Hs. split.
    - unfold hasAutoPrice. rewrite Hf, Ha, Hs. reflexivity.
    - unfold symbolsTrimmed in Htrim. rewrite Forall_forall in Htrim.
      apply Htrim, findActive_elem, Hf. }
  destruct (hasAutoPrice s) eqn:Hhas.
  - apply hasAutoPrice_inv in Hhas as (t & Hf & Ha & Hs).
    destruct (Hwanted t Hf Ha Hs) as [_ Ht].
    destruct (autoFetchIntervalId s) as [h |] eqn:Hid.
    + rewrite (startAutoFetchInterval_running s h t Hc Hid Hf Ha Hs Ht).
      unfold fetchQuote. state_simpl.
      assert (Hne : nextTimerId s ≠ h).
      { destruct Hc as [_ Hold]. specialize (Hold h Hid). lia. }
      split; [intros; discriminate |].
      split; [intros; discriminate |].
      split.
      { intros t' h' Hf' _ _ [= <-]. assert (t' = t) as -> by congruence.
        repeat split; auto. }
      split; [intros; discriminate |].
      split.
      { exists [[nextTimerId s]; []]. split; [reflexivity |].
        repeat constructor. }
      split; [cbn; lia |].
      eapply pollerConsistent_started; reflexivity.
    + pose proof (live_intervals_idle s Hc Hid) as Hlive.
      rewrite (startAutoFetchInterval_idle s t Hid Hlive Hf Ha Hs Ht).
      unfold fetchQuote. state_simpl.
      split.
      { intros t' Hf' _ _ _. assert (t' = t) as -> by congruence.
        repeat split; auto. }
      split; [intros; discriminate |].
      split; [intros; discriminate |].
      split; [intros; discriminate |].
      split.
      { exists [[nextTimerId s]]. split; [reflexivity |]. repeat constructor. }
      split; [cbn; lia |].
      eapply pollerConsistent_started; reflexivity.
  - assert (Hnot : forall t, findActive s = Some t ->
              Tab.autoPriceEnabled t = true ->
              nonEmpty (Tab.stockSymbol t) = true -> False).
    { intros t Hf Ha Hs. destruct (Hwanted t Hf Ha Hs) as [H _]. discriminate. }
    destruct (autoFetchIntervalId s) as [h |] eqn:Hid.
    + rewrite (stopAutoFetchInterval_running s h Hc Hid). state_simpl.
      split; [intros; discriminate |].
      split; [intros h' _ _; repeat split |].
      split; [intros t h' Hf Ha Hs _; destruct (Hnot t Hf Ha Hs) |].
      split; [intros; discriminate |].
      split.
      { exists [[]]. split; [reflexivity |]. repeat constructor. }
      split; [cbn; lia |].
      split; [intros h' Hh'; inversion Hh' | intros h' Hh'; discriminate].
    + pose proof (live_intervals_idle s Hc Hid) as Hlive.
      split; [intros t Hf Ha Hs _; destruct (Hnot t Hf Ha Hs) |].
      split; [intros; discriminate |].
      split; [intros; discriminate |].
      split; [reflexivity |].
      split.
      { exists []. split; [reflexivity | constructor]. }
      split; [rewrite Hlive; cbn; lia | exact Hc].
Qed.

Lemma checkAutoFetchInterval_step_witness :
  (forall t,
     findActive autoPriceStore = Some t -> Tab.autoPriceEnabled t = true ->
     nonEmpty (Tab.stockSymbol t) = true ->
     autoFetchIntervalId autoPriceStore = None ->
     autoFetchIntervalId (checkAutoFetchInterval autoPriceStore)
     = Some (nextTimerId autoPriceStore) /\
     intervals (checkAutoFetchInterval autoPriceStore)
     = [nextTimerId autoPriceStore] /\
     network (checkAutoFetchInterval autoPriceStore)
     = toUpperCase (Tab.stockSymbol t) :: network autoPriceStore /\
     intervalLog (checkAutoFetchInterval autoPriceStore)
     = [nextTimerId autoPriceStore] :: intervalLog autoPriceStore) /\
  (forall h,
     hasAutoPrice autoPriceStore = false ->
     autoFetchIntervalId autoPriceStore = Some h ->
     autoFetchIntervalId (checkAutoFetchInterval autoPriceStore) = None /\
     intervals (checkAutoFetchInterval autoPriceStore) = [] /\
     network (checkAutoFetchInterval autoPriceStore) = network autoPriceStore /\
     intervalLog (checkAutoFetchInterval autoPriceStore)
     = [] :: intervalLog autoPriceStore) /\
  (forall t h,
     findActive autoPriceStore = Some t -> Tab.autoPriceEnabled t = true ->
     nonEmpty (Tab.stockSymbol t) = true ->
     autoFetchIntervalId autoPriceStore = Some h ->
     autoFetchIntervalId (checkAutoFetchInterval autoPriceStore)
     = Some (nextTimerId autoPriceStore) /\
     nextTimerId autoPriceStore ≠ h /\
     intervals (checkAutoFetchInterval autoPriceStore)
     = [nextTimerId autoPriceStore] /\
     network (checkAutoFetchInterval autoPriceStore)
     = toUpperCase (Tab.stockSymbol t) :: network autoPriceStore /\
     intervalLog (checkAutoFetchInterval autoPriceStore)
     = [nextTimerId autoPriceStore] :: [] :: intervalLog autoPriceStore) /\
  (hasAutoPrice autoPriceStore = false ->
   autoFetchIntervalId autoPriceStore = None ->
   checkAutoFetchInterval autoPriceStore = autoPriceStore) /\
  (exists new,
     intervalLog (checkAutoFetchInterval autoPriceStore)
     = new ++ intervalLog autoPriceStore /\
     Forall (fun live => (length live <= 1)%nat) new) /\
  (length (intervals (checkAutoFetchInterval autoPriceStore)) <= 1)%nat /\
  pollerConsistent (checkAutoFetchInterval autoPriceStore).
Proof.
  apply (checkAutoFetchInterval_step autoPriceStore).
  - apply pollerConsistent_idle; reflexivity.
  - unfold symbolsTrimmed. repeat constructor.
Defined.

(** A handle that is no longer live never fetches: once the rule has
    cleared the interval, its ticks are gone. *)
Lemma intervalTick_cleared (h : positive) (s : State) :
  h ∉ intervals s -> intervalTick h s = s.
Proof.
  intros Hnot. unfold intervalTick.
  rewrite bool_decide_eq_false_2 by exact Hnot. reflexivity.
Qed.

(** A tick of the live interval runs the fetch cycle against the record
    that is active when it fires. *)
Lemma intervalTick_live (h : positive) (s : State) (t : Tab.t) :
  h ∈ intervals s ->
  findActive s = Some t ->
  Tab.autoPriceEnabled t = true ->
  nonEmpty (Tab.stockSymbol t) = true ->
  trim (Tab.stockSymbol t) = Tab.stockSymbol t ->
  intervalTick h s = fetchQuote (toUpperCase (Tab.stockSymbol t)) s.
Proof.
  intros Hin Hf Ha Hs Ht. unfold intervalTick.
  rewrite bool_decide_eq_true_2 by exact Hin.
  apply fetchPriceForActiveTab_sends; assumption.
Qed.

(** The rule at work: the page starts polling AAPL; the user switches to
    the MSFT tab (the old interval is cleared and MSFT is requested at
    once); the load flag is cleared by its timeout; the user turns
    auto-price off (the interval is cleared).  The table of live intervals
    never holds more than one handle. *)
Example poller_scenario :
  let s1 := checkAutoFetchInterval autoPriceStore in
  let s2 := fireTimeout 0 2 (switchTab "b" s1) in
  let s3 := toggleAutoPrice 0 s2 in
  (autoFetchIntervalId s1, intervals s1, network s1)
  = (Some 1%positive, [1%positive], ["AAPL"]) /\
  (autoFetchIntervalId s2, intervals s2, network s2)
  = (Some 3%positive, [3%positive], ["MSFT"; "AAPL"]) /\
  (autoFetchIntervalId s3, intervals s3, network s3)
  = (None, [], ["MSFT"; "AAPL"]) /\
  intervalLog s3 = [[]; [3%positive]; []; [1%positive]].
Proof. repeat split. Qed.

(** While the load flag is still up the flush inside [toggleAutoPrice]
    is skipped, so the record keeps its auto-price flag and the rule
    restarts the poller instead of stopping it. *)
Example toggle_during_load_restarts :
  let s2 := switchTab "b" (checkAutoFetchInterval autoPriceStore) in
  let s3 := toggleAutoPrice 0 s2 in
  isLoadingTabState s2 = true /\
  autoPriceEnabled s3 = false /\
  hasAutoPrice s3 = true /\
  (autoFetchIntervalId s3, intervals s3) = (Some 4%positive, [4%positive]).
Proof. repeat split. Qed.

(* ===================================================================== *)
(** * Every poller-relevant event ends by evaluating the poller rule *)
(* ===================================================================== *)

Lemma switchTab_reevaluates (tabId : string) (s : State) :
  activeTabId s ≠ Some tabId ->
  exists s3, switchTab tabId s = checkAutoFetchInterval s3 /\ pollerUntouched s s3.
Proof.
  intros Hne. destruct (switchTab_other tabId s Hne) as (Heq & _ & _ & _ & _ & _ & Hp).
  eauto.
Qed.

Lemma closeTab_reevaluates (confirmAnswer : bool) (tabId : string) (s : State) :
  (exists s3, closeTab confirmAnswer tabId s = Done (checkAutoFetchInterval s3) /\
              pollerUntouched s s3) \/
  closeTab confirmAnswer tabId s
  = Done (alert "Cannot close the last tab. At least one tab must remain open." s) \/
  closeTab confirmAnswer tabId s = Done s \/
  (exists s2, closeTab confirmAnswer tabId s = Threw s2).
Proof.
  unfold closeTab.
  destruct (length (tabs s) =? 1)%nat; [auto |].
  destruct (_ && negb confirmAnswer); [auto |].
  set (s1 := match find tabId (tabs s) with
             | Some t => if nonEmpty (Tab.stockSymbol t)
                         then removeStockPrice (toUpperCase (Tab.stockSymbol t)) s
                         else s
             | None => s end).
  assert (H1 : pollerUntouched s s1).
  { subst s1. destruct (find tabId (tabs s)) as [t |]; [| apply pollerUntouched_refl].
    destruct (nonEmpty _); repeat split; cbn; lia. }
  set (s2 := with_tabs _ s1).
  assert (H2 : pollerUntouched s s2).
  { eapply pollerUntouched_trans; [exact H1 |]. subst s2. repeat split. cbn. lia. }
  destruct (bool_decide _).
  - destruct (tabs s2 !! _) as [t' |]; [| right; right; right; eauto].
    left. eexists. split; [reflexivity |].
    unfold renderTabs, saveTabsToStorage.
    eapply pollerUntouched_trans; [exact H2 |].
    eapply pollerUntouched_trans; [| split; [| split; [| split]]; cbn; reflexivity].
    eapply pollerUntouched_trans; [| apply loadTabState_pollerUntouched].
    repeat split. cbn. lia.
  - left. eexists. split; [reflexivity |].
    unfold renderTabs, saveTabsToStorage.
    eapply pollerUntouched_trans; [exact H2 |]. repeat split. cbn. lia.
Qed.

Lemma toggleAutoPrice_reevaluates (now : Z) (s : State) :
  exists s3, toggleAutoPrice now s = checkAutoFetchInterval s3 /\ pollerUntouched s s3.
Proof.
  unfold toggleAutoPrice.
  set (s1 := with_autoPriceEnabled (negb (autoPriceEnabled s)) s).
  set (s2 := if autoPriceEnabled s1 then _ else s1).
  assert (H1 : pollerUntouched s s1) by (repeat split; cbn; lia).
  assert (H2 : pollerUntouched s s2).
  { subst s2. destruct (autoPriceEnabled s1); [| exact H1].
    destruct (nonEmpty _); [| exact H1].
    eapply pollerUntouched_trans; [exact H1 | apply fetchStockPrice_pollerUntouched]. }
  eexists. split; [reflexivity |].
  destruct (idTruthy _); [| exact H2].
  eapply pollerUntouched_trans; [exact H2 | apply saveCurrentTabState_pollerUntouched].
Qed.

Lemma onStockSymbolInput_reevaluates (value : string) (s : State) :
  idTruthy (activeTabId s) = true ->
  exists s3, onStockSymbolInput value s = checkAutoFetchInterval s3 /\
             pollerUntouched s s3.
Proof.
  intros Hact. unfold onStockSymbolInput.
  set (s0 := with_stockSymbol value s).
  set (s1 := match symbolDebounceTimer s0 with
             | Some h => clearTimeout h s0 | None => s0 end).
  set (s2 := if autoPriceEnabled s1 && negb (nonEmpty (trim value))
             then with_entryPrice "" s1 else s1).
  set (s3 := if nonEmpty (trim value) && autoPriceEnabled s2
             then (let '(h, s') := setTimeout (CbFetchStockPrice (trim value)) s2 in
                   with_symbolDebounceTimer (Some h) s')
             else s2).
  assert (H1 : pollerUntouched s s1 /\ activeTabId s1 = activeTabId s).
  { subst s1 s0. destruct (symbolDebounceTimer _); repeat split; cbn; lia. }
  assert (H2 : pollerUntouched s s2 /\ activeTabId s2 = activeTabId s).
  { subst s2. destruct (autoPriceEnabled s1 && negb (nonEmpty (trim value)));
      [| exact H1].
    destruct H1 as [(A & B & C & D) E]. repeat split; cbn; try assumption. }
  assert (H3 : pollerUntouched s s3 /\ activeTabId s3 = activeTabId s).
  { subst s3. destruct (nonEmpty (trim value) && autoPriceEnabled s2); [| exact H2].
    destruct H2 as [(A & B & C & D) E]. unfold setTimeout.
    repeat split; cbn; try assumption. lia. }
  destruct H3 as [H3 A3]. rewrite A3, Hact.
  eexists. split; [reflexivity |].
  eapply pollerUntouched_trans; [exact H3 | apply debouncedSaveTabState_frame].
Qed.

(* ===================================================================== *)
(** * One evaluation of the rule, whatever the symbol holds *)
(* ===================================================================== *)





(** The events keep the two assumptions of the rule. *)
Lemma checkAutoFetchInterval_keeps_symbolsTrimmed (s : State) :
  symbolsTrimmed s -> symbolsTrimmed (checkAutoFetchInterval s).
Proof.
  unfold symbolsTrimmed. destruct (checkAutoFetchInterval_frame s) as (-> & _). auto.
Qed.

Lemma switchTab_keeps_symbolsTrimmed (tabId : string) (s : State) :
  symbolsTrimmed s -> symbolsTrimmed (switchTab tabId s).
Proof.
  intros H. destruct (decide (activeTabId s = Some tabId)) as [Heq | Hne].
  - rewrite switchTab_same by exact Heq. exact H.
  - destruct (switchTab_other tabId s Hne) as (_ & Htabs & _).
    unfold symbolsTrimmed. rewrite Htabs.
    destruct (idTruthy _); [apply saveCurrentTabState_symbolsTrimmed, H | exact H].
Qed.

Lemma poller_events_keep_consistency (s : State) :
  pollerConsistent s -> symbolsTrimmed s ->
  (forall tabId, pollerConsistent (switchTab tabId s)) /\
  (forall now, pollerConsistent (toggleAutoPrice now s)) /\
  (forall value, pollerConsistent (onStockSymbolInput value s)).
Proof.
  intros Hc Ht.
  assert (Hstep : forall s3, pollerUntouched s s3 -> symbolsTrimmed s3 ->
                    pollerConsistent (checkAutoFetchInterval s3)).
  { intros s3 Hp Ht3.
    apply checkAutoFetchInterval_keeps_consistent; [| exact Ht3].
    eapply pollerUntouched_consistent; eassumption. }
  split; [| split].
  - intros tabId. destruct (decide (activeTabId s = Some tabId)) as [Heq | Hne].
    + rewrite switchTab_same by exact Heq. exact Hc.
    + pose proof (switchTab_keeps_symbolsTrimmed tabId s Ht) as Ht'.
      destruct (switchTab_reevaluates tabId s Hne) as (s3 & Heq & Hp).
      rewrite Heq in *. apply Hstep; [exact Hp |].
      unfold symbolsTrimmed in *.
      destruct (checkAutoFetchInterval_frame s3) as (C1 & _).
      rewrite C1 in Ht'. exact Ht'.
  - intros now. unfold toggleAutoPrice.
    set (s1 := with_autoPriceEnabled (negb (autoPriceEnabled s)) s).
    set (s2 := if autoPriceEnabled s1 then _ else s1).
    assert (H2 : pollerUntouched s s2 /\ symbolsTrimmed s2).
    { subst s2. destruct (autoPriceEnabled s1);
        [| split; [repeat split; cbn; lia | exact Ht]].
      destruct (nonEmpty _); [| split; [repeat split; cbn; lia | exact Ht]].
      split.
      - eapply pollerUntouched_trans; [| apply fetchStockPrice_pollerUntouched].
        repeat split; cbn; lia.
      - unfold symbolsTrimmed, fetchStockPrice.
        destruct (negb _ || negb _); [exact Ht |].
        unfold getCachedPrice.
        destruct (Storage.stockPrice (localStorage s1) !! _) as [data |]; [| exact Ht].
        destruct (now - Quote.timestamp data <? PRICE_CACHE_DURATION); [| exact Ht].
        destruct (Quote.price data) as [price |]; [| exact Ht].
        unfold onEntryPriceInput.
        destruct (debouncedSaveTabState_frame
                    (with_entryPrice (toFixed 2 price) s1))
          as (_ & -> & _). exact Ht. }
    destruct H2 as [H2 T2].
    destruct (idTruthy _).
    + apply Hstep.
      * eapply pollerUntouched_trans; [exact H2 |].
        apply saveCurrentTabState_pollerUntouched.
      * apply saveCurrentTabState_symbolsTrimmed, T2.
    + apply Hstep; assumption.
  - intros value. destruct (idTruthy (activeTabId s)) eqn:Hact.
    + destruct (onStockSymbolInput_reevaluates value s Hact) as (s3 & Heq & Hp).
      rewrite Heq. apply Hstep; [exact Hp |].
      revert Heq. unfold onStockSymbolInput.
      set (s0 := with_stockSymbol value s).
      set (s1 := match symbolDebounceTimer s0 with
                 | Some h => clearTimeout h s0 | None => s0 end).
      set (s2 := if autoPriceEnabled s1 && negb (nonEmpty (trim value))
                 then with_entryPrice "" s1 else s1).
      set (s4 := if nonEmpty (trim value) && autoPriceEnabled s2
                 then (let '(h, s') := setTimeout (CbFetchStockPrice (trim value)) s2 in
                       with_symbolDebounceTimer (Some h) s')
                 else s2).
      assert (T4 : tabs s4 = tabs s).
      { subst s4 s2 s1 s0. unfold setTimeout, clearTimeout.
        destruct (symbolDebounceTimer _); destruct (_ && _); destruct (_ && _);
          reflexivity. }
      destruct (idTruthy (activeTabId s4)).
      * intros Heq.
        assert (Htabs : tabs (checkAutoFetchInterval s3) = tabs s).
        { rewrite <- Heq.
          destruct (checkAutoFetchInterval_frame (debouncedSaveTabState s4)) as (-> & _).
          destruct (debouncedSaveTabState_frame s4) as (_ & -> & _). exact T4. }
        destruct (checkAutoFetchInterval_frame s3) as (C1 & _).
        unfold symbolsTrimmed. rewrite <- C1, Htabs. exact Ht.
      * intros Heq.
        assert (Htabs : tabs (checkAutoFetchInterval s3) = tabs s)
          by (rewrite <- Heq; exact T4).
        destruct (checkAutoFetchInterval_frame s3) as (C1 & _).
        unfold symbolsTrimmed. rewrite <- C1, Htabs. exact Ht.
    + unfold onStockSymbolInput.
      set (s0 := with_stockSymbol value s).
      set (s1 := match symbolDebounceTimer s0 with
                 | Some h => clearTimeout h s0 | None => s0 end).
      set (s2 := if autoPriceEnabled s1 && negb (nonEmpty (trim value))
                 then with_entryPrice "" s1 else s1).
      set (s4 := if nonEmpty (trim value) && autoPriceEnabled s2
                 then (let '(h, s') := setTimeout (CbFetchStockPrice (trim value)) s2 in
                       with_symbolDebounceTimer (Some h) s')
                 else s2).
      assert (H4 : pollerUntouched s s4 /\ activeTabId s4 = activeTabId s).
      { subst s4 s2 s1 s0. unfold setTimeout, clearTimeout.
        destruct (symbolDebounceTimer _); destruct (_ && _); destruct (_ && _);
          repeat split; cbn; lia. }
      destruct H4 as [H4 A4]. rewrite A4, Hact.
      eapply pollerUntouched_consistent; eassumption.
Qed.
(* ===================================================================== *)
(** * Removing quotes in bulk: [clearAllTabs] and [cleanupOrphanedCache] *)
(* ===================================================================== *)

Lemma with_stockPrice_same (s : State) :
  with_stockPrice (Storage.stockPrice (localStorage s)) s = s.
Proof. destruct s as [? ? ? ? ? ? ? ? ? ? ? [? ? ?] ? ? ? ? ? ?]. reflexivity. Qed.

(** Removing the quotes of a list of keys, one after the other, touches
    the quote items only. *)
Lemma removeStockPrice_fold (keys : list string) (s : State) :
  fold_left (fun acc key => removeStockPrice key acc) keys s
  = with_stockPrice
      (fold_left (fun m key => delete key m) keys (Storage.stockPrice (localStorage s))) s.
Proof.
  revert s. induction keys as [| k rest IH]; intros s; cbn [fold_left].
  - symmetry. apply with_stockPrice_same.
  - rewrite IH. reflexivity.
Qed.

Lemma lookup_fold_delete (keys : list string) (m : gmap string Quote.t) (k : string) :
  fold_left (fun m key => delete key m) keys m !! k
  = if decide (k ∈ keys) then None else m !! k.
Proof.
  revert m. induction keys as [| x rest IH]; intros m; cbn [fold_left].
  - destruct (decide (k ∈ [])) as [H | _]; [inversion H | reflexivity].
  - rewrite IH. destruct (decide (k ∈ rest)) as [Hin | Hnot].
    + rewrite decide_True by (right; exact Hin). reflexivity.
    + destruct (decide (k = x)) as [-> | Hne].
      * rewrite decide_True by left. apply lookup_delete_eq.
      * rewrite decide_False.
        -- apply lookup_delete_ne. congruence.
        -- intros H. apply elem_of_cons in H as [? | ?]; contradiction.
Qed.

Lemma removeQuotesOf_activeSymbols (s0 s : State) :
  removeQuotesOf (tabs s0) s
  = fold_left (fun acc key => removeStockPrice key acc) (activeSymbols s0) s.
Proof.
  unfold removeQuotesOf, activeSymbols. revert s.
  induction (tabs s0) as [| t rest IH]; intros s; [reflexivity |].
  cbn [fold_left]. rewrite filter_cons.
  destruct (nonEmpty (Tab.stockSymbol t)) eqn:E.
  - rewrite decide_True by reflexivity. cbn [map fold_left]. apply IH.
  - rewrite decide_False by discriminate. apply IH.
Qed.

Lemma elem_of_activeSymbols (k : string) (s : State) :
  k ∈ activeSymbols s <->
  exists t, t ∈ tabs s /\ nonEmpty (Tab.stockSymbol t) = true /\
            toUpperCase (Tab.stockSymbol t) = k.
Proof.
  unfold activeSymbols. change (map ?f ?l) with (f <$> l).
  rewrite list_elem_of_fmap. split.
  - intros (t & -> & Ht). apply list_elem_of_filter in Ht as [Hs Ht]. eauto.
  - intros (t & Ht & Hs & <-). exists t. split; [reflexivity |].
    apply list_elem_of_filter. auto.
Qed.

(** What a confirmed [clearAllTabs] computes. *)
Lemma clearAllTabs_confirmed (now : Z) (random : string) (created : Z) (s : State) :
  clearAllTabs true now random created s
  = clearCalculatorForm
      (saveTabsToStorage
         (with_activeTabId (Some (generateTabId now random))
            (with_tabs
               [{| Tab.id := generateTabId now random; Tab.name := "New Tab";
                   Tab.stockSymbol := ""; Tab.entryPrice := "";
                   Tab.targetPrice := ""; Tab.quantity := "";
                   Tab.tpPercent := ""; Tab.slPercent := "";
                   Tab.autoPriceEnabled := false;
                   Tab.calculationMode := Some current;
                   Tab.createdAt := created |}]
               (with_stockPrice
                  (fold_left (fun m key => delete key m) (activeSymbols s)
                     (Storage.stockPrice (localStorage s))) s)))).
Proof.
  unfold clearAllTabs. cbn [negb].
  rewrite removeQuotesOf_activeSymbols, removeStockPrice_fold.
  reflexivity.
Qed.

(** X1: [clearAllTabs], once confirmed, starts over from any state, valid
    or not: the collection is one new empty tab, that tab is active, the
    form shows the defaults with auto-price off, the persisted copy is the
    new collection and pointer, and of the cached quotes exactly those
    under the upper-cased symbol of a tab of the old collection are gone.
    When the user declines, nothing changes. *)
Theorem clearAllTabs_starts_over (now : Z) (random : string) (created : Z) (s : State) :
  let s' := clearAllTabs true now random created s in
  tabs s'
  = [{| Tab.id := generateTabId now random; Tab.name := "New Tab";
        Tab.stockSymbol := ""; Tab.entryPrice := ""; Tab.targetPrice := "";
        Tab.quantity := ""; Tab.tpPercent := ""; Tab.slPercent := "";
        Tab.autoPriceEnabled := false; Tab.calculationMode := Some current;
        Tab.createdAt := created |}] /\
  activeTabId s' = Some (generateTabId now random) /\
  validStore s' /\
  persistedInSync s' /\
  form s' = formDefaults s /\
  autoPriceEnabled s' = false /\
  (forall k,
     Storage.stockPrice (localStorage s') !! k
     = if decide (k ∈ activeSymbols s) then None
       else Storage.stockPrice (localStorage s) !! k) /\
  clearAllTabs false now random created s = s.
Proof.
  intros s'. subst s'. rewrite clearAllTabs_confirmed.
  unfold clearCalculatorForm, saveTabsToStorage. state_simpl.
  split; [reflexivity |]. split; [reflexivity |].
  split.
  { split.
    - unfold uniqueIds, ids. state_simpl. cbn [map Tab.id]. apply NoDup_singleton.
    - exists (generateTabId now random). split; [reflexivity |].
      unfold ids. state_simpl. cbn [map Tab.id]. apply list_elem_of_singleton. reflexivity. }
  split; [split; reflexivity |].
  split; [reflexivity |]. split; [reflexivity |].
  split; [| reflexivity].
  intros k. apply lookup_fold_delete.
Qed.

(** X2: [clearAllTabs] never evaluates the poller rule: the interval that
    was running keeps running under the same handle.  The tab it leaves
    active has auto-price off, so the ticks of that interval request
    nothing. *)
Theorem clearAllTabs_leaves_interval_running (now : Z) (random : string)
    (created : Z) (s : State) :
  let s' := clearAllTabs true now random created s in
  autoFetchIntervalId s' = autoFetchIntervalId s /\
  intervals s' = intervals s /\
  intervalLog s' = intervalLog s /\
  network s' = network s /\
  hasAutoPrice s' = false /\
  forall h, intervalTick h s' = s'.
Proof.
  intros s'. subst s'. rewrite clearAllTabs_confirmed.
  unfold clearCalculatorForm, saveTabsToStorage.
  repeat (split; [reflexivity |]).
  assert (Hfa : forall s0 : State,
            tabs s0 = [{| Tab.id := generateTabId now random; Tab.name := "New Tab";
                          Tab.stockSymbol := ""; Tab.entryPrice := "";
                          Tab.targetPrice := ""; Tab.quantity := "";
                          Tab.tpPercent := ""; Tab.slPercent := "";
                          Tab.autoPriceEnabled := false;
                          Tab.calculationMode := Some current;
                          Tab.createdAt := created |}] ->
            activeTabId s0 = Some (generateTabId now random) ->
            hasAutoPrice s0 = false /\ fetchPriceForActiveTab s0 = s0).
  { intros s0 Ht Ha. unfold hasAutoPrice, fetchPriceForActiveTab, findActive, find.
    rewrite Ha, Ht. cbn [list_find]. rewrite decide_True by reflexivity.
    cbn. auto. }
  split.
  - apply Hfa; reflexivity.
  - intros h. unfold intervalTick. destruct (bool_decide _); [| reflexivity].
    apply Hfa; reflexivity.
Qed.

Lemma elem_of_quote_keys (m : gmap string Quote.t) (k : string) :
  k ∈ map fst (map_to_list m) <-> is_Some (m !! k).
Proof.
  change (map fst ?l) with (fst <$> l). rewrite list_elem_of_fmap. split.
  - intros ([k' q] & -> & Hin). apply elem_of_map_to_list in Hin. eauto.
  - intros [q Hq]. exists (k, q). split; [reflexivity |].
    apply elem_of_map_to_list. exact Hq.
Qed.

Lemma length_filter_split {A} (P : A -> Prop) `{!forall x, Decision (P x)} (l : list A) :
  (length (filter (fun x => ~ P x) l) + length (filter P l) = length l)%nat.
Proof.
  induction l as [| x l IH]; [reflexivity |].
  rewrite !filter_cons. destruct (decide (P x)) as [Hp | Hn].
  - rewrite decide_False by tauto. cbn [length]. lia.
  - rewrite decide_True by exact Hn. cbn [length]. lia.
Qed.

Lemma filter_none {A} (P : A -> Prop) `{!forall x, Decision (P x)} (l : list A) :
  (forall x, x ∈ l -> ~ P x) -> filter P l = [].
Proof.
  induction l as [| x l IH]; intros Hall; [reflexivity |].
  rewrite filter_cons, decide_False by (apply Hall; left).
  apply IH. intros y Hy. apply Hall. right. exact Hy.
Qed.

(** The quotes [cleanupOrphanedCache] leaves. *)
Lemma cleanupOrphanedCache_lookup (s : State) (k : string) :
  Storage.stockPrice (localStorage (snd (cleanupOrphanedCache s))) !! k
  = if decide (k ∈ activeSymbols s) then Storage.stockPrice (localStorage s) !! k
    else None.
Proof.
  unfold cleanupOrphanedCache. cbn [snd]. rewrite removeStockPrice_fold. state_simpl.
  rewrite lookup_fold_delete.
  set (m := Storage.stockPrice (localStorage s)).
  destruct (decide (k ∈ activeSymbols s)) as [Hin | Hnot].
  - rewrite decide_False; [reflexivity |].
    intros H. apply list_elem_of_filter in H as [H _]. contradiction.
  - destruct (m !! k) as [q |] eqn:Hk.
    + rewrite decide_True; [reflexivity |].
      apply list_elem_of_filter. split; [exact Hnot |].
      apply elem_of_quote_keys. eauto.
    + destruct (decide _); reflexivity.
Qed.

(** X3: [cleanupOrphanedCache] keeps a cached quote exactly when its key
    is among [activeSymbols], the upper-cased symbols of the tabs that
    hold one, and removes every other one; it returns the number of quotes
    it removed; it touches neither the collection nor the pointer; and run
    a second time it finds nothing left to remove. *)
Theorem cleanupOrphanedCache_removes_orphans (s : State) :
  let removed := fst (cleanupOrphanedCache s) in
  let s' := snd (cleanupOrphanedCache s) in
  (forall k,
     Storage.stockPrice (localStorage s') !! k
     = if decide (k ∈ activeSymbols s)
       then Storage.stockPrice (localStorage s) !! k
       else None) /\
  (removed + size (Storage.stockPrice (localStorage s'))
   = size (Storage.stockPrice (localStorage s)))%nat /\
  tabs s' = tabs s /\
  activeTabId s' = activeTabId s /\
  cleanupOrphanedCache s' = (0%nat, s').
Proof.
  intros removed s'.
  assert (Htabs : tabs s' = tabs s /\ activeTabId s' = activeTabId s).
  { subst s'. unfold cleanupOrphanedCache. cbn [snd].
    rewrite removeStockPrice_fold. split; reflexivity. }
  assert (Hsyms : activeSymbols s' = activeSymbols s).
  { unfold activeSymbols. destruct Htabs as [-> _]. reflexivity. }
  set (m := Storage.stockPrice (localStorage s)).
  set (m' := Storage.stockPrice (localStorage s')).
  set (L := map fst (map_to_list m)).
  set (L' := map fst (map_to_list m')).
  assert (Hkeys : forall k, k ∈ L' <-> k ∈ filter (fun k => k ∈ activeSymbols s) L).
  { intros k. subst L L'. rewrite list_elem_of_filter, !elem_of_quote_keys.
    subst m' s'. rewrite cleanupOrphanedCache_lookup. fold m.
    destruct (decide (k ∈ activeSymbols s)) as [Hin | Hnot].
    - tauto.
    - split; [intros [q Hq]; discriminate | tauto]. }
  split; [| split; [| split; [tauto | split; [tauto |]]]].
  - intros k. subst m' s'. apply cleanupOrphanedCache_lookup.
  - assert (Hperm : L' ≡ₚ filter (fun k => k ∈ activeSymbols s) L).
    { apply NoDup_Permutation.
      - apply NoDup_fst_map_to_list.
      - apply NoDup_filter, NoDup_fst_map_to_list.
      - exact Hkeys. }
    rewrite <- (length_map_to_list m'), <- (length_map_to_list m).
    rewrite <- (length_map fst (map_to_list m')), <- (length_map fst (map_to_list m)).
    fold L L'. rewrite Hperm.
    subst removed. unfold cleanupOrphanedCache. cbn [fst]. fold m L.
    apply (length_filter_split (fun k => k ∈ activeSymbols s)).
  - unfold cleanupOrphanedCache at 1. rewrite Hsyms. fold m' L'.
    rewrite (filter_none (fun symbol => symbol ∉ activeSymbols s) L').
    + reflexivity.
    + intros k Hk Hnot. apply Hkeys, list_elem_of_filter in Hk as [Hin _]. contradiction.
Qed.

(* ===================================================================== *)
(** * Keyboard navigation *)
(* ===================================================================== *)

Lemma switchTab_pointer (tabId : string) (s : State) :
  activeTabId (switchTab tabId s) = Some tabId /\ ids (switchTab tabId s) = ids s.
Proof.
  destruct (decide (activeTabId s = Some tabId)) as [Heq | Hne].
  - rewrite switchTab_same by exact Heq. auto.
  - destruct (switchTab_other tabId s Hne) as (_ & Htabs & Hact & _).
    split; [exact Hact |]. unfold ids. rewrite Htabs.
    destruct (idTruthy _); [apply ids_saveCurrentTabState | reflexivity].
Qed.

Lemma length_ids (s : State) : length (ids s) = length (tabs s).
Proof. apply length_map. Qed.

(** With pairwise distinct ids, [findIndex] finds a record where it is. *)
Lemma activeIndex_unique (s : State) (i : nat) (a : string) :
  uniqueIds s -> ids s !! i = Some a -> activeTabId s = Some a ->
  activeIndex s = Z.of_nat i.
Proof.
  intros Huniq Hi Ha. unfold activeIndex. rewrite Ha.
  destruct (findIndex_cases a (tabs s)) as [(_ & _ & Hall) | (j & t & -> & _ & _ & Hj & Hid)].
  - exfalso. unfold ids in Hi. change (map Tab.id ?l) with (Tab.id <$> l) in Hi.
    apply list_lookup_fmap_Some in Hi as (t & -> & Ht).
    rewrite Forall_forall in Hall. apply (Hall t); [| reflexivity].
    apply list_elem_of_lookup. eauto.
  - f_equal. apply (NoDup_lookup (ids s) j i a Huniq); [| exact Hi].
    unfold ids. change (map Tab.id ?l) with (Tab.id <$> l).
    rewrite list_lookup_fmap, Hj. cbn. congruence.
Qed.

Lemma lookup_ids (s : State) (j : nat) :
  (j < length (tabs s))%nat ->
  exists t, tabs s !! j = Some t /\ ids s !! j = Some (Tab.id t).
Proof.
  intros Hlt. destruct (lookup_lt_is_Some_2 (tabs s) j Hlt) as [t Ht].
  exists t. split; [exact Ht |]. unfold ids.
  change (map Tab.id ?l) with (Tab.id <$> l). rewrite list_lookup_fmap, Ht. reflexivity.
Qed.

Lemma switchToNextTab_at (s : State) (i : nat) (a : string) :
  uniqueIds s -> (2 <= length (tabs s))%nat ->
  ids s !! i = Some a -> activeTabId s = Some a ->
  exists b, ids s !! (S i mod length (tabs s))%nat = Some b /\
            switchToNextTab s = Done (switchTab b s).
Proof.
  intros Huniq Hlen Hi Ha. unfold switchToNextTab.
  destruct (Nat.leb_spec (length (tabs s)) 1); [lia |].
  rewrite (activeIndex_unique s i a Huniq Hi Ha).
  destruct (Z.eqb_spec (Z.of_nat i) (-1)); [lia |].
  assert (Hidx : Z.to_nat (Z.rem (Z.of_nat i + 1) (Z.of_nat (length (tabs s))))
                 = (S i mod length (tabs s))%nat).
  { rewrite Z.rem_mod_nonneg by lia.
    replace (Z.of_nat i + 1) with (Z.of_nat (S i)) by lia.
    rewrite <- Nat2Z.inj_mod. apply Nat2Z.id. }
  rewrite Hidx.
  destruct (lookup_ids s (S i mod length (tabs s))%nat) as (t & Ht & Hid).
  { apply Nat.mod_upper_bound. lia. }
  rewrite Ht. eauto.
Qed.

Lemma switchToPrevTab_at (s : State) (i : nat) (a : string) :
  uniqueIds s -> (2 <= length (tabs s))%nat ->
  ids s !! i = Some a -> activeTabId s = Some a ->
  exists b, ids s !! (if decide (i = 0%nat) then length (tabs s) - 1 else i - 1)%nat
            = Some b /\
            switchToPrevTab s = Done (switchTab b s).
Proof.
  intros Huniq Hlen Hi Ha. unfold switchToPrevTab.
  destruct (Nat.leb_spec (length (tabs s)) 1); [lia |].
  rewrite (activeIndex_unique s i a Huniq Hi Ha).
  destruct (Z.eqb_spec (Z.of_nat i) (-1)); [lia |].
  pose proof (lookup_lt_Some _ _ _ Hi) as Hlt. rewrite length_ids in Hlt.
  assert (Hidx : Z.to_nat (if Z.of_nat i =? 0 then Z.of_nat (length (tabs s)) - 1
                           else Z.of_nat i - 1)
                 = (if decide (i = 0%nat) then length (tabs s) - 1 else i - 1)%nat).
  { destruct (Z.eqb_spec (Z.of_nat i) 0); destruct (decide (i = 0%nat)); lia. }
  rewrite Hidx.
  destruct (lookup_ids s (if decide (i = 0%nat) then length (tabs s) - 1 else i - 1)%nat)
    as (t & Ht & Hid).
  { destruct (decide (i = 0%nat)); lia. }
  rewrite Ht. eauto.
Qed.

(** X4: the arrow keys walk the tab strip in a circle.  In a collection
    of at least two tabs with pairwise distinct ids whose active tab sits
    at position [i], [switchToNextTab] activates the tab at position
    [i + 1], the first one after the last; [switchToPrevTab] activates the
    tab at position [i - 1], the last one before the first; neither
    changes the ids or their order, neither ends with an exception, and
    each undoes the move of the other. *)
Theorem arrow_keys_cycle (s : State) (i : nat) (a : string) :
  uniqueIds s ->
  (2 <= length (tabs s))%nat ->
  ids s !! i = Some a ->
  activeTabId s = Some a ->
  (exists s1 s2,
      switchToNextTab s = Done s1 /\ ids s1 = ids s /\
      activeTabId s1 = ids s !! (S i mod length (tabs s))%nat /\
      switchToPrevTab s1 = Done s2 /\ ids s2 = ids s /\ activeTabId s2 = Some a) /\
  (exists s1 s2,
      switchToPrevTab s = Done s1 /\ ids s1 = ids s /\
      activeTabId s1
      = ids s !! (if decide (i = 0%nat) then length (tabs s) - 1 else i - 1)%nat /\
      switchToNextTab s1 = Done s2 /\ ids s2 = ids s /\ activeTabId s2 = Some a).
Proof.
  intros Huniq Hlen Hi Ha.
  pose proof (lookup_lt_Some _ _ _ Hi) as Hlt. rewrite length_ids in Hlt.
  assert (Hsame : forall b, uniqueIds (switchTab b s) /\
                            length (tabs (switchTab b s)) = length (tabs s)).
  { intros b. destruct (switchTab_pointer b s) as [_ Hids]. split.
    - unfold uniqueIds. rewrite Hids. exact Huniq.
    - rewrite <- !length_ids, Hids. reflexivity. }
  split.
  - destruct (switchToNextTab_at s i a Huniq Hlen Hi Ha) as (b & Hb & Hnext).
    destruct (switchTab_pointer b s) as [Hact1 Hids1].
    destruct (Hsame b) as [Huniq1 Hlen1].
    destruct (switchToPrevTab_at (switchTab b s) (S i mod length (tabs s))%nat b)
      as (c & Hc & Hprev); try assumption.
    { lia. } { rewrite Hids1. exact Hb. }
    rewrite Hids1, Hlen1 in Hc.
    assert (Hback : (if decide ((S i mod length (tabs s))%nat = 0%nat)
                     then length (tabs s) - 1 else S i mod length (tabs s) - 1)%nat = i).
    { destruct (decide (S i = length (tabs s))) as [Heq | Hne].
      - rewrite Heq, Nat.Div0.mod_same. rewrite decide_True by reflexivity. lia.
      - rewrite Nat.mod_small by lia. rewrite decide_False by lia. lia. }
    rewrite Hback, Hi in Hc. injection Hc as <-.
    destruct (switchTab_pointer a (switchTab b s)) as [Hact2 Hids2].
    exists (switchTab b s), (switchTab a (switchTab b s)).
    rewrite Hb. repeat split; try assumption. congruence.
  - destruct (switchToPrevTab_at s i a Huniq Hlen Hi Ha) as (b & Hb & Hprev).
    destruct (switchTab_pointer b s) as [Hact1 Hids1].
    destruct (Hsame b) as [Huniq1 Hlen1].
    set (j := (if decide (i = 0%nat) then length (tabs s) - 1 else i - 1)%nat) in *.
    destruct (switchToNextTab_at (switchTab b s) j b) as (c & Hc & Hnext); try assumption.
    { lia. } { rewrite Hids1. exact Hb. }
    rewrite Hids1, Hlen1 in Hc.
    assert (Hback : (S j mod length (tabs s))%nat = i).
    { subst j. destruct (decide (i = 0%nat)) as [-> | Hne].
      - replace (S (length (tabs s) - 1)) with (length (tabs s)) by lia.
        apply Nat.Div0.mod_same.
      - replace (S (i - 1)) with i by lia. apply Nat.mod_small. lia. }
    rewrite Hback, Hi in Hc. injection Hc as <-.
    destruct (switchTab_pointer a (switchTab b s)) as [Hact2 Hids2].
    exists (switchTab b s), (switchTab a (switchTab b s)).
    rewrite Hb. repeat split; try assumption. congruence.
Qed.

Lemma arrow_keys_cycle_witness :
  (exists s1 s2,
      switchToNextTab threeTabStore = Done s1 /\ ids s1 = ids threeTabStore /\
      activeTabId s1 = ids threeTabStore !! (2 mod length (tabs threeTabStore))%nat /\
      switchToPrevTab s1 = Done s2 /\ ids s2 = ids threeTabStore /\
      activeTabId s2 = Some "b") /\
  (exists s1 s2,
      switchToPrevTab threeTabStore = Done s1 /\ ids s1 = ids threeTabStore /\
      activeTabId s1
      = ids threeTabStore !! (if decide (1%nat = 0%nat)
                              then length (tabs threeTabStore) - 1 else 1 - 1)%nat /\
      switchToNextTab s1 = Done s2 /\ ids s2 = ids threeTabStore /\
      activeTabId s2 = Some "b").
Proof.
  apply (arrow_keys_cycle threeTabStore 1 "b").
  - unfold uniqueIds. decide_by_computation.
  - vm_compute. lia.
  - reflexivity.
  - reflexivity.
Defined.

(* ===================================================================== *)
(** * Switching away and back *)
(* ===================================================================== *)

(** The record of the active tab after a flush. *)
Lemma find_flushed (a : string) (s : State) (t : Tab.t) :
  isLoadingTabState s = false ->
  activeTabId s = Some a ->
  find a (tabs s) = Some t ->
  find a (tabs (saveCurrentTabState s))
  = Some {| Tab.id := Tab.id t; Tab.name := Tab.name t;
            Tab.stockSymbol := trim (Form.stockSymbol (form s));
            Tab.entryPrice := Form.entryPrice (form s);
            Tab.targetPrice := Form.targetPrice (form s);
            Tab.quantity := Form.quantity (form s);
            Tab.tpPercent := Form.tpPercent (form s);
            Tab.slPercent := Form.slPercent (form s);
            Tab.autoPriceEnabled := autoPriceEnabled s;
            Tab.calculationMode := Some (calculationMode s);
            Tab.createdAt := Tab.createdAt t |}.
Proof.
  intros Hload Ha Hfind. unfold saveCurrentTabState. rewrite Hload, Ha.
  unfold find in Hfind.
  destruct (list_find _ (tabs s)) as [[i t0] |] eqn:Hf; [| discriminate].
  cbn in Hfind. injection Hfind as ->.
  apply list_find_Some in Hf as (Hi & Hid & Hfirst).
  pose proof (lookup_lt_Some _ _ _ Hi) as Hlt.
  unfold renderTabs, saveTabsToStorage. state_simpl.
  set (tab' := Tab.mk _ _ _ _ _ _ _ _ _ _ _).
  unfold find.
  assert (Hgoal : list_find (fun t => Tab.id t = a) (<[i:=tab']> (tabs s))
                  = Some (i, tab')).
  { apply list_find_Some. split; [| split].
    - apply list_lookup_insert_eq. exact Hlt.
    - exact Hid.
    - intros j y Hy Hji. rewrite list_lookup_insert_ne in Hy by lia.
      eapply Hfirst; eassumption. }
  rewrite Hgoal. reflexivity.
Qed.

Lemma saveCurrentTabState_loading (s : State) :
  isLoadingTabState s = true -> saveCurrentTabState s = s.
Proof. intros H. unfold saveCurrentTabState. rewrite H. reflexivity. Qed.

(** The calculation mode after a switch to a tab of the collection. *)
Lemma switchTab_calculationMode (tabId : string) (s : State) (t : Tab.t) (m : CalcMode) :
  activeTabId s ≠ Some tabId ->
  find tabId (tabs s) = Some t ->
  Tab.calculationMode t = Some m ->
  calculationMode (switchTab tabId s) = m.
Proof.
  intros Hne Hfind Hm.
  destruct (switchTab_other tabId s Hne) as (-> & _ & _ & _ & _ & Hkeep & _).
  destruct (checkAutoFetchInterval_frame_ui
              (loadTabState tabId
                 (setItemActiveTabId
                    (with_activeTabId (Some tabId)
                       (if idTruthy (activeTabId s) then saveCurrentTabState s else s)))))
    as (_ & -> & _).
  unfold loadTabState, setItemActiveTabId. state_simpl.
  rewrite Hkeep, Hfind, Hm. unfold setTimeout.
  destruct (Bool.eqb _ _); reflexivity.
Qed.

(** X5: going to another tab and straight back brings the form back.
    With no load in progress, switching from the active tab [a] to a tab
    [b] and then to [a] again leaves [a] active with the form, the
    auto-price flag and the calculation mode as they were before the first
    switch, the symbol with its surrounding white space trimmed.  The
    record of [b] is what it was: the flush that the second switch would
    do is skipped, the load flag of the first one being still up. *)
Theorem switch_away_and_back (a b : string) (s : State) (ta tb : Tab.t) :
  isLoadingTabState s = false ->
  activeTabId s = Some a ->
  nonEmpty a = true ->
  a ≠ b ->
  find a (tabs s) = Some ta ->
  find b (tabs s) = Some tb ->
  let s2 := switchTab a (switchTab b s) in
  activeTabId s2 = Some a /\
  form s2
  = {| Form.stockSymbol := trim (Form.stockSymbol (form s));
       Form.entryPrice := Form.entryPrice (form s);
       Form.targetPrice := Form.targetPrice (form s);
       Form.quantity := Form.quantity (form s);
       Form.tpPercent := Form.tpPercent (form s);
       Form.slPercent := Form.slPercent (form s) |} /\
  autoPriceEnabled s2 = autoPriceEnabled s /\
  calculationMode s2 = calculationMode s /\
  find b (tabs s2) = Some tb /\
  ids s2 = ids s.
Proof.
  intros Hload Ha Hta Hab Hfa Hfb s2.
  assert (Hne1 : activeTabId s ≠ Some b) by congruence.
  destruct (switchTab_existing b s tb Hne1 Hfb)
    as (Hact1 & _ & Htabs1 & _ & _ & Hflag1 & _).
  rewrite Ha in Htabs1. cbn [idTruthy] in Htabs1. rewrite Hta in Htabs1.
  pose proof (find_flushed a s ta Hload Ha Hfa) as Hfa1. rewrite <- Htabs1 in Hfa1.
  assert (Hne2 : activeTabId (switchTab b s) ≠ Some a) by congruence.
  destruct (switchTab_existing a (switchTab b s) _ Hne2 Hfa1)
    as (Hact2 & _ & Htabs2 & Hform2 & Hauto2 & _).
  rewrite Hact1 in Htabs2.
  assert (Hskip : tabs s2 = tabs (switchTab b s)).
  { subst s2. rewrite Htabs2. destruct (idTruthy _); [| reflexivity].
    rewrite saveCurrentTabState_loading by exact Hflag1. reflexivity. }
  split; [exact Hact2 |]. split; [exact Hform2 |]. split; [exact Hauto2 |].
  split; [| split].
  - apply (switchTab_calculationMode a (switchTab b s) _ _ Hne2 Hfa1). reflexivity.
  - rewrite Hskip, Htabs1. rewrite find_after_flush by congruence. exact Hfb.
  - subst s2. destruct (switchTab_pointer a (switchTab b s)) as [_ ->].
    apply switchTab_pointer.
Qed.

Lemma switch_away_and_back_witness :
  activeTabId (switchTab "a" (switchTab "b" editedStore)) = Some "a" /\
  form (switchTab "a" (switchTab "b" editedStore))
  = {| Form.stockSymbol := trim (Form.stockSymbol (form editedStore));
       Form.entryPrice := Form.entryPrice (form editedStore);
       Form.targetPrice := Form.targetPrice (form editedStore);
       Form.quantity := Form.quantity (form editedStore);
       Form.tpPercent := Form.tpPercent (form editedStore);
       Form.slPercent := Form.slPercent (form editedStore) |} /\
  autoPriceEnabled (switchTab "a" (switchTab "b" editedStore))
  = autoPriceEnabled editedStore /\
  calculationMode (switchTab "a" (switchTab "b" editedStore))
  = calculationMode editedStore /\
  find "b" (tabs (switchTab "a" (switchTab "b" editedStore)))
  = Some (sampleTab "b" "TSLA" true) /\
  ids (switchTab "a" (switchTab "b" editedStore)) = ids editedStore.
Proof.
  apply (switch_away_and_back "a" "b" editedStore
           (sampleTab "a" "AAPL" false) (sampleTab "b" "TSLA" true)).
  - reflexivity.
  - reflexivity.
  - reflexivity.
  - discriminate.
  - reflexivity.
  - reflexivity.
Defined.

(* ===================================================================== *)
(** * What the events leave of the store *)
(* ===================================================================== *)

Lemma storeUntouched_refl (s : State) : storeUntouched s s.
Proof. repeat split. Qed.

Lemma storeUntouched_trans (s1 s2 s3 : State) :
  storeUntouched s1 s2 -> storeUntouched s2 s3 -> storeUntouched s1 s3.
Proof.
  intros (A1 & A2 & A3 & A4) (B1 & B2 & B3 & B4). repeat split; congruence.
Qed.

Lemma storeKept_refl (s : State) : storeKept s s.
Proof. unfold storeKept. auto. Qed.

Lemma storeKept_trans (s1 s2 s3 : State) :
  storeKept s1 s2 -> storeKept s2 s3 -> storeKept s1 s3.
Proof.
  intros (A1 & A2 & A3 & A4) (B1 & B2 & B3 & B4).
  split; [congruence |]. split; [congruence |]. auto.
Qed.

Lemma storeUntouched_kept (s s' : State) : storeUntouched s s' -> storeKept s s'.
Proof.
  intros (H1 & H2 & H3 & H4). unfold storeKept, ids, persistedInSync, symbolsTrimmed.
  rewrite H1, H2, H3, H4. auto.
Qed.

Lemma saveCurrentTabState_persisted (s : State) :
  persistedInSync s -> persistedInSync (saveCurrentTabState s).
Proof.
  intros H. unfold saveCurrentTabState.
  destruct (isLoadingTabState s); [exact H |].
  destruct (activeTabId s) as [a |] eqn:Ha; [| exact H].
  destruct (list_find _ (tabs s)) as [[i tab] |]; [| exact H].
  unfold renderTabs, saveTabsToStorage, persistedInSync. state_simpl.
  rewrite Ha. auto.
Qed.

Lemma saveCurrentTabState_kept (s : State) : storeKept s (saveCurrentTabState s).
Proof.
  destruct (ids_saveCurrentTabState s) as [H1 H2].
  split; [exact H1 |]. split; [exact H2 |]. split.
  - apply saveCurrentTabState_persisted.
  - apply saveCurrentTabState_symbolsTrimmed.
Qed.

Lemma debouncedSaveTabState_untouched (s : State) :
  storeUntouched s (debouncedSaveTabState s).
Proof.
  destruct (debouncedSaveTabState_frame s) as (_ & H1 & H2 & H3 & _).
  unfold storeUntouched. rewrite H1, H2, H3. auto.
Qed.

Lemma checkAutoFetchInterval_untouched (s : State) :
  storeUntouched s (checkAutoFetchInterval s).
Proof.
  destruct (checkAutoFetchInterval_frame s) as (H1 & H2 & H3 & _).
  unfold storeUntouched. rewrite H1, H2, H3. auto.
Qed.

Lemma loadTabState_untouched (tabId : string) (s : State) :
  storeUntouched s (loadTabState tabId s).
Proof.
  destruct (loadTabState_frame tabId s) as (H1 & H2 & H3 & _).
  unfold storeUntouched. rewrite H1, H2, H3. auto.
Qed.

Lemma fetchPriceForActiveTab_untouched (s : State) :
  storeUntouched s (fetchPriceForActiveTab s).
Proof.
  destruct (fetchPriceForActiveTab_frame s) as (H1 & H2 & H3 & _).
  unfold storeUntouched. rewrite H1, H2, H3. auto.
Qed.

Lemma fetchStockPrice_untouched (now : Z) (symbol : string) (s : State) :
  storeUntouched s (fetchStockPrice now symbol s).
Proof.
  unfold fetchStockPrice.
  destruct (negb _ || negb _); [apply storeUntouched_refl |].
  unfold getCachedPrice.
  destruct (Storage.stockPrice (localStorage s) !! toUpperCase symbol) as [data |];
    [| repeat split].
  destruct (now - Quote.timestamp data <? PRICE_CACHE_DURATION); [| repeat split].
  destruct (Quote.price data) as [price |]; [| apply storeUntouched_refl].
  unfold onEntryPriceInput.
  eapply storeUntouched_trans; [| apply debouncedSaveTabState_untouched].
  repeat split.
Qed.

Lemma cleanupOrphanedCache_untouched (s : State) :
  storeUntouched s (snd (cleanupOrphanedCache s)).
Proof.
  unfold cleanupOrphanedCache. cbn [snd]. rewrite removeStockPrice_fold. repeat split.
Qed.

Lemma fireTimeout_kept (now : Z) (h : positive) (s : State) :
  storeKept s (fireTimeout now h s).
Proof.
  unfold fireTimeout. destruct (pendingCallback h s) as [cb |]; [| apply storeKept_refl].
  set (s1 := with_timeouts _ s).
  assert (H1 : storeKept s s1) by (apply storeUntouched_kept; repeat split).
  destruct cb as [| | symbol].
  - eapply storeKept_trans; [exact H1 | apply saveCurrentTabState_kept].
  - eapply storeKept_trans; [exact H1 |]. apply storeUntouched_kept. repeat split.
  - eapply storeKept_trans; [exact H1 |].
    apply storeUntouched_kept, fetchStockPrice_untouched.
Qed.

Lemma setCalculationMode_kept (mode : CalcMode) (s : State) :
  storeKept s (setCalculationMode mode s).
Proof.
  unfold setCalculationMode.
  assert (H1 : storeKept s (with_calculationMode mode s))
    by (apply storeUntouched_kept; repeat split).
  destruct (idTruthy _); [| exact H1].
  eapply storeKept_trans; [exact H1 | apply saveCurrentTabState_kept].
Qed.

Lemma toggleAutoPrice_kept (now : Z) (s : State) : storeKept s (toggleAutoPrice now s).
Proof.
  unfold toggleAutoPrice.
  set (s1 := with_autoPriceEnabled (negb (autoPriceEnabled s)) s).
  set (s2 := if autoPriceEnabled s1 then _ else s1).
  assert (H1 : storeUntouched s s1) by repeat split.
  assert (H2 : storeUntouched s s2).
  { subst s2. destruct (autoPriceEnabled s1); [| exact H1].
    destruct (nonEmpty _); [| exact H1].
    eapply storeUntouched_trans; [exact H1 | apply fetchStockPrice_untouched]. }
  eapply storeKept_trans; [| apply storeUntouched_kept, checkAutoFetchInterval_untouched].
  eapply storeKept_trans; [apply storeUntouched_kept, H2 |].
  destruct (idTruthy _); [apply saveCurrentTabState_kept | apply storeKept_refl].
Qed.

Lemma onStockSymbolInput_untouched (value : string) (s : State) :
  storeUntouched s (onStockSymbolInput value s).
Proof.
  unfold onStockSymbolInput.
  set (s0 := with_stockSymbol value s).
  set (s1 := match symbolDebounceTimer s0 with
             | Some h => clearTimeout h s0 | None => s0 end).
  set (s2 := if autoPriceEnabled s1 && negb (nonEmpty (trim value))
             then with_entryPrice "" s1 else s1).
  set (s3 := if nonEmpty (trim value) && autoPriceEnabled s2
             then (let '(h, s') := setTimeout (CbFetchStockPrice (trim value)) s2 in
                   with_symbolDebounceTimer (Some h) s')
             else s2).
  assert (H3 : storeUntouched s s3).
  { subst s3 s2 s1 s0. unfold setTimeout, clearTimeout.
    destruct (symbolDebounceTimer _); destruct (_ && _); destruct (_ && _);
      repeat split. }
  destruct (idTruthy _); [| exact H3].
  eapply storeUntouched_trans; [exact H3 |].
  eapply storeUntouched_trans;
    [apply debouncedSaveTabState_untouched | apply checkAutoFetchInterval_untouched].
Qed.

Lemma onNumberInput_untouched (fld : NumberField) (value : string) (s : State) :
  storeUntouched s (onNumberInput fld value s).
Proof.
  unfold onNumberInput.
  eapply storeUntouched_trans; [| apply debouncedSaveTabState_untouched]. repeat split.
Qed.

Lemma intervalTick_untouched (h : positive) (s : State) :
  storeUntouched s (intervalTick h s).
Proof.
  unfold intervalTick. destruct (bool_decide _);
    [apply fetchPriceForActiveTab_untouched | apply storeUntouched_refl].
Qed.

(* ===================================================================== *)
(** * The shape of the structural operations *)
(* ===================================================================== *)

Lemma saveTabsToStorage_persisted (s : State) : persistedInSync (saveTabsToStorage s).
Proof. split; reflexivity. Qed.

Lemma storeUntouched_persisted (s s' : State) :
  storeUntouched s s' -> persistedInSync s -> persistedInSync s'.
Proof. intros H. apply storeUntouched_kept in H. apply H. Qed.

(** [addNewTab] either refuses, or appends the new record to the flushed
    collection and makes it the active one. *)
Lemma addNewTab_shape (now : Z) (random : string) (created : Z) (s : State) :
  addNewTab now random created s
  = alert "Maximum 20 tabs allowed. Please close some tabs to add new ones." s \/
  exists s1 newTab,
    storeKept s s1 /\ pollerUntouched s s1 /\
    Tab.id newTab = generateTabId now random /\ Tab.stockSymbol newTab = "" /\
    addNewTab now random created s
    = clearCalculatorForm
        (saveTabsToStorage
           (with_activeTabId (Some (Tab.id newTab)) (with_tabs (tabs s1 ++ [newTab]) s1))).
Proof.
  unfold addNewTab. destruct (MAX_TABS <=? length (tabs s))%nat; [left; reflexivity |].
  right. eexists _, _. split; [| split; [| split; [| split; [| reflexivity]]]].
  - destruct (idTruthy _); [apply saveCurrentTabState_kept | apply storeKept_refl].
  - destruct (idTruthy _);
      [apply saveCurrentTabState_pollerUntouched | apply pollerUntouched_refl].
  - reflexivity.
  - reflexivity.
Qed.

Lemma addNewTab_persisted (now : Z) (random : string) (created : Z) (s : State) :
  persistedInSync s -> persistedInSync (addNewTab now random created s).
Proof.
  intros H. destruct (addNewTab_shape now random created s)
    as [-> | (s1 & newTab & _ & _ & _ & _ & ->)]; [exact H |].
  split; reflexivity.
Qed.

Lemma addNewTab_symbolsTrimmed (now : Z) (random : string) (created : Z) (s : State) :
  symbolsTrimmed s -> symbolsTrimmed (addNewTab now random created s).
Proof.
  intros H. destruct (addNewTab_shape now random created s)
    as [-> | (s1 & newTab & (_ & _ & _ & Hk) & _ & _ & Hsym & ->)]; [exact H |].
  unfold symbolsTrimmed, clearCalculatorForm, saveTabsToStorage. state_simpl.
  apply Forall_app. split; [apply Hk, H |].
  apply Forall_singleton. rewrite Hsym. reflexivity.
Qed.

Lemma switchTab_persisted (tabId : string) (s : State) :
  persistedInSync s -> persistedInSync (switchTab tabId s).
Proof.
  intros H. destruct (decide (activeTabId s = Some tabId)) as [Heq | Hne].
  { rewrite switchTab_same by exact Heq. exact H. }
  destruct (switchTab_other tabId s Hne) as (_ & Htabs & Hact & Hst & Hsaved & _).
  assert (Hf : persistedInSync (if idTruthy (activeTabId s)
                                then saveCurrentTabState s else s)).
  { destruct (idTruthy _); [apply saveCurrentTabState_persisted, H | exact H]. }
  split.
  - rewrite Hsaved, Htabs. apply Hf.
  - rewrite Hst, Hact. reflexivity.
Qed.

(** The four ways [closeTab] ends. *)
Lemma closeTab_shape (confirmAnswer : bool) (tabId : string) (s : State) :
  closeTab confirmAnswer tabId s
  = Done (alert "Cannot close the last tab. At least one tab must remain open." s) \/
  closeTab confirmAnswer tabId s = Done s \/
  exists s1 s2,
    (s1 = s \/ exists symbol, s1 = removeStockPrice symbol s) /\
    s2 = with_tabs (fst (splice (tabs s) (findIndex tabId (tabs s)) 1 [])) s1 /\
    ((exists s',
        (s' = s2 \/
         exists t, s' = loadTabState (Tab.id t)
                          (setItemActiveTabId (with_activeTabId (Some (Tab.id t)) s2))) /\
        closeTab confirmAnswer tabId s
        = Done (checkAutoFetchInterval (saveTabsToStorage s'))) \/
     (closeTab confirmAnswer tabId s = Threw s2 /\ tabs s = [])).
Proof.
  unfold closeTab.
  destruct (Nat.eqb_spec (length (tabs s)) 1) as [| Hlen]; [auto |].
  destruct (_ && negb confirmAnswer); [auto |].
  right. right.
  set (s1 := match find tabId (tabs s) with
             | Some t => if nonEmpty (Tab.stockSymbol t)
                         then removeStockPrice (toUpperCase (Tab.stockSymbol t)) s
                         else s
             | None => s end).
  assert (H1 : (s1 = s \/ exists symbol, s1 = removeStockPrice symbol s) /\
               tabs s1 = tabs s).
  { subst s1. destruct (find tabId (tabs s)) as [t |]; [| auto].
    destruct (nonEmpty _); [| auto]. split; [right; eauto | reflexivity]. }
  destruct H1 as [H1 Ht1]. rewrite Ht1.
  set (s2 := with_tabs _ s1).
  exists s1, s2. split; [exact H1 |]. split; [reflexivity |].
  unfold renderTabs.
  destruct (bool_decide _); [| left; eexists; split; [left |]; reflexivity].
  destruct (tabs s2 !! _) as [t |] eqn:Hlook.
  { left. eexists. split; [right; exists t |]; reflexivity. }
  right. split; [reflexivity |].
  subst s2. state_simpl. apply lookup_ge_None in Hlook.
  destruct (findIndex_cases tabId (tabs s)) as [(Hidx & _) | (i & x & Hidx & _ & _ & Hx & _)];
    rewrite Hidx in Hlook.
  - rewrite splice_minus_one in Hlook. rewrite length_take in Hlook.
    apply length_zero_iff_nil. lia.
  - rewrite (splice_remove _ _ _ Hx) in Hlook. cbn [fst] in Hlook.
    pose proof (lookup_lt_Some _ _ _ Hx) as Hlt.
    rewrite length_delete in Hlook by eauto. lia.
Qed.

Lemma closeTab_done (confirmAnswer : bool) (tabId : string) (s : State) :
  tabs s ≠ [] -> exists s', closeTab confirmAnswer tabId s = Done s'.
Proof.
  intros Hne. destruct (closeTab_shape confirmAnswer tabId s)
    as [-> | [-> | (s1 & s2 & _ & _ & [(s' & _ & ->) | [_ Hnil]])]]; eauto.
  contradiction.
Qed.

Lemma closeTab_persisted (confirmAnswer : bool) (tabId : string) (s : State) :
  tabs s ≠ [] -> persistedInSync s ->
  persistedInSync (stateOf (closeTab confirmAnswer tabId s)).
Proof.
  intros Hne H. destruct (closeTab_shape confirmAnswer tabId s)
    as [-> | [-> | (s1 & s2 & _ & _ & [(s' & _ & ->) | [_ Hnil]])]];
    cbn [stateOf]; try exact H; [| contradiction].
  eapply storeUntouched_persisted; [apply checkAutoFetchInterval_untouched |].
  apply saveTabsToStorage_persisted.
Qed.

Lemma reorderTabs_shape (movedId beforeId : string) (s : State) :
  reorderTabs movedId beforeId s = s \/
  exists l, l ≡ₚ tabs s /\
            reorderTabs movedId beforeId s = saveTabsToStorage (with_tabs l s).
Proof.
  destruct (findIndex_cases movedId (tabs s)) as [(H1 & _) | (i & x & H1 & _ & _ & Hx & _)].
  { left. rewrite reorderTabs_missing; auto. }
  destruct (findIndex_cases beforeId (tabs s)) as [(H2 & _) | (j & y & H2 & _ & _ & Hy & _)].
  { left. rewrite reorderTabs_missing; auto. }
  pose proof (lookup_lt_Some _ _ _ Hy) as Hlt.
  right. exists (moveTo (tabs s) i j x). split.
  - eapply moveTo_Permutation; eassumption.
  - apply reorderTabs_present; assumption.
Qed.

Lemma handleDrop_shape (dropTarget : option string) (s : State) :
  handleDrop dropTarget s = s \/
  exists movedId beforeId, handleDrop dropTarget s = reorderTabs movedId beforeId s.
Proof.
  unfold handleDrop. destruct dropTarget as [d |]; [| auto].
  destruct (bool_decide _); [| auto].
  destruct (draggedTabId s) as [m |]; [right; eauto | auto].
Qed.

(** The arrow keys end normally, on the same state or after a switch to
    a tab of the collection. *)
Lemma activeIndex_range (s : State) :
  activeIndex s = -1 \/ 0 <= activeIndex s < Z.of_nat (length (tabs s)).
Proof.
  unfold activeIndex. destruct (activeTabId s) as [a |]; [| auto].
  destruct (findIndex_cases a (tabs s)) as [(-> & _) | (i & t & -> & _ & _ & Hi & _)];
    [auto |].
  right. apply lookup_lt_Some in Hi. lia.
Qed.

Lemma switchToNextTab_shape (s : State) :
  switchToNextTab s = Done s \/
  exists t, t ∈ tabs s /\ switchToNextTab s = Done (switchTab (Tab.id t) s).
Proof.
  unfold switchToNextTab. destruct (Nat.leb_spec (length (tabs s)) 1); [auto |].
  destruct (Z.eqb_spec (activeIndex s) (-1)); [auto |].
  destruct (activeIndex_range s) as [? | Hr]; [contradiction |].
  destruct (tabs s !! _) as [t |] eqn:Ht.
  - right. exists t. split; [| reflexivity]. apply list_elem_of_lookup. eauto.
  - exfalso. apply lookup_ge_None in Ht.
    pose proof (Z.rem_bound_pos (activeIndex s + 1) (Z.of_nat (length (tabs s)))).
    lia.
Qed.

Lemma switchToPrevTab_shape (s : State) :
  switchToPrevTab s = Done s \/
  exists t, t ∈ tabs s /\ switchToPrevTab s = Done (switchTab (Tab.id t) s).
Proof.
  unfold switchToPrevTab. destruct (Nat.leb_spec (length (tabs s)) 1); [auto |].
  destruct (Z.eqb_spec (activeIndex s) (-1)); [auto |].
  destruct (activeIndex_range s) as [? | Hr]; [contradiction |].
  destruct (tabs s !! _) as [t |] eqn:Ht.
  - right. exists t. split; [| reflexivity]. apply list_elem_of_lookup. eauto.
  - exfalso. apply lookup_ge_None in Ht.
    destruct (Z.eqb_spec (activeIndex s) 0); lia.
Qed.

Lemma onKeyDown_shape (isInputFocused : bool) (key : string) (s : State) :
  onKeyDown isInputFocused key s = Done s \/
  exists t, t ∈ tabs s /\
            onKeyDown isInputFocused key s = Done (switchTab (Tab.id t) s).
Proof.
  unfold onKeyDown. destruct isInputFocused; [auto |].
  destruct (key =? "ArrowRight")%string; [apply switchToNextTab_shape |].
  destruct (key =? "ArrowLeft")%string; [apply switchToPrevTab_shape | auto].
Qed.

(* ===================================================================== *)
(** * The store along the events of the page *)
(* ===================================================================== *)

Lemma storeKept_valid (s s' : State) : storeKept s s' -> validStore s -> validStore s'.
Proof.
  intros (H1 & H2 & _) Hv. unfold validStore, uniqueIds, activeResolves in *.
  rewrite H1, H2. exact Hv.
Qed.

Lemma storeKept_bounds (s s' : State) : storeKept s s' -> withinBounds s -> withinBounds s'.
Proof.
  intros (H1 & _) Hb. unfold withinBounds in *. rewrite <- length_ids, H1, length_ids.
  exact Hb.
Qed.

(** The events that are neither a create, a switch, a close, a reorder
    nor a clear keep the ids and the pointer. *)
Lemma dispatch_kept (e : PageEvent) (s : State) :
  match e with
  | EvAddTab _ _ _ | EvTabClick _ | EvTabCloseClick _ _ | EvDrop _
  | EvKeyDown _ _ | EvClearAll _ _ _ _ => True
  | _ => exists s', dispatch e s = Done s' /\ storeKept s s'
  end.
Proof.
  destruct e; cbn [dispatch]; try exact I; eexists; (split; [reflexivity |]).
  - unfold handleDragStart. destruct (_ <$> _); apply storeUntouched_kept; repeat split.
  - apply storeUntouched_kept. repeat split.
  - apply setCalculationMode_kept.
  - apply toggleAutoPrice_kept.
  - apply storeUntouched_kept, onStockSymbolInput_untouched.
  - apply storeUntouched_kept, onNumberInput_untouched.
  - apply fireTimeout_kept.
  - apply storeUntouched_kept, intervalTick_untouched.
  - apply storeUntouched_kept, cleanupOrphanedCache_untouched.
Qed.

Lemma clearAllTabs_structure (confirmAnswer : bool) (now : Z) (random : string)
    (created : Z) (s : State) :
  validStore s -> withinBounds s ->
  validStore (clearAllTabs confirmAnswer now random created s) /\
  withinBounds (clearAllTabs confirmAnswer now random created s).
Proof.
  intros Hv Hb. destruct confirmAnswer; [| auto].
  rewrite clearAllTabs_confirmed.
  unfold clearCalculatorForm, saveTabsToStorage, validStore, uniqueIds,
    activeResolves, withinBounds, ids. state_simpl. cbn [map Tab.id length].
  split; [split |].
  - apply NoDup_singleton.
  - eexists. split; [reflexivity |]. apply list_elem_of_singleton. reflexivity.
  - unfold MAX_TABS. lia.
Qed.

Lemma lookup_id_elem (s : State) (i : nat) (t : Tab.t) :
  tabs s !! i = Some t -> Tab.id t ∈ ids s /\ t ∈ tabs s /\ tabs s ≠ [].
Proof.
  intros Hi. assert (Ht : t ∈ tabs s) by (apply list_elem_of_lookup; eauto).
  split; [| split; [exact Ht |]].
  - unfold ids. apply list_elem_of_fmap. eauto.
  - intros Hnil. rewrite Hnil in Ht. inversion Ht.
Qed.

Lemma switchTab_valid (tabId : string) (s : State) :
  tabId ∈ ids s -> validStore s -> validStore (switchTab tabId s).
Proof.
  intros Hin [Huniq _]. destruct (switchTab_pointer tabId s) as [Hact Hids].
  unfold validStore, uniqueIds, activeResolves. rewrite Hact, Hids. eauto.
Qed.

Lemma switchTab_bounds (tabId : string) (s : State) :
  withinBounds s -> withinBounds (switchTab tabId s).
Proof.
  intros Hb. destruct (switchTab_pointer tabId s) as [_ Hids].
  unfold withinBounds in *. rewrite <- length_ids, Hids, length_ids. exact Hb.
Qed.

Lemma dispatch_keeps_bounds (e : PageEvent) (s : State) :
  withinBounds s -> withinBounds (stateOf (dispatch e s)).
Proof.
  intros Hb. pose proof (dispatch_kept e s) as Hk.
  destruct e;
    try (destruct Hk as (s' & -> & Hk); exact (storeKept_bounds _ _ Hk Hb));
    cbn [dispatch stateOf].
  - apply (step_keeps_bounds (OpCreate now random created) s Hb).
  - unfold onTabClick. destruct (tabs s !! i); [apply switchTab_bounds, Hb | exact Hb].
  - unfold onTabCloseClick. destruct (tabs s !! i) as [t |]; [| exact Hb].
    apply (step_keeps_bounds (OpClose confirmAnswer (Tab.id t)) s Hb).
  - destruct (handleDrop_shape (Tab.id <$> tabs s !! i) s) as [-> | (m & b & ->)];
      [exact Hb |].
    apply (step_keeps_bounds (OpReorder m b) s Hb).
  - destruct (onKeyDown_shape isInputFocused key s) as [-> | (t & _ & ->)];
      cbn [stateOf]; [exact Hb | apply switchTab_bounds, Hb].
  - destruct confirmAnswer; [| exact Hb]. rewrite clearAllTabs_confirmed.
    unfold clearCalculatorForm, saveTabsToStorage, withinBounds, MAX_TABS.
    state_simpl. cbn [length]. lia.
Qed.

Lemma dispatch_keeps_valid (e : PageEvent) (s : State) :
  validStore s -> freshAt e s -> validStore (stateOf (dispatch e s)).
Proof.
  intros Hv Hfresh. pose proof (dispatch_kept e s) as Hk.
  destruct e;
    try (destruct Hk as (s' & -> & Hk); exact (storeKept_valid _ _ Hk Hv));
    cbn [dispatch stateOf freshAt] in *.
  - apply addNewTab_validStore; assumption.
  - unfold onTabClick. destruct (tabs s !! i) as [t |] eqn:Hi; [| exact Hv].
    apply switchTab_valid; [| exact Hv]. eapply lookup_id_elem, Hi.
  - unfold onTabCloseClick. destruct (tabs s !! i) as [t |] eqn:Hi; [| exact Hv].
    apply closeTab_validStore; [exact Hv |]. eapply lookup_id_elem, Hi.
  - destruct (handleDrop_shape (Tab.id <$> tabs s !! i) s) as [-> | (m & b & ->)];
      [exact Hv | apply reorderTabs_validStore, Hv].
  - destruct (onKeyDown_shape isInputFocused key s) as [-> | (t & Ht & ->)];
      cbn [stateOf]; [exact Hv |].
    apply switchTab_valid; [| exact Hv]. unfold ids. apply list_elem_of_fmap. eauto.
  - destruct confirmAnswer; [| exact Hv]. rewrite clearAllTabs_confirmed.
    unfold clearCalculatorForm, saveTabsToStorage, validStore, uniqueIds,
      activeResolves, ids. state_simpl. cbn [map Tab.id]. split.
    + apply NoDup_singleton.
    + eexists. split; [reflexivity |]. apply list_elem_of_singleton. reflexivity.
Qed.

Lemma dispatch_done (e : PageEvent) (s : State) :
  tabs s ≠ [] -> exists s', dispatch e s = Done s'.
Proof.
  intros Hne. destruct e; cbn [dispatch]; eauto.
  - unfold onTabCloseClick. destruct (tabs s !! i); [| eauto].
    apply closeTab_done, Hne.
  - destruct (onKeyDown_shape isInputFocused key s) as [-> | (t & _ & ->)]; eauto.
Qed.

Lemma withinBounds_nonempty (s : State) : withinBounds s -> tabs s ≠ [].
Proof. intros [H _] Hnil. rewrite Hnil in H. cbn in H. lia. Qed.

(** X6: the store along the events of the page.  From a store whose ids
    are pairwise distinct, whose pointer names one of its tabs and which
    holds between 1 and 20 tabs, every sequence of page events (clicks on
    the tab strip and its close buttons, drags, arrow keys, the add and
    clear buttons, edits of the form, the toggles, timers firing) in which
    [generateTabId] never repeats an id of the collection leads to such a
    store again, and none of its handlers ends with an exception: the
    handlers of the tab strip only ever pass ids of tabs that exist. *)
Theorem page_events_keep_store_valid (es : list PageEvent) (s : State) :
  validStore s ->
  withinBounds s ->
  freshAlong es s ->
  validStore (runEvents es s) /\
  withinBounds (runEvents es s) /\
  endNormally es s.
Proof.
  revert s. induction es as [| e rest IH]; intros s Hv Hb Hfresh.
  - cbn. auto.
  - destruct Hfresh as [Hf Hrest]. cbn [runEvents fold_left endNormally].
    destruct (IH (stateOf (dispatch e s))) as (H1 & H2 & H3).
    + apply dispatch_keeps_valid; assumption.
    + apply dispatch_keeps_bounds; assumption.
    + exact Hrest.
    + split; [exact H1 |]. split; [exact H2 |]. split; [| exact H3].
      apply dispatch_done, withinBounds_nonempty, Hb.
Qed.

Lemma page_events_keep_store_valid_witness :
  validStore (runEvents sampleEvents twoTabStore) /\
  withinBounds (runEvents sampleEvents twoTabStore) /\
  endNormally sampleEvents twoTabStore.
Proof.
  apply (page_events_keep_store_valid sampleEvents twoTabStore).
  - exact twoTabStore_valid.
  - unfold withinBounds. vm_compute. lia.
  - cbn [sampleEvents freshAlong freshAt]. repeat split.
    + apply (bool_decide_unpack _). vm_compute. exact I.
Defined.

(* ===================================================================== *)
(** * The persisted copy along the events of the page *)
(* ===================================================================== *)

Lemma dispatch_keeps_persisted (e : PageEvent) (s : State) :
  tabs s ≠ [] -> persistedInSync s -> persistedInSync (stateOf (dispatch e s)).
Proof.
  intros Hne Hp. pose proof (dispatch_kept e s) as Hk.
  destruct e;
    try (destruct Hk as (s' & -> & (_ & _ & Hk & _)); exact (Hk Hp));
    cbn [dispatch stateOf].
  - apply addNewTab_persisted, Hp.
  - unfold onTabClick. destruct (tabs s !! i); [apply switchTab_persisted, Hp | exact Hp].
  - unfold onTabCloseClick. destruct (tabs s !! i) as [t |]; [| exact Hp].
    apply closeTab_persisted; assumption.
  - destruct (handleDrop_shape (Tab.id <$> tabs s !! i) s) as [-> | (m & b & ->)];
      [exact Hp |].
    destruct (reorderTabs_shape m b s) as [-> | (l & _ & ->)];
      [exact Hp | apply saveTabsToStorage_persisted].
  - destruct (onKeyDown_shape isInputFocused key s) as [-> | (t & _ & ->)];
      cbn [stateOf]; [exact Hp | apply switchTab_persisted, Hp].
  - destruct confirmAnswer; [| exact Hp]. rewrite clearAllTabs_confirmed.
    split; reflexivity.
Qed.

(** X7: what is persisted is what is live.  If the stored collection and
    the stored pointer are those of the script and there is at least one
    tab and at most 20, then after any sequence of page events the stored
    collection and the stored pointer are again those of the script: every
    handler that changes a record, the order, the collection or the
    pointer writes the change through before it returns. *)
Theorem page_events_keep_storage_in_sync (es : list PageEvent) (s : State) :
  withinBounds s ->
  persistedInSync s ->
  persistedInSync (runEvents es s).
Proof.
  revert s. induction es as [| e rest IH]; intros s Hb Hp; [exact Hp |].
  cbn [runEvents fold_left]. apply IH.
  - apply dispatch_keeps_bounds, Hb.
  - apply dispatch_keeps_persisted; [apply withinBounds_nonempty, Hb | exact Hp].
Qed.

Lemma page_events_keep_storage_in_sync_witness :
  persistedInSync (runEvents sampleEvents twoTabStore).
Proof.
  apply (page_events_keep_storage_in_sync sampleEvents twoTabStore).
  - unfold withinBounds. vm_compute. lia.
  - split; reflexivity.
Defined.

(* ===================================================================== *)
(** * The poller along the events of the page *)
(* ===================================================================== *)

Lemma Forall_splice_remove {A} (P : A -> Prop) (l : list A) (start : Z) (n : nat) :
  Forall P l -> Forall P (fst (splice l start n [])).
Proof.
  intros H. unfold splice. cbn [fst app].
  apply Forall_app. split; [apply Forall_take, H | apply Forall_drop, H].
Qed.

Lemma closeTab_symbolsTrimmed (confirmAnswer : bool) (tabId : string) (s : State) :
  symbolsTrimmed s -> symbolsTrimmed (stateOf (closeTab confirmAnswer tabId s)).
Proof.
  intros H. destruct (closeTab_shape confirmAnswer tabId s)
    as [-> | [-> | (s1 & s2 & _ & Hs2 & [(s' & Hs' & ->) | [-> _]])]];
    cbn [stateOf]; try exact H.
  - unfold symbolsTrimmed.
    destruct (checkAutoFetchInterval_frame (saveTabsToStorage s')) as (-> & _).
    unfold saveTabsToStorage. state_simpl.
    assert (Ht : tabs s' = tabs s2).
    { destruct Hs' as [-> | (t & ->)]; [reflexivity |].
      destruct (loadTabState_frame (Tab.id t)
                  (setItemActiveTabId (with_activeTabId (Some (Tab.id t)) s2)))
        as (-> & _). reflexivity. }
    rewrite Ht, Hs2. state_simpl. apply Forall_splice_remove, H.
  - unfold symbolsTrimmed. rewrite Hs2. state_simpl. apply Forall_splice_remove, H.
Qed.

Lemma dispatch_keeps_symbolsTrimmed (e : PageEvent) (s : State) :
  symbolsTrimmed s -> symbolsTrimmed (stateOf (dispatch e s)).
Proof.
  intros Ht. pose proof (dispatch_kept e s) as Hk.
  destruct e;
    try (destruct Hk as (s' & -> & (_ & _ & _ & Hk)); exact (Hk Ht));
    cbn [dispatch stateOf].
  - apply addNewTab_symbolsTrimmed, Ht.
  - unfold onTabClick. destruct (tabs s !! i);
      [apply switchTab_keeps_symbolsTrimmed, Ht | exact Ht].
  - unfold onTabCloseClick. destruct (tabs s !! i) as [t |]; [| exact Ht].
    apply closeTab_symbolsTrimmed, Ht.
  - destruct (handleDrop_shape (Tab.id <$> tabs s !! i) s) as [-> | (m & b & ->)];
      [exact Ht |].
    destruct (reorderTabs_Permutation m b s) as [Hperm _].
    unfold symbolsTrimmed. rewrite Hperm. exact Ht.
  - destruct (onKeyDown_shape isInputFocused key s) as [-> | (t & _ & ->)];
      cbn [stateOf]; [exact Ht | apply switchTab_keeps_symbolsTrimmed, Ht].
  - destruct confirmAnswer; [| exact Ht]. rewrite clearAllTabs_confirmed.
    unfold symbolsTrimmed, clearCalculatorForm, saveTabsToStorage. state_simpl.
    apply Forall_singleton. reflexivity.
Qed.

Ltac poller_frame :=
  first [apply pollerUntouched_refl | (repeat split; cbn; lia)].

(** Every event either leaves the poller alone or ends by evaluating the
    poller rule on a state whose poller it has left alone. *)
Lemma dispatch_poller_shape (e : PageEvent) (s : State) :
  pollerUntouched s (stateOf (dispatch e s)) \/
  exists s3, stateOf (dispatch e s) = checkAutoFetchInterval s3 /\ pollerUntouched s s3.
Proof.
  assert (Hswitch : forall tabId,
            pollerUntouched s (switchTab tabId s) \/
            exists s3, switchTab tabId s = checkAutoFetchInterval s3 /\
                       pollerUntouched s s3).
  { intros tabId. destruct (decide (activeTabId s = Some tabId)) as [Heq | Hne].
    - left. rewrite switchTab_same by exact Heq. apply pollerUntouched_refl.
    - right. apply switchTab_reevaluates, Hne. }
  destruct e; cbn [dispatch stateOf].
  - left. destruct (addNewTab_shape now random created s)
      as [-> | (s1 & newTab & _ & (A & B & C & D) & _ & _ & ->)].
    + poller_frame.
    + repeat split; assumption.
  - unfold onTabClick. destruct (tabs s !! i); [apply Hswitch |].
    left. poller_frame.
  - unfold onTabCloseClick. destruct (tabs s !! i) as [t |];
      [| left; poller_frame].
    destruct (closeTab_reevaluates confirmAnswer (Tab.id t) s)
      as [(s3 & -> & H3) | [-> | [-> | (s2 & Hthrew)]]]; cbn [stateOf].
    + right. eauto.
    + left. poller_frame.
    + left. poller_frame.
    + left. destruct (closeTab_shape confirmAnswer (Tab.id t) s)
        as [H | [H | (s1 & s2' & H1 & Hs2 & [(s' & _ & H) | [H _]])]];
        rewrite H in Hthrew; try discriminate.
      rewrite H. cbn [stateOf]. rewrite Hs2.
      destruct H1 as [-> | (symbol & ->)]; repeat split; cbn; lia.
  - left. unfold handleDragStart. destruct (_ <$> _); poller_frame.
  - left. destruct (handleDrop_shape (Tab.id <$> tabs s !! i) s) as [-> | (m & b & ->)];
      [poller_frame |].
    destruct (reorderTabs_shape m b s) as [-> | (l & _ & ->)]; poller_frame.
  - left. poller_frame.
  - destruct (onKeyDown_shape isInputFocused key s) as [-> | (t & _ & ->)];
      cbn [stateOf]; [left; poller_frame | apply Hswitch].
  - left. destruct confirmAnswer; [| poller_frame].
    rewrite clearAllTabs_confirmed. poller_frame.
  - left. unfold setCalculationMode. destruct (idTruthy _);
      [| poller_frame].
    eapply pollerUntouched_trans; [| apply saveCurrentTabState_pollerUntouched].
    poller_frame.
  - right. apply toggleAutoPrice_reevaluates.
  - destruct (idTruthy (activeTabId s)) eqn:Hact.
    + right. apply onStockSymbolInput_reevaluates, Hact.
    + left. unfold onStockSymbolInput.
      set (s0 := with_stockSymbol value s).
      set (s1 := match symbolDebounceTimer s0 with
                 | Some h => clearTimeout h s0 | None => s0 end).
      set (s2 := if autoPriceEnabled s1 && negb (nonEmpty (trim value))
                 then with_entryPrice "" s1 else s1).
      set (s4 := if nonEmpty (trim value) && autoPriceEnabled s2
                 then (let '(h, s') := setTimeout (CbFetchStockPrice (trim value)) s2 in
                       with_symbolDebounceTimer (Some h) s')
                 else s2).
      assert (H4 : pollerUntouched s s4 /\ activeTabId s4 = activeTabId s).
      { subst s4 s2 s1 s0. unfold setTimeout, clearTimeout.
        destruct (symbolDebounceTimer _); destruct (_ && _); destruct (_ && _);
          repeat split; cbn; lia. }
      destruct H4 as [H4 A4]. rewrite A4, Hact. exact H4.
  - left. unfold onNumberInput.
    eapply pollerUntouched_trans; [| apply debouncedSaveTabState_frame].
    poller_frame.
  - left. unfold fireTimeout. destruct (pendingCallback h s) as [cb |];
      [| poller_frame].
    destruct cb as [| | symbol].
    + eapply pollerUntouched_trans; [| apply saveCurrentTabState_pollerUntouched].
      poller_frame.
    + poller_frame.
    + eapply pollerUntouched_trans; [| apply fetchStockPrice_pollerUntouched].
      poller_frame.
  - left. unfold intervalTick. destruct (bool_decide _); [| poller_frame].
    destruct (fetchPriceForActiveTab_frame s) as (_ & _ & _ & _ & F5 & F6 & F7 & F8 & _).
    repeat split; try assumption. rewrite F8. lia.
  - left. unfold cleanupOrphanedCache. cbn [snd]. rewrite removeStockPrice_fold.
    poller_frame.
Qed.

Lemma checkAutoFetchInterval_keeps_logBounded (s : State) :
  pollerConsistent s -> symbolsTrimmed s -> logBounded s ->
  logBounded (checkAutoFetchInterval s).
Proof.
  intros Hc Htrim Hlog. rewrite checkAutoFetchInterval_cases. unfold logBounded in *.
  destruct (hasAutoPrice s) eqn:Hhas.
  - apply hasAutoPrice_inv in Hhas as (t & Hf & Ha & Hs).
    assert (Ht : trim (Tab.stockSymbol t) = Tab.stockSymbol t).
    { unfold symbolsTrimmed in Htrim. rewrite Forall_forall in Htrim.
      apply Htrim, findActive_elem, Hf. }
    destruct (autoFetchIntervalId s) as [h |] eqn:Hid.
    + rewrite (startAutoFetchInterval_running s h t Hc Hid Hf Ha Hs Ht). state_simpl.
      repeat (apply Forall_cons; split; [cbn; lia |]). exact Hlog.
    + pose proof (live_intervals_idle s Hc Hid) as Hlive.
      rewrite (startAutoFetchInterval_idle s t Hid Hlive Hf Ha Hs Ht). state_simpl.
      apply Forall_cons. split; [cbn; lia | exact Hlog].
  - destruct (autoFetchIntervalId s) as [h |] eqn:Hid; [| exact Hlog].
    rewrite (stopAutoFetchInterval_running s h Hc Hid). state_simpl.
    apply Forall_cons. split; [cbn; lia | exact Hlog].
Qed.

Lemma pollerUntouched_logBounded (s s' : State) :
  pollerUntouched s s' -> logBounded s -> logBounded s'.
Proof. intros (_ & _ & H & _). unfold logBounded. rewrite H. auto. Qed.

Lemma dispatch_keeps_poller (e : PageEvent) (s : State) :
  pollerConsistent s -> symbolsTrimmed s -> logBounded s ->
  pollerConsistent (stateOf (dispatch e s)) /\ logBounded (stateOf (dispatch e s)).
Proof.
  intros Hc Ht Hlog.
  pose proof (dispatch_keeps_symbolsTrimmed e s Ht) as Ht'.
  destruct (dispatch_poller_shape e s) as [Hp | (s3 & Heq & Hp)].
  - split; [eapply pollerUntouched_consistent | eapply pollerUntouched_logBounded];
      eassumption.
  - rewrite Heq in *.
    assert (Ht3 : symbolsTrimmed s3).
    { unfold symbolsTrimmed in *.
      destruct (checkAutoFetchInterval_frame s3) as (C1 & _). rewrite <- C1. exact Ht'. }
    assert (Hc3 : pollerConsistent s3) by (eapply pollerUntouched_consistent; eassumption).
    assert (Hl3 : logBounded s3) by (eapply pollerUntouched_logBounded; eassumption).
    split.
    + apply checkAutoFetchInterval_keeps_consistent; assumption.
    + apply checkAutoFetchInterval_keeps_logBounded; assumption.
Qed.

Lemma pollerConsistent_at_most_one (s : State) :
  pollerConsistent s -> (length (intervals s) <= 1)%nat.
Proof.
  intros [Hlive _]. destruct (intervals s) as [| h r] eqn:E; [cbn; lia |].
  destruct (Hlive h) as [H _]; [left |]. injection H as ->. cbn. lia.
Qed.

(** X8: at most one interval, whatever the page does.  From a state whose
    interval handles are accounted for, whose records hold their symbols
    trimmed and in which the browser never held two intervals, every
    sequence of page events leads to such a state again: after every
    event, and after every [setInterval] and [clearInterval] call made on
    the way, at most one polling interval is live.  This holds for all the
    events, also those that never evaluate the poller rule (adding,
    reordering, clearing, editing a number) and for timers firing in any
    order. *)
Theorem page_events_keep_one_interval (es : list PageEvent) (s : State) :
  pollerConsistent s ->
  symbolsTrimmed s ->
  logBounded s ->
  pollerConsistent (runEvents es s) /\
  symbolsTrimmed (runEvents es s) /\
  logBounded (runEvents es s) /\
  (length (intervals (runEvents es s)) <= 1)%nat.
Proof.
  revert s. induction es as [| e rest IH]; intros s Hc Ht Hlog.
  - cbn [runEvents fold_left].
    split; [exact Hc |]. split; [exact Ht |]. split; [exact Hlog |].
    apply pollerConsistent_at_most_one, Hc.
  - cbn [runEvents fold_left].
    destruct (dispatch_keeps_poller e s Hc Ht Hlog) as [Hc' Hlog'].
    apply IH; [exact Hc' | apply dispatch_keeps_symbolsTrimmed, Ht | exact Hlog'].
Qed.

Lemma page_events_keep_one_interval_witness :
  pollerConsistent (runEvents sampleEvents twoTabStore) /\
  symbolsTrimmed (runEvents sampleEvents twoTabStore) /\
  logBounded (runEvents sampleEvents twoTabStore) /\
  (length (intervals (runEvents sampleEvents twoTabStore)) <= 1)%nat.
Proof.
  apply (page_events_keep_one_interval sampleEvents twoTabStore).
  - apply pollerConsistent_idle; reflexivity.
  - unfold symbolsTrimmed. repeat constructor.
  - unfold logBounded. constructor.
Defined.

(* ===================================================================== *)
(** * The poller rule after each of its events, on every state of the page *)
(* ===================================================================== *)







(* ===================================================================== *)
(** * The pending timeouts along the events of the page *)
(* ===================================================================== *)

Ltac timers_frame := repeat split; cbn; lia.

Lemma timersUntouched_refl (s : State) : timersUntouched s s.
Proof. timers_frame. Qed.

Lemma timersUntouched_trans (s1 s2 s3 : State) :
  timersUntouched s1 s2 -> timersUntouched s2 s3 -> timersUntouched s1 s3.
Proof.
  intros (A1 & A2 & A3) (B1 & B2 & B3). repeat split; try congruence. lia.
Qed.

Lemma timersUntouched_consistent (s s' : State) :
  timersUntouched s s' -> timersConsistent s -> timersConsistent s'.
Proof.
  intros (H1 & H2 & H3) (Hnd & Hlt & Hsave). unfold timersConsistent.
  rewrite H1, H2. split; [exact Hnd |]. split; [| exact Hsave].
  intros h cb Hin. specialize (Hlt h cb Hin). lia.
Qed.

Lemma clearTimeout_consistent (h : positive) (s : State) :
  timersConsistent s -> timersConsistent (clearTimeout h s).
Proof.
  intros (Hnd & Hlt & Hsave). unfold timersConsistent, clearTimeout. state_simpl.
  split; [| split].
  - change (map fst ?l) with (fst <$> l) in *.
    eapply sublist_NoDup; [exact Hnd |]. apply fmap_sublist, sublist_filter.
  - intros h' cb Hin. apply list_elem_of_filter in Hin as [_ Hin]. eauto.
  - intros h' Hin. apply list_elem_of_filter in Hin as [_ Hin]. eauto.
Qed.

(** A pending save is gone once the handle in [saveDebounceTimer] has
    been cleared. *)
Lemma clearTimeout_no_save (h : positive) (s : State) :
  timersConsistent s -> saveDebounceTimer s = Some h ->
  forall h', (h', CbSaveCurrentTabState) ∉ timeouts (clearTimeout h s).
Proof.
  intros (_ & _ & Hsave) Hh h' Hin. unfold clearTimeout in Hin. state_simpl.
  apply list_elem_of_filter in Hin as [Hne Hin]. cbn in Hne.
  specialize (Hsave h' Hin). congruence.
Qed.

Lemma setTimeout_fresh (cb : Callback) (s : State) :
  NoDup (map fst (timeouts s)) ->
  (forall h cb', (h, cb') ∈ timeouts s -> (h < nextTimerId s)%positive) ->
  NoDup (map fst (timeouts (snd (setTimeout cb s)))) /\
  (forall h cb', (h, cb') ∈ timeouts (snd (setTimeout cb s)) ->
                 (h < nextTimerId (snd (setTimeout cb s)))%positive).
Proof.
  intros Hnd Hlt. unfold setTimeout. state_simpl. split.
  - rewrite map_app. cbn [map fst]. apply NoDup_app. split; [exact Hnd |].
    split; [| apply NoDup_singleton].
    intros h Hin Hin'. apply list_elem_of_singleton in Hin'. subst h.
    change (map fst ?l) with (fst <$> l) in Hin.
    apply list_elem_of_fmap in Hin as ([h cb'] & Heq & Hin). cbn in Heq.
    specialize (Hlt h cb' Hin). lia.
  - intros h cb' Hin. apply elem_of_app in Hin as [Hin | Hin].
    + specialize (Hlt h cb' Hin). lia.
    + apply list_elem_of_singleton in Hin. injection Hin as -> _. lia.
Qed.

Lemma setTimeout_consistent (cb : Callback) (s : State) :
  isSave cb = false -> timersConsistent s -> timersConsistent (snd (setTimeout cb s)).
Proof.
  intros Hcb (Hnd & Hlt & Hsave).
  destruct (setTimeout_fresh cb s Hnd Hlt) as [Hnd' Hlt'].
  split; [exact Hnd' |]. split; [exact Hlt' |].
  intros h Hin. unfold setTimeout in *. state_simpl.
  apply elem_of_app in Hin as [Hin | Hin]; [eauto |].
  apply list_elem_of_singleton in Hin. injection Hin as _ <-. discriminate.
Qed.

Lemma debouncedSaveTabState_consistent (s : State) :
  timersConsistent s -> timersConsistent (debouncedSaveTabState s).
Proof.
  intros Hc. unfold debouncedSaveTabState.
  destruct (isLoadingTabState s); [exact Hc |].
  set (s1 := match saveDebounceTimer s with
             | Some h => clearTimeout h s | None => s end).
  assert (H1 : timersConsistent s1 /\
               forall h', (h', CbSaveCurrentTabState) ∉ timeouts s1).
  { subst s1. destruct (saveDebounceTimer s) as [h |] eqn:Hh.
    - split; [apply clearTimeout_consistent, Hc |].
      apply clearTimeout_no_save; assumption.
    - split; [exact Hc |]. intros h' Hin. destruct Hc as (_ & _ & Hsave).
      specialize (Hsave h' Hin). congruence. }
  destruct H1 as [(Hnd & Hlt & _) Hnone].
  destruct (setTimeout_fresh CbSaveCurrentTabState s1 Hnd Hlt) as [Hnd' Hlt'].
  unfold setTimeout in *. state_simpl.
  split; [exact Hnd' |]. split; [exact Hlt' |].
  intros h Hin. apply elem_of_app in Hin as [Hin | Hin].
  - exfalso. exact (Hnone h Hin).
  - apply list_elem_of_singleton in Hin. injection Hin as ->. reflexivity.
Qed.

Lemma loadTabState_consistent (tabId : string) (s : State) :
  timersConsistent s -> timersConsistent (loadTabState tabId s).
Proof.
  intros Hc. unfold loadTabState. destruct (find tabId (tabs s)) as [tab |]; [| exact Hc].
  apply setTimeout_consistent; [reflexivity |].
  destruct (Bool.eqb _ _); destruct (Tab.calculationMode tab); exact Hc.
Qed.

Lemma saveCurrentTabState_timersUntouched (s : State) :
  timersUntouched s (saveCurrentTabState s).
Proof.
  unfold saveCurrentTabState.
  destruct (isLoadingTabState s); [timers_frame |].
  destruct (activeTabId s) as [a |]; [| timers_frame].
  destruct (list_find _ (tabs s)) as [[i tab] |]; timers_frame.
Qed.

Lemma checkAutoFetchInterval_timersUntouched (s : State) :
  timersUntouched s (checkAutoFetchInterval s).
Proof.
  destruct (checkAutoFetchInterval_frame_ui s) as (_ & _ & _ & H1 & H2).
  split; [exact H1 |]. split; [exact H2 |].
  assert (Hfetch : forall s0, nextTimerId (fetchPriceForActiveTab s0) = nextTimerId s0).
  { intros s0. apply fetchPriceForActiveTab_frame. }
  rewrite checkAutoFetchInterval_cases. destruct (hasAutoPrice s).
  - unfold startAutoFetchInterval.
    set (s1 := match autoFetchIntervalId s with
               | Some h => clearInterval h s | None => s end).
    assert (Hn : nextTimerId s1 = nextTimerId s)
      by (subst s1; destruct (autoFetchIntervalId s); reflexivity).
    destruct (hasAutoPrice s1); [| lia].
    unfold setInterval. state_simpl. rewrite Hfetch. lia.
  - unfold stopAutoFetchInterval. destruct (autoFetchIntervalId s); cbn; lia.
Qed.

Lemma fetchStockPrice_consistent (now : Z) (symbol : string) (s : State) :
  timersConsistent s -> timersConsistent (fetchStockPrice now symbol s).
Proof.
  intros Hc. unfold fetchStockPrice.
  destruct (negb _ || negb _); [exact Hc |].
  unfold getCachedPrice.
  destruct (Storage.stockPrice (localStorage s) !! toUpperCase symbol) as [data |];
    [| exact Hc].
  destruct (now - Quote.timestamp data <? PRICE_CACHE_DURATION); [| exact Hc].
  destruct (Quote.price data) as [price |]; [| exact Hc].
  unfold onEntryPriceInput. apply debouncedSaveTabState_consistent. exact Hc.
Qed.

Ltac timers_wrapped H :=
  eapply timersUntouched_consistent; [| exact H]; timers_frame.

Lemma switchTab_consistent (tabId : string) (s : State) :
  timersConsistent s -> timersConsistent (switchTab tabId s).
Proof.
  intros Hc. destruct (decide (activeTabId s = Some tabId)) as [Heq | Hne].
  { rewrite switchTab_same by exact Heq. exact Hc. }
  destruct (switchTab_other tabId s Hne) as (-> & _).
  eapply timersUntouched_consistent; [apply checkAutoFetchInterval_timersUntouched |].
  apply loadTabState_consistent.
  assert (Hf : timersConsistent (if idTruthy (activeTabId s)
                                 then saveCurrentTabState s else s)).
  { destruct (idTruthy _); [| exact Hc].
    eapply timersUntouched_consistent; [apply saveCurrentTabState_timersUntouched | exact Hc]. }
  timers_wrapped Hf.
Qed.

Lemma closeTab_consistent (confirmAnswer : bool) (tabId : string) (s : State) :
  timersConsistent s -> timersConsistent (stateOf (closeTab confirmAnswer tabId s)).
Proof.
  intros Hc. destruct (closeTab_shape confirmAnswer tabId s)
    as [-> | [-> | (s1 & s2 & H1 & Hs2 & [(s' & Hs' & ->) | [-> _]])]];
    cbn [stateOf]; try exact Hc.
  - assert (Hc2 : timersConsistent s2).
    { rewrite Hs2. destruct H1 as [-> | (symbol & ->)]; timers_wrapped Hc. }
    eapply timersUntouched_consistent; [apply checkAutoFetchInterval_timersUntouched |].
    assert (Hc' : timersConsistent s').
    { destruct Hs' as [-> | (t & ->)]; [exact Hc2 |].
      apply loadTabState_consistent. timers_wrapped Hc2. }
    timers_wrapped Hc'.
  - rewrite Hs2. destruct H1 as [-> | (symbol & ->)]; timers_wrapped Hc.
Qed.

Lemma fireTimeout_consistent (now : Z) (h : positive) (s : State) :
  timersConsistent s -> timersConsistent (fireTimeout now h s).
Proof.
  intros Hc. unfold fireTimeout. destruct (pendingCallback h s) as [cb |]; [| exact Hc].
  pose proof (clearTimeout_consistent h s Hc) as H1. unfold clearTimeout in H1.
  destruct cb as [| | symbol].
  - eapply timersUntouched_consistent; [apply saveCurrentTabState_timersUntouched | exact H1].
  - timers_wrapped H1.
  - apply fetchStockPrice_consistent, H1.
Qed.

Lemma toggleAutoPrice_consistent (now : Z) (s : State) :
  timersConsistent s -> timersConsistent (toggleAutoPrice now s).
Proof.
  intros Hc. unfold toggleAutoPrice.
  set (s1 := with_autoPriceEnabled (negb (autoPriceEnabled s)) s).
  set (s2 := if autoPriceEnabled s1 then _ else s1).
  assert (H1 : timersConsistent s1) by (subst s1; timers_wrapped Hc).
  assert (H2 : timersConsistent s2).
  { subst s2. destruct (autoPriceEnabled s1); [| exact H1].
    destruct (nonEmpty _); [apply fetchStockPrice_consistent, H1 | exact H1]. }
  eapply timersUntouched_consistent; [apply checkAutoFetchInterval_timersUntouched |].
  destruct (idTruthy _); [| exact H2].
  eapply timersUntouched_consistent; [apply saveCurrentTabState_timersUntouched | exact H2].
Qed.

Lemma onStockSymbolInput_consistent (value : string) (s : State) :
  timersConsistent s -> timersConsistent (onStockSymbolInput value s).
Proof.
  intros Hc. unfold onStockSymbolInput.
  set (s0 := with_stockSymbol value s).
  assert (H0 : timersConsistent s0) by (subst s0; timers_wrapped Hc).
  set (s1 := match symbolDebounceTimer s0 with
             | Some h => clearTimeout h s0 | None => s0 end).
  assert (H1 : timersConsistent s1).
  { subst s1. destruct (symbolDebounceTimer s0);
      [apply clearTimeout_consistent, H0 | exact H0]. }
  set (s2 := if autoPriceEnabled s1 && negb (nonEmpty (trim value))
             then with_entryPrice "" s1 else s1).
  assert (H2 : timersConsistent s2).
  { subst s2. destruct (autoPriceEnabled s1 && negb (nonEmpty (trim value)));
      [timers_wrapped H1 | exact H1]. }
  set (s3 := if nonEmpty (trim value) && autoPriceEnabled s2
             then (let '(h, s') := setTimeout (CbFetchStockPrice (trim value)) s2 in
                   with_symbolDebounceTimer (Some h) s')
             else s2).
  assert (H3 : timersConsistent s3).
  { subst s3. destruct (nonEmpty (trim value) && autoPriceEnabled s2); [| exact H2].
    pose proof (setTimeout_consistent (CbFetchStockPrice (trim value)) s2 eq_refl H2) as H.
    unfold setTimeout in *. timers_wrapped H. }
  destruct (idTruthy _); [| exact H3].
  eapply timersUntouched_consistent; [apply checkAutoFetchInterval_timersUntouched |].
  apply debouncedSaveTabState_consistent, H3.
Qed.

Lemma dispatch_keeps_timers (e : PageEvent) (s : State) :
  timersConsistent s -> timersConsistent (stateOf (dispatch e s)).
Proof.
  intros Hc. destruct e; cbn [dispatch stateOf].
  - unfold addNewTab. destruct (MAX_TABS <=? length (tabs s))%nat; [timers_wrapped Hc |].
    assert (Hf : timersConsistent (if idTruthy (activeTabId s)
                                   then saveCurrentTabState s else s)).
    { destruct (idTruthy _); [| exact Hc].
      eapply timersUntouched_consistent;
        [apply saveCurrentTabState_timersUntouched | exact Hc]. }
    timers_wrapped Hf.
  - unfold onTabClick. destruct (tabs s !! i); [apply switchTab_consistent, Hc | exact Hc].
  - unfold onTabCloseClick. destruct (tabs s !! i); [apply closeTab_consistent, Hc | exact Hc].
  - unfold handleDragStart. destruct (_ <$> _); [timers_wrapped Hc | exact Hc].
  - destruct (handleDrop_shape (Tab.id <$> tabs s !! i) s) as [-> | (m & b & ->)];
      [exact Hc |].
    destruct (reorderTabs_shape m b s) as [-> | (l & _ & ->)];
      [exact Hc | timers_wrapped Hc].
  - timers_wrapped Hc.
  - destruct (onKeyDown_shape isInputFocused key s) as [-> | (t & _ & ->)];
      cbn [stateOf]; [exact Hc | apply switchTab_consistent, Hc].
  - destruct confirmAnswer; [| exact Hc]. rewrite clearAllTabs_confirmed.
    timers_wrapped Hc.
  - unfold setCalculationMode.
    assert (H1 : timersConsistent (with_calculationMode mode s)) by timers_wrapped Hc.
    destruct (idTruthy _); [| exact H1].
    eapply timersUntouched_consistent; [apply saveCurrentTabState_timersUntouched | exact H1].
  - apply toggleAutoPrice_consistent, Hc.
  - apply onStockSymbolInput_consistent, Hc.
  - unfold onNumberInput. apply debouncedSaveTabState_consistent. timers_wrapped Hc.
  - apply fireTimeout_consistent, Hc.
  - unfold intervalTick. destruct (bool_decide _); [| exact Hc].
    unfold fetchPriceForActiveTab. destruct (findActive s) as [t |]; [| exact Hc].
    destruct (negb _ || negb _); [exact Hc |].
    destruct (negb _); [exact Hc | timers_wrapped Hc].
  - unfold cleanupOrphanedCache. cbn [snd]. rewrite removeStockPrice_fold.
    timers_wrapped Hc.
Qed.

Lemma pendingSaves_named (s : State) (h : positive) :
  timersConsistent s -> h ∈ pendingSaves s -> saveDebounceTimer s = Some h.
Proof.
  intros (_ & _ & Hsave) Hin. unfold pendingSaves in Hin.
  change (map fst ?l) with (fst <$> l) in Hin.
  apply list_elem_of_fmap in Hin as ([h' cb] & -> & Hin).
  apply list_elem_of_filter in Hin as [Hcb Hin]. cbn in *.
  destruct cb; try discriminate. apply Hsave, Hin.
Qed.

Lemma pendingSaves_at_most_one (s : State) :
  timersConsistent s -> (length (pendingSaves s) <= 1)%nat.
Proof.
  intros Hc. pose proof (pendingSaves_named s) as Hnamed.
  assert (Hnd : NoDup (pendingSaves s)).
  { destruct Hc as (Hnd & _). unfold pendingSaves.
    change (map fst ?l) with (fst <$> l) in *.
    eapply sublist_NoDup; [exact Hnd |]. apply fmap_sublist, sublist_filter. }
  destruct (pendingSaves s) as [| x [| y r]]; cbn [length]; try lia.
  exfalso. apply NoDup_cons in Hnd as [Hnot _]. apply Hnot.
  assert (Hx : saveDebounceTimer s = Some x) by (apply Hnamed; [exact Hc | left]).
  assert (Hy : saveDebounceTimer s = Some y) by (apply Hnamed; [exact Hc | right; left]).
  assert (x = y) as -> by congruence. left.
Qed.

(** X9: one pending save at most.  If no timeout handle is pending twice,
    every pending handle is one the browser has handed out, and a pending
    save is under the handle [saveDebounceTimer] holds, then the same is
    true after any sequence of page events, in any order of edits and of
    timers firing: at most one debounced save is pending at any time, and
    it is the one [saveDebounceTimer] names, an edit replacing the save
    that the edit before it had scheduled. *)
Theorem page_events_keep_one_pending_save (es : list PageEvent) (s : State) :
  timersConsistent s ->
  timersConsistent (runEvents es s) /\
  (length (pendingSaves (runEvents es s)) <= 1)%nat /\
  (forall h, h ∈ pendingSaves (runEvents es s) ->
             saveDebounceTimer (runEvents es s) = Some h).
Proof.
  intros Hc.
  assert (H : timersConsistent (runEvents es s)).
  { revert s Hc. induction es as [| e rest IH]; intros s Hc; [exact Hc |].
    cbn [runEvents fold_left]. apply IH, dispatch_keeps_timers, Hc. }
  split; [exact H |]. split; [apply pendingSaves_at_most_one, H |].
  intros h. apply pendingSaves_named, H.
Qed.

Lemma page_events_keep_one_pending_save_witness :
  timersConsistent (runEvents sampleEvents loadingStore) /\
  (length (pendingSaves (runEvents sampleEvents loadingStore)) <= 1)%nat /\
  (forall h, h ∈ pendingSaves (runEvents sampleEvents loadingStore) ->
             saveDebounceTimer (runEvents sampleEvents loadingStore) = Some h).
Proof.
  apply (page_events_keep_one_pending_save sampleEvents loadingStore).
  split; [| split].
  - apply (bool_decide_unpack _). vm_compute. exact I.
  - intros h cb Hin. cbn in Hin.
    apply elem_of_cons in Hin as [Hin | Hin]; [injection Hin as -> _; reflexivity |].
    apply list_elem_of_singleton in Hin. injection Hin as -> _. reflexivity.
  - intros h Hin. cbn in Hin.
    apply elem_of_cons in Hin as [Hin | Hin]; [injection Hin as ->; reflexivity |].
    apply list_elem_of_singleton in Hin. discriminate.
Defined.

(* ===================================================================== *)
(** * Page load *)
(* ===================================================================== *)

(** X10: a reload resumes where the script left off.  Take a state whose
    persisted copy is in sync and whose pointer names a tab [t] of the
    collection.  When the page is loaded again on the storage of that
    state, [initTabSystem] restores the collection and the pointer, leaves
    the storage as it is, puts the fields, the auto-price flag and the
    calculation mode of [t] on the form with the load flag up, and starts
    the poller exactly when [t] has auto-price on and holds a symbol.
    What was on the form but not yet saved is not restored. *)
Theorem reload_resumes (now : Z) (random : string) (created : Z)
    (defaults : Form.t) (nextId : positive) (s : State) (a : string) (t : Tab.t) :
  persistedInSync s ->
  activeTabId s = Some a ->
  nonEmpty a = true ->
  find a (tabs s) = Some t ->
  let s' := snd (initTabSystem now random created
                   (pageLoaded (localStorage s) defaults nextId)) in
  tabs s' = tabs s /\
  activeTabId s' = Some a /\
  localStorage s' = localStorage s /\
  form s'
  = {| Form.stockSymbol := Tab.stockSymbol t;
       Form.entryPrice := Tab.entryPrice t;
       Form.targetPrice := Tab.targetPrice t;
       Form.quantity := Tab.quantity t;
       Form.tpPercent := Tab.tpPercent t;
       Form.slPercent := Tab.slPercent t |} /\
  autoPriceEnabled s' = Tab.autoPriceEnabled t /\
  calculationMode s'
  = match Tab.calculationMode t with Some m => m | None => current end /\
  isLoadingTabState s' = true /\
  (is_Some (autoFetchIntervalId s') <->
   Tab.autoPriceEnabled t = true /\ nonEmpty (Tab.stockSymbol t) = true).
Proof.
  intros [Hst Hsa] Ha Hta Hfind s'.
  assert (Hlen : (length (tabs s) =? 0)%nat = false).
  { destruct (tabs s); [discriminate | reflexivity]. }
  set (s1 := with_activeTabId (Some a)
               (with_tabs (tabs s) (pageLoaded (localStorage s) defaults nextId))).
  set (loaded := loadTabState a s1).
  assert (Hs' : s' = with_nextTimerId
                       (Pos.succ (nextTimerId (checkAutoFetchInterval loaded)))
                       (checkAutoFetchInterval loaded)).
  { subst s' loaded s1. unfold initTabSystem, pageLoaded. state_simpl.
    rewrite Hst, Hsa, Ha. cbn [itemOfId]. unfold restoredActiveTabId.
    cbn [idTruthy]. rewrite Hta. state_simpl. rewrite Hlen.
    unfold renderTabs. state_simpl. rewrite Hta. reflexivity. }
  assert (Hloaded : loaded
                    = snd (setTimeout CbClearLoadingFlag
                        (match Tab.calculationMode t with
                         | Some m => with_calculationMode m
                         | None => fun s0 => s0
                         end
                           ((if Bool.eqb (Tab.autoPriceEnabled t) false
                             then fun s0 => s0
                             else with_autoPriceEnabled (Tab.autoPriceEnabled t))
                              (with_form
                                 {| Form.stockSymbol := Tab.stockSymbol t;
                                    Form.entryPrice := Tab.entryPrice t;
                                    Form.targetPrice := Tab.targetPrice t;
                                    Form.quantity := Tab.quantity t;
                                    Form.tpPercent := Tab.tpPercent t;
                                    Form.slPercent := Tab.slPercent t |}
                                 (with_isLoadingTabState true s1)))))).
  { subst loaded. unfold loadTabState. subst s1. state_simpl. rewrite Hfind.
    destruct (Bool.eqb _ _); destruct (Tab.calculationMode t); reflexivity. }
  destruct (checkAutoFetchInterval_frame loaded) as (C1 & C2 & C3 & C4 & _).
  destruct (checkAutoFetchInterval_frame_ui loaded) as (U1 & U2 & U3 & _).
  rewrite Hs'. state_simpl. rewrite C1, C2, C3, C4, U1, U2, U3.
  assert (Hfa : findActive loaded = Some t).
  { unfold findActive. rewrite Hloaded. unfold setTimeout.
    destruct (Bool.eqb _ _); destruct (Tab.calculationMode t); exact Hfind. }
  assert (Hidle : autoFetchIntervalId loaded = None).
  { rewrite Hloaded. unfold setTimeout.
    destruct (Bool.eqb _ _); destruct (Tab.calculationMode t); reflexivity. }
  split; [rewrite Hloaded; unfold setTimeout;
          destruct (Bool.eqb _ _); destruct (Tab.calculationMode t); reflexivity |].
  split; [rewrite Hloaded; unfold setTimeout;
          destruct (Bool.eqb _ _); destruct (Tab.calculationMode t); reflexivity |].
  split; [rewrite Hloaded; unfold setTimeout;
          destruct (Bool.eqb _ _); destruct (Tab.calculationMode t); reflexivity |].
  split; [rewrite Hloaded; unfold setTimeout;
          destruct (Bool.eqb _ _); destruct (Tab.calculationMode t); reflexivity |].
  split; [rewrite Hloaded; unfold setTimeout;
          destruct (Tab.autoPriceEnabled t); destruct (Tab.calculationMode t);
          reflexivity |].
  split; [rewrite Hloaded; unfold setTimeout;
          destruct (Bool.eqb _ _); destruct (Tab.calculationMode t); reflexivity |].
  split; [rewrite Hloaded; unfold setTimeout;
          destruct (Bool.eqb _ _); destruct (Tab.calculationMode t); reflexivity |].
  rewrite checkAutoFetchInterval_cases. unfold hasAutoPrice at 1. rewrite Hfa, Hidle.
  destruct (Tab.autoPriceEnabled t && nonEmpty (Tab.stockSymbol t)) eqn:Hwant.
  - unfold startAutoFetchInterval. rewrite Hidle.
    unfold hasAutoPrice. rewrite Hfa, Hwant. unfold setInterval. state_simpl.
    apply andb_prop in Hwant. split; [intros _; exact Hwant | eauto].
  - rewrite Hidle. split; [intros [h Hh]; discriminate |].
    intros [H1 H2]. rewrite H1, H2 in Hwant. discriminate.
Qed.

Lemma reload_resumes_witness :
  tabs (snd (initTabSystem 0 "r" 0 (pageLoaded (localStorage autoPriceStore) emptyForm 1)))
  = tabs autoPriceStore /\
  activeTabId (snd (initTabSystem 0 "r" 0
                      (pageLoaded (localStorage autoPriceStore) emptyForm 1)))
  = Some "a" /\
  localStorage (snd (initTabSystem 0 "r" 0
                       (pageLoaded (localStorage autoPriceStore) emptyForm 1)))
  = localStorage autoPriceStore /\
  form (snd (initTabSystem 0 "r" 0 (pageLoaded (localStorage autoPriceStore) emptyForm 1)))
  = {| Form.stockSymbol := "AAPL"; Form.entryPrice := ""; Form.targetPrice := "";
       Form.quantity := ""; Form.tpPercent := ""; Form.slPercent := "" |} /\
  autoPriceEnabled (snd (initTabSystem 0 "r" 0
                           (pageLoaded (localStorage autoPriceStore) emptyForm 1)))
  = true /\
  calculationMode (snd (initTabSystem 0 "r" 0
                          (pageLoaded (localStorage autoPriceStore) emptyForm 1)))
  = current /\
  isLoadingTabState (snd (initTabSystem 0 "r" 0
                            (pageLoaded (localStorage autoPriceStore) emptyForm 1)))
  = true /\
  (is_Some (autoFetchIntervalId
              (snd (initTabSystem 0 "r" 0
                      (pageLoaded (localStorage autoPriceStore) emptyForm 1)))) <->
   true = true /\ nonEmpty "AAPL" = true).
Proof.
  apply (reload_resumes 0 "r" 0 emptyForm 1 autoPriceStore "a" (sampleTab "a" "AAPL" true)).
  - split; reflexivity.
  - reflexivity.
  - reflexivity.
  - reflexivity.
Defined.

(* ===================================================================== *)
(** * Validation, automatic recalculation and the percent badges *)
(* ===================================================================== *)

Lemma zero_is_plus_zero : TradeMath.zero = S754_zero false.
Proof. reflexivity. Qed.

(** [!x || x <= 0] fails exactly when [x > 0]; NaN fails both tests. *)
Lemma positive_test (x : Number) :
  negb (falsy x || leb x TradeMath.zero) = ltb TradeMath.zero x.
Proof. destruct x as [[] | [] | | [] m e]; reflexivity. Qed.

(** [isNaN(x) || x < 0] fails exactly when [x >= 0]. *)
Lemma nonnegative_test (x : Number) :
  negb (isNaN x || ltb x TradeMath.zero) = leb TradeMath.zero x.
Proof. destruct x as [[] | [] | | [] m e]; reflexivity. Qed.

Lemma truthy_positive (x : Number) :
  negb (falsy x) && ltb TradeMath.zero x = ltb TradeMath.zero x.
Proof. destruct x as [[] | [] | | [] m e]; reflexivity. Qed.

(** X11: when [calculateTradeLevels] accepts its inputs.  It fills the
    result panel exactly when the entry price is greater than 0, the
    target price is greater than 0 if the mode is 'target', the quantity
    is greater than 0 and both percentages are at least 0, the
    comparisons being those of JavaScript numbers (NaN, which an empty or
    unreadable field gives, fails each of them; [Infinity] passes).  It
    shows no error message exactly in that case, and at least one
    otherwise. *)
Theorem calculateTradeLevels_accepts (rate : Number) (mode : CalcMode)
    (currentPrice targetPrice quantity tpPercent slPercent : Number) :
  let r := TradeMath.calculateTradeLevels rate mode currentPrice targetPrice
             quantity tpPercent slPercent in
  let accepted :=
    ltb TradeMath.zero currentPrice
    && (negb (CalcMode_eqb mode target) || ltb TradeMath.zero targetPrice)
    && ltb TradeMath.zero quantity
    && leb TradeMath.zero tpPercent
    && leb TradeMath.zero slPercent in
  (snd r = Some (TradeMath.computeLevels mode currentPrice targetPrice quantity
                   tpPercent slPercent,
                 TradeMath.render rate
                   (TradeMath.computeLevels mode currentPrice targetPrice quantity
                      tpPercent slPercent))
   <-> accepted = true) /\
  (snd r = None <-> accepted = false) /\
  (fst r = TradeMath.noErrors <-> accepted = true).
Proof.
  intros r accepted. subst r accepted.
  unfold TradeMath.calculateTradeLevels, TradeMath.validate.
  rewrite <- (positive_test currentPrice), <- (positive_test targetPrice),
    <- (positive_test quantity), <- (nonnegative_test tpPercent),
    <- (nonnegative_test slPercent).
  destruct (falsy currentPrice || leb currentPrice TradeMath.zero);
    destruct (CalcMode_eqb mode target);
    destruct (falsy targetPrice || leb targetPrice TradeMath.zero);
    destruct (falsy quantity || leb quantity TradeMath.zero);
    destruct (isNaN tpPercent || ltb tpPercent TradeMath.zero);
    destruct (isNaN slPercent || ltb slPercent TradeMath.zero);
    cbn; unfold TradeMath.noErrors;
    (split; [| split]); split; intros H; try reflexivity; try discriminate H.
Qed.

(** X12: the gate of [autoCalculate].  Automatic recalculation calls
    [calculateTradeLevels] only when the entry price and the quantity are
    greater than 0 and, in 'target' mode, the target price is too.  So it
    never shows the entry, target or quantity message: the only messages
    an edit can bring up are those of the two percentages, and the result
    panel is refreshed exactly when both percentages are at least 0. *)
Theorem autoCalculate_shows_only_percent_errors (rate : Number) (mode : CalcMode)
    (currentPrice targetPrice quantity tpPercent slPercent : Number) :
  match snd (autoCalculate rate mode currentPrice targetPrice quantity
               tpPercent slPercent) with
  | None =>
      ltb TradeMath.zero currentPrice && ltb TradeMath.zero quantity
      && (negb (CalcMode_eqb mode target) || ltb TradeMath.zero targetPrice) = false
  | Some (errors, panel) =>
      ltb TradeMath.zero currentPrice = true /\
      ltb TradeMath.zero quantity = true /\
      (mode = target -> ltb TradeMath.zero targetPrice = true) /\
      TradeMath.entry errors = "" /\
      TradeMath.target_ errors = "" /\
      TradeMath.quantity_ errors = "" /\
      (is_Some panel <->
       leb TradeMath.zero tpPercent = true /\ leb TradeMath.zero slPercent = true)
  end.
Proof.
  unfold autoCalculate. cbn [snd].
  rewrite (truthy_positive currentPrice).
  rewrite <- (andb_assoc (ltb TradeMath.zero currentPrice)).
  rewrite (truthy_positive quantity).
  unfold TradeMath.calculateTradeLevels, TradeMath.validate.
  rewrite <- (nonnegative_test tpPercent), <- (nonnegative_test slPercent).
  rewrite <- (positive_test currentPrice), <- (positive_test quantity),
    <- (positive_test targetPrice).
  destruct (falsy currentPrice || leb currentPrice TradeMath.zero);
    destruct (falsy quantity || leb quantity TradeMath.zero);
    destruct mode;
    destruct (falsy targetPrice || leb targetPrice TradeMath.zero);
    destruct (isNaN tpPercent || ltb tpPercent TradeMath.zero);
    destruct (isNaN slPercent || ltb slPercent TradeMath.zero);
    cbn; try reflexivity;
    repeat split; try discriminate; try reflexivity;
    try (intros [x Hx]; discriminate Hx); try (intros [H1 H2]; discriminate);
    try (match goal with H : is_Some None |- _ => destruct H as [? H]; discriminate H end);
    eauto.
Qed.

(** The levels at a stop-loss of 100 percent, for a finite base price
    greater than 0. *)
Lemma computeLevels_at_full_stop (rate : Number) (mode : CalcMode)
    (currentPrice targetPrice quantity tpPercent : Number) :
  positiveFinite (TradeMath.basePriceOf mode currentPrice targetPrice) = true ->
  let lv := TradeMath.computeLevels mode currentPrice targetPrice quantity
              tpPercent TradeMath.hundred in
  TradeMath.slPrice lv = S754_zero false /\
  TradeMath.perShareSL lv = TradeMath.basePriceOf mode currentPrice targetPrice /\
  TradeMath.maxLoss lv = TradeMath.investment lv /\
  TradeMath.el_resultSL (TradeMath.render rate lv) = "$0.00" /\
  TradeMath.el_maxLoss (TradeMath.render rate lv)
  = String "-" (TradeMath.el_resultInvestment (TradeMath.render rate lv)).
Proof.
  intros Hpos lv. subst lv.
  apply TradeMathFacts.positiveFinite_inv in Hpos as (m & e & Hbase & _).
  unfold TradeMath.computeLevels, TradeMath.render.
  cbn [TradeMath.slPrice TradeMath.perShareSL TradeMath.maxLoss TradeMath.investment
       TradeMath.el_resultSL TradeMath.el_maxLoss TradeMath.el_resultInvestment
       TradeMath.basePrice].
  rewrite Hbase.
  change (div TradeMath.hundred TradeMath.hundred) with TradeMath.one.
  change (sub TradeMath.one TradeMath.one) with (S754_zero false).
  change (mul (S754_finite false m e) (S754_zero false)) with (S754_zero false).
  change (sub (S754_finite false m e) (S754_zero false)) with (S754_finite false m e).
  repeat split.
Qed.

(** X13: a stop-loss of 100 percent puts the whole investment at risk.
    When the inputs are valid (entry price greater than 0, quantity
    greater than 0, take-profit percentage at least 0) and the base price
    (the target price in 'target' mode, the entry price otherwise) is a
    finite number greater than 0, [calculateTradeLevels] with [slPercent]
    equal to 100 shows no error and fills the result panel with a stop
    price of exactly 0, a loss per share equal to the base price and a
    maximum loss equal to the investment: the panel shows "$0.00" as stop
    price and the investment, with a minus sign, as maximum loss. *)
Theorem full_stop_loss (rate : Number) (mode : CalcMode)
    (currentPrice targetPrice quantity tpPercent : Number) :
  ltb TradeMath.zero currentPrice = true ->
  positiveFinite (TradeMath.basePriceOf mode currentPrice targetPrice) = true ->
  ltb TradeMath.zero quantity = true ->
  leb TradeMath.zero tpPercent = true ->
  exists lv d,
    TradeMath.calculateTradeLevels rate mode currentPrice targetPrice quantity
      tpPercent TradeMath.hundred = (TradeMath.noErrors, Some (lv, d)) /\
    TradeMath.slPrice lv = S754_zero false /\
    TradeMath.perShareSL lv = TradeMath.basePriceOf mode currentPrice targetPrice /\
    TradeMath.maxLoss lv = TradeMath.investment lv /\
    TradeMath.el_resultSL d = "$0.00" /\
    TradeMath.el_maxLoss d = String "-" (TradeMath.el_resultInvestment d).
Proof.
  intros Hcp Hbase Hq Htp.
  exists (TradeMath.computeLevels mode currentPrice targetPrice quantity
            tpPercent TradeMath.hundred).
  exists (TradeMath.render rate
            (TradeMath.computeLevels mode currentPrice targetPrice quantity
               tpPercent TradeMath.hundred)).
  split; [| exact (computeLevels_at_full_stop rate mode currentPrice targetPrice
                     quantity tpPercent Hbase)].
  unfold TradeMath.calculateTradeLevels, TradeMath.validate.
  assert (Htgt : CalcMode_eqb mode target
                 && (falsy targetPrice || leb targetPrice TradeMath.zero) = false).
  { destruct mode; [reflexivity |]. cbn [CalcMode_eqb andb].
    apply TradeMathFacts.positiveFinite_inv in Hbase as (m & e & Hb & _).
    cbn in Hb. rewrite Hb. reflexivity. }
  rewrite Htgt.
  rewrite <- (positive_test currentPrice) in Hcp.
  rewrite <- (positive_test quantity) in Hq.
  rewrite <- (nonnegative_test tpPercent) in Htp.
  apply negb_true_iff in Hcp, Hq, Htp. rewrite Hcp, Hq, Htp.
  reflexivity.
Qed.

Lemma full_stop_loss_witness :
  exists lv d,
    TradeMath.calculateTradeLevels (ofZ 4) current (ofZ 100) S754_nan (ofZ 10)
      (ofZ 10) TradeMath.hundred = (TradeMath.noErrors, Some (lv, d)) /\
    TradeMath.slPrice lv = S754_zero false /\
    TradeMath.perShareSL lv = TradeMath.basePriceOf current (ofZ 100) S754_nan /\
    TradeMath.maxLoss lv = TradeMath.investment lv /\
    TradeMath.el_resultSL d = "$0.00" /\
    TradeMath.el_maxLoss d = String "-" (TradeMath.el_resultInvestment d).
Proof.
  apply (full_stop_loss (ofZ 4) current (ofZ 100) S754_nan (ofZ 10) (ofZ 10)).
  - reflexivity.
  - reflexivity.
  - reflexivity.
  - reflexivity.
Defined.

(** X14: the difference badge.  [calculatePriceDifference] hides the
    badge exactly when the entry price or the target price is not greater
    than 0 (NaN included); and when the two prices are the same finite
    value greater than 0 it shows "+0.00%" in the "up" colour. *)
Theorem calculatePriceDifference_badge :
  (forall currentPrice targetPrice,
     calculatePriceDifference currentPrice targetPrice = None <->
     ltb TradeMath.zero currentPrice && ltb TradeMath.zero targetPrice = false) /\
  (forall m e,
     calculatePriceDifference (S754_finite false m e) (S754_finite false m e)
     = Some ("+0.00%", true)).
Proof.
  split.
  - intros currentPrice targetPrice. unfold calculatePriceDifference.
    rewrite <- (positive_test currentPrice), <- (positive_test targetPrice).
    rewrite <- orb_assoc.
    destruct (falsy currentPrice || leb currentPrice TradeMath.zero);
      destruct (falsy targetPrice || leb targetPrice TradeMath.zero);
      cbn; split; intros H; try reflexivity; discriminate H.
  - intros m e. unfold calculatePriceDifference.
    rewrite TradeMathFacts.sub_diag. reflexivity.
Qed.

(** X15: the change badge always carries a sign.  For every percent
    change other than NaN, [updatePriceChangeDisplay] shows the badge, in
    the "up" colour with a leading "+" when the change is at least 0
    (also for [-0], shown as "+0.00%"), and in the "down" colour with a
    leading "-" otherwise; for [null], [undefined] and NaN it hides the
    badge. *)
Theorem updatePriceChangeDisplay_signed :
  (forall p,
     match updatePriceChangeDisplay (Some p) with
     | Some (text, up) =>
         isNaN p = false /\ up = leb TradeMath.zero p /\
         exists rest, text = String (if up then "+"%char else "-"%char) rest
     | None => isNaN p = true
     end) /\
  updatePriceChangeDisplay (Some (S754_zero true)) = Some ("+0.00%", true) /\
  updatePriceChangeDisplay None = None.
Proof.
  split; [| repeat split].
  intros p. unfold updatePriceChangeDisplay.
  destruct p as [[] | [] | | [] m e]; cbn [isNaN]; try reflexivity;
    (split; [reflexivity |]); (split; [reflexivity |]);
    change TradeMath.zero with (S754_zero false);
    cbn [leb SFleb SFcompare toFixed append]; eexists; reflexivity.
Qed.

(* ===================================================================== *)
(** * Creating a tab, fetching a price, toggling during a load *)
(* ===================================================================== *)

(** X16: [addNewTab] saves before it creates.  Below the limit of 20
    tabs and with no load in progress, the record of the active tab [a]
    receives what is on the form (the symbol trimmed, the auto-price flag
    and the calculation mode with it), the new empty tab is appended
    after all the others and becomes active, the form goes back to its
    defaults with auto-price off, and the new collection and pointer are
    persisted.  The calculation mode in force is not reset, and the
    poller rule is not evaluated: interval table and handle are as
    before. *)
Theorem addNewTab_saves_then_appends (now : Z) (random : string) (created : Z)
    (s : State) (a : string) (t : Tab.t) :
  (length (tabs s) < MAX_TABS)%nat ->
  isLoadingTabState s = false ->
  activeTabId s = Some a ->
  nonEmpty a = true ->
  find a (tabs s) = Some t ->
  let s' := addNewTab now random created s in
  tabs s'
  = tabs (saveCurrentTabState s)
    ++ [{| Tab.id := generateTabId now random; Tab.name := "New Tab";
           Tab.stockSymbol := ""; Tab.entryPrice := ""; Tab.targetPrice := "";
           Tab.quantity := ""; Tab.tpPercent := ""; Tab.slPercent := "";
           Tab.autoPriceEnabled := false; Tab.calculationMode := Some current;
           Tab.createdAt := created |}] /\
  find a (tabs s')
  = Some {| Tab.id := Tab.id t; Tab.name := Tab.name t;
            Tab.stockSymbol := trim (Form.stockSymbol (form s));
            Tab.entryPrice := Form.entryPrice (form s);
            Tab.targetPrice := Form.targetPrice (form s);
            Tab.quantity := Form.quantity (form s);
            Tab.tpPercent := Form.tpPercent (form s);
            Tab.slPercent := Form.slPercent (form s);
            Tab.autoPriceEnabled := autoPriceEnabled s;
            Tab.calculationMode := Some (calculationMode s);
            Tab.createdAt := Tab.createdAt t |} /\
  activeTabId s' = Some (generateTabId now random) /\
  form s' = formDefaults s /\
  autoPriceEnabled s' = false /\
  calculationMode s' = calculationMode s /\
  persistedInSync s' /\
  autoFetchIntervalId s' = autoFetchIntervalId s /\
  intervals s' = intervals s.
Proof.
  intros Hlen Hload Ha Hta Hfind s'. subst s'. unfold addNewTab.
  destruct (Nat.leb_spec MAX_TABS (length (tabs s))); [lia |].
  rewrite Ha. cbn [idTruthy]. rewrite Hta.
  unfold clearCalculatorForm, renderTabs, saveTabsToStorage. state_simpl.
  pose proof (find_flushed a s t Hload Ha Hfind) as Hflushed.
  destruct (saveCurrentTabState_pollerUntouched s) as [(P1 & P2 & _) _].
  split; [reflexivity |]. split.
  { unfold find in *.
    destruct (list_find _ (tabs (saveCurrentTabState s))) as [[i x] |] eqn:Hf;
      [| discriminate].
    rewrite (list_find_app_l _ _ _ _ _ Hf). exact Hflushed. }
  split; [reflexivity |].
  assert (Hrest : formDefaults (saveCurrentTabState s) = formDefaults s /\
                  calculationMode (saveCurrentTabState s) = calculationMode s).
  { unfold saveCurrentTabState. rewrite Hload, Ha.
    destruct (list_find _ (tabs s)) as [[i x] |]; split; reflexivity. }
  destruct Hrest as [-> ->].
  repeat split; try reflexivity; assumption.
Qed.

Lemma addNewTab_saves_then_appends_witness :
  tabs (addNewTab 5 "r" 6 editedStore)
  = tabs (saveCurrentTabState editedStore)
    ++ [{| Tab.id := generateTabId 5 "r"; Tab.name := "New Tab";
           Tab.stockSymbol := ""; Tab.entryPrice := ""; Tab.targetPrice := "";
           Tab.quantity := ""; Tab.tpPercent := ""; Tab.slPercent := "";
           Tab.autoPriceEnabled := false; Tab.calculationMode := Some current;
           Tab.createdAt := 6 |}] /\
  find "a" (tabs (addNewTab 5 "r" 6 editedStore))
  = Some {| Tab.id := "a"; Tab.name := "New Tab";
            Tab.stockSymbol := trim (Form.stockSymbol (form editedStore));
            Tab.entryPrice := Form.entryPrice (form editedStore);
            Tab.targetPrice := Form.targetPrice (form editedStore);
            Tab.quantity := Form.quantity (form editedStore);
            Tab.tpPercent := Form.tpPercent (form editedStore);
            Tab.slPercent := Form.slPercent (form editedStore);
            Tab.autoPriceEnabled := autoPriceEnabled editedStore;
            Tab.calculationMode := Some (calculationMode editedStore);
            Tab.createdAt := 0 |} /\
  activeTabId (addNewTab 5 "r" 6 editedStore) = Some (generateTabId 5 "r") /\
  form (addNewTab 5 "r" 6 editedStore) = formDefaults editedStore /\
  autoPriceEnabled (addNewTab 5 "r" 6 editedStore) = false /\
  calculationMode (addNewTab 5 "r" 6 editedStore) = calculationMode editedStore /\
  persistedInSync (addNewTab 5 "r" 6 editedStore) /\
  autoFetchIntervalId (addNewTab 5 "r" 6 editedStore)
  = autoFetchIntervalId editedStore /\
  intervals (addNewTab 5 "r" 6 editedStore) = intervals editedStore.
Proof.
  apply (addNewTab_saves_then_appends 5 "r" 6 editedStore "a"
           (sampleTab "a" "AAPL" false)).
  - vm_compute. lia.
  - reflexivity.
  - reflexivity.
  - reflexivity.
  - reflexivity.
Defined.

(** A finite number reads back from its JSON text with the same decimal
    rendering; NaN and the infinities read back as [null]. *)
Lemma jsonNumber_finite (x : Number) :
  isFinite x = true ->
  exists y, jsonNumber x = Some y /\ forall f, toFixed f y = toFixed f x.
Proof.
  destruct x as [[] | [] | | [] m e]; try discriminate; intros _;
    eexists; (split; [reflexivity |]); reflexivity.
Qed.

Lemma jsonNumber_not_finite (x : Number) :
  isFinite x = false -> jsonNumber x = None.
Proof. destruct x as [[] | [] | | [] m e]; try discriminate; reflexivity. Qed.

(** X17: a cached quote is served for one minute, then fetched again.
    With auto-price on, [fetchStockPrice] for a symbol whose quote, of a
    finite price, was cached at time [t0] under the upper-cased symbol:
    within [PRICE_CACHE_DURATION] of [t0] it sends no request and writes
    the cached price, with two decimals, to the entry price field, leaving
    the storage as it is; from then on it removes the quote from the
    cache, sends one request for the upper-cased symbol and leaves the
    form as it is. *)
Theorem fetchStockPrice_uses_fresh_quote (t0 now : Z) (symbol : string)
    (price : Number) (pc prev op hi lo vol w52h w52l : option Number) (s : State) :
  nonEmpty symbol = true ->
  autoPriceEnabled s = true ->
  isFinite price = true ->
  let s1 := cachePrice t0 (toUpperCase symbol) price pc prev op hi lo vol w52h w52l s in
  let s2 := fetchStockPrice now symbol s1 in
  if now - t0 <? PRICE_CACHE_DURATION then
    network s2 = network s /\
    Form.entryPrice (form s2) = toFixed 2 price /\
    Form.stockSymbol (form s2) = Form.stockSymbol (form s) /\
    localStorage s2 = localStorage s1
  else
    network s2 = toUpperCase symbol :: network s /\
    form s2 = form s /\
    Storage.stockPrice (localStorage s2) !! toUpperCase symbol = None /\
    timeouts s2 = timeouts s.
Proof.
  intros Hsym Hauto Hfin s1 s2. subst s2 s1.
  destruct (jsonNumber_finite price Hfin) as (y & Hy & Hfixed).
  unfold fetchStockPrice, cachePrice. state_simpl. rewrite Hsym, Hauto. cbn [negb orb].
  unfold getCachedPrice. state_simpl. rewrite lookup_insert_eq. cbn [Quote.timestamp].
  destruct (now - t0 <? PRICE_CACHE_DURATION).
  - cbn [Quote.price]. rewrite Hy, Hfixed. unfold onEntryPriceInput.
    set (s3 := with_entryPrice _ _).
    destruct (debouncedSaveTabState_frame s3) as (_ & _ & _ & -> & -> & ->).
    subst s3. state_simpl. repeat split.
  - unfold fetchQuote, removeStockPrice. state_simpl.
    rewrite lookup_delete_eq. repeat split.
Qed.

Lemma fetchStockPrice_uses_fresh_quote_witness :
  network (fetchStockPrice 1500 "aapl" quotedStore) = [] /\
  Form.entryPrice (form (fetchStockPrice 1500 "aapl" quotedStore)) = "190.00" /\
  Form.stockSymbol (form (fetchStockPrice 1500 "aapl" quotedStore)) = "" /\
  localStorage (fetchStockPrice 1500 "aapl" quotedStore) = localStorage quotedStore.
Proof.
  exact (fetchStockPrice_uses_fresh_quote 1000 1500 "aapl" (ofZ 190)
           None None None None None None None None
           (with_autoPriceEnabled true singleTabStore) eq_refl eq_refl eq_refl).
Defined.

(** A price that is not finite is cached as [null]; while that quote is
    fresh, [fetchStockPrice] finds it, fails on [toFixed] and writes
    nothing, and it sends no request either. *)
Lemma fetchStockPrice_null_price (t0 now : Z) (symbol : string)
    (price : Number) (pc prev op hi lo vol w52h w52l : option Number) (s : State) :
  isFinite price = false ->
  now - t0 < PRICE_CACHE_DURATION ->
  let s1 := cachePrice t0 (toUpperCase symbol) price pc prev op hi lo vol w52h w52l s in
  fetchStockPrice now symbol s1 = s1.
Proof.
  intros Hfin Hfresh s1. subst s1.
  unfold fetchStockPrice, cachePrice. state_simpl.
  destruct (negb _ || negb _); [reflexivity |].
  unfold getCachedPrice. state_simpl. rewrite lookup_insert_eq. cbn [Quote.timestamp].
  apply Z.ltb_lt in Hfresh. rewrite Hfresh. cbn [Quote.price].
  rewrite (jsonNumber_not_finite price Hfin). reflexivity.
Qed.

(** X18: a toggle made while a tab is loading is not written to its
    record.  While the load flag is up, [toggleAutoPrice] flips the flag
    the form shows, but the collection and its persisted copy stay as they
    are and no save is scheduled; the poller rule, which reads the record,
    therefore decides as if the toggle had not happened. *)
Theorem toggleAutoPrice_during_load (now : Z) (s : State) :
  isLoadingTabState s = true ->
  let s' := toggleAutoPrice now s in
  autoPriceEnabled s' = negb (autoPriceEnabled s) /\
  tabs s' = tabs s /\
  Storage.stockTabs (localStorage s') = Storage.stockTabs (localStorage s) /\
  timeouts s' = timeouts s /\
  hasAutoPrice s' = hasAutoPrice s.
Proof.
  intros Hload s'. subst s'. unfold toggleAutoPrice.
  set (s1 := with_autoPriceEnabled (negb (autoPriceEnabled s)) s).
  set (s2 := if autoPriceEnabled s1 then _ else s1).
  assert (H2 : isLoadingTabState s2 = true /\ autoPriceEnabled s2 = negb (autoPriceEnabled s) /\
               tabs s2 = tabs s /\ activeTabId s2 = activeTabId s /\
               Storage.stockTabs (localStorage s2) = Storage.stockTabs (localStorage s) /\
               timeouts s2 = timeouts s).
  { subst s2. destruct (autoPriceEnabled s1) eqn:Hon; [| subst s1; repeat split; exact Hload].
    destruct (nonEmpty _); [| subst s1; repeat split; exact Hload].
    unfold fetchStockPrice. destruct (negb _ || negb _);
      [subst s1; repeat split; exact Hload |].
    unfold getCachedPrice.
    destruct (Storage.stockPrice (localStorage s1) !! _) as [data |];
      [| subst s1; repeat split; exact Hload].
    destruct (now - Quote.timestamp data <? PRICE_CACHE_DURATION);
      [| subst s1; repeat split; exact Hload].
    destruct (Quote.price data) as [price |];
      [| subst s1; repeat split; exact Hload].
    unfold onEntryPriceInput, debouncedSaveTabState. state_simpl.
    subst s1. state_simpl. rewrite Hload. repeat split. exact Hload. }
  destruct H2 as (L2 & A2 & T2 & P2 & S2 & O2).
  replace (if idTruthy (activeTabId s2) then saveCurrentTabState s2 else s2) with s2
    by (destruct (idTruthy _); [rewrite saveCurrentTabState_loading by exact L2 |];
        reflexivity).
  destruct (checkAutoFetchInterval_frame s2) as (C1 & C2 & C3 & _).
  destruct (checkAutoFetchInterval_frame_ui s2) as (U1 & _ & _ & U4 & _).
  rewrite C1, C3, U1, U4.
  split; [exact A2 |]. split; [exact T2 |]. split; [exact S2 |]. split; [exact O2 |].
  unfold hasAutoPrice, findActive. rewrite C1, C2, T2, P2. reflexivity.
Qed.

Lemma toggleAutoPrice_during_load_witness :
  autoPriceEnabled (toggleAutoPrice 0 loadingStore)
  = negb (autoPriceEnabled loadingStore) /\
  tabs (toggleAutoPrice 0 loadingStore) = tabs loadingStore /\
  Storage.stockTabs (localStorage (toggleAutoPrice 0 loadingStore))
  = Storage.stockTabs (localStorage loadingStore) /\
  timeouts (toggleAutoPrice 0 loadingStore) = timeouts loadingStore /\
  hasAutoPrice (toggleAutoPrice 0 loadingStore) = hasAutoPrice loadingStore.
Proof.
  apply (toggleAutoPrice_during_load 0 loadingStore). reflexivity.
Defined.

(* ===================================================================== *)
(** * The poller after the events that evaluate its rule *)
(* ===================================================================== *)



(** X20: a replaced interval never fires again.  In a state whose
    interval handle is accounted for and whose records hold trimmed
    symbols, with the poller running under handle [h], a switch to another
    tab leaves [h] out of the browser's interval table (the poller is
    stopped, or restarted under a new handle), so a tick of [h] that
    arrives afterwards sends nothing for the tab left behind. *)
Theorem switchTab_retires_interval (tabId : string) (s : State) (h : positive) :
  pollerConsistent s ->
  symbolsTrimmed s ->
  autoFetchIntervalId s = Some h ->
  activeTabId s ≠ Some tabId ->
  (h ∉ intervals (switchTab tabId s)) /\
  (autoFetchIntervalId (switchTab tabId s) ≠ Some h) /\
  intervalTick h (switchTab tabId s) = switchTab tabId s.
Proof.
  intros Hc Ht Hh Hne.
  pose proof (switchTab_keeps_symbolsTrimmed tabId s Ht) as Ht'.
  destruct (switchTab_reevaluates tabId s Hne) as (s3 & Heq & Hp).
  rewrite Heq in *.
  assert (Ht3 : symbolsTrimmed s3).
  { unfold symbolsTrimmed in *.
    destruct (checkAutoFetchInterval_frame s3) as (C1 & _). rewrite <- C1. exact Ht'. }
  assert (Hc3 : pollerConsistent s3) by (eapply pollerUntouched_consistent; eassumption).
  assert (Hh3 : autoFetchIntervalId s3 = Some h).
  { destruct Hp as (-> & _). exact Hh. }
  assert (Hold : (h < nextTimerId s3)%positive) by (apply Hc3, Hh3).
  assert (Hgone : (h ∉ intervals (checkAutoFetchInterval s3)) /\
                  (autoFetchIntervalId (checkAutoFetchInterval s3) ≠ Some h)).
  { rewrite checkAutoFetchInterval_cases, Hh3.
    destruct (hasAutoPrice s3) eqn:Hhas.
    - apply hasAutoPrice_inv in Hhas as (t & Hf & Ha & Hs).
      assert (Htrim : trim (Tab.stockSymbol t) = Tab.stockSymbol t).
      { unfold symbolsTrimmed in Ht3. rewrite Forall_forall in Ht3.
        apply Ht3, findActive_elem, Hf. }
      rewrite (startAutoFetchInterval_running s3 h t Hc3 Hh3 Hf Ha Hs Htrim).
      state_simpl. split.
      + intros Hin. apply list_elem_of_singleton in Hin. lia.
      + intros Heq'. injection Heq' as Heq'. lia.
    - rewrite (stopAutoFetchInterval_running s3 h Hc3 Hh3). state_simpl.
      split; [intros Hin; inversion Hin | discriminate]. }
  destruct Hgone as [Hgone Hnew]. split; [exact Hgone |]. split; [exact Hnew |].
  apply intervalTick_cleared, Hgone.
Qed.

Lemma switchTab_retires_interval_witness :
  (1%positive ∉ intervals (switchTab "b" (checkAutoFetchInterval autoPriceStore))) /\
  (autoFetchIntervalId (switchTab "b" (checkAutoFetchInterval autoPriceStore))
   ≠ Some 1%positive) /\
  intervalTick 1 (switchTab "b" (checkAutoFetchInterval autoPriceStore))
  = switchTab "b" (checkAutoFetchInterval autoPriceStore).
Proof.
  apply (switchTab_retires_interval "b" (checkAutoFetchInterval autoPriceStore) 1).
  - apply checkAutoFetchInterval_keeps_consistent.
    + apply pollerConsistent_idle; reflexivity.
    + unfold symbolsTrimmed. repeat constructor.
  - unfold symbolsTrimmed. repeat constructor.
  - reflexivity.
  - discriminate.
Defined.

(* ===================================================================== *)
(** * The form after a close *)
(* ===================================================================== *)

Lemma list_find_unique (l : list Tab.t) (i : nat) (t : Tab.t) :
  NoDup (map Tab.id l) -> l !! i = Some t ->
  list_find (fun x => Tab.id x = Tab.id t) l = Some (i, t).
Proof.
  intros Hnd Hi. apply list_find_Some. split; [exact Hi |]. split; [reflexivity |].
  intros j y Hj Hlt Heq.
  assert (j = i); [| lia].
  apply (NoDup_lookup (map Tab.id l) j i (Tab.id t) Hnd);
    change (map Tab.id l) with (Tab.id <$> l); rewrite list_lookup_fmap.
  - rewrite Hj. cbn. congruence.
  - rewrite Hi. reflexivity.
Qed.

(** X21: the form after a close.  In a collection with pairwise distinct
    ids, a close of the tab at position [i] that goes through removes that
    record and leaves the others as they are, without saving what is on
    the form.  If the closed tab was the active one, its left neighbour
    (the new first tab when [i] is 0) becomes active and its fields and
    auto-price flag are put on the form, with the load flag up; if it was
    not, the pointer, the form and the auto-price flag are untouched. *)
Theorem closeTab_then_form (confirmAnswer : bool) (s : State) (i : nat) (t : Tab.t) :
  uniqueIds s ->
  length (tabs s) ≠ 1%nat ->
  tabs s !! i = Some t ->
  nonEmpty (Tab.stockSymbol t) = false \/ confirmAnswer = true ->
  exists s',
    closeTab confirmAnswer (Tab.id t) s = Done s' /\
    tabs s' = delete i (tabs s) /\
    if decide (activeTabId s = Some (Tab.id t)) then
      exists t',
        delete i (tabs s) !! (i - 1)%nat = Some t' /\
        activeTabId s' = Some (Tab.id t') /\
        form s'
        = {| Form.stockSymbol := Tab.stockSymbol t';
             Form.entryPrice := Tab.entryPrice t';
             Form.targetPrice := Tab.targetPrice t';
             Form.quantity := Tab.quantity t';
             Form.tpPercent := Tab.tpPercent t';
             Form.slPercent := Tab.slPercent t' |} /\
        autoPriceEnabled s' = Tab.autoPriceEnabled t' /\
        isLoadingTabState s' = true
    else
      activeTabId s' = activeTabId s /\
      form s' = form s /\
      autoPriceEnabled s' = autoPriceEnabled s /\
      isLoadingTabState s' = isLoadingTabState s.
Proof.
  intros Huniq Hlen Hi Hgo.
  pose proof (list_find_unique (tabs s) i t Huniq Hi) as Hfind.
  pose proof (lookup_lt_Some _ _ _ Hi) as Hlt.
  assert (Hfd : find (Tab.id t) (tabs s) = Some t) by (unfold find; rewrite Hfind; reflexivity).
  unfold closeTab.
  destruct (Nat.eqb_spec (length (tabs s)) 1); [contradiction |].
  rewrite Hfd.
  replace (nonEmpty (Tab.stockSymbol t) && negb confirmAnswer) with false
    by (destruct Hgo as [-> | ->]; [reflexivity | rewrite andb_false_r; reflexivity]).
  set (s1 := if nonEmpty (Tab.stockSymbol t)
             then removeStockPrice (toUpperCase (Tab.stockSymbol t)) s else s).
  assert (H1 : tabs s1 = tabs s /\ activeTabId s1 = activeTabId s /\
               form s1 = form s /\ autoPriceEnabled s1 = autoPriceEnabled s /\
               isLoadingTabState s1 = isLoadingTabState s).
  { subst s1. destruct (nonEmpty (Tab.stockSymbol t)); repeat split. }
  destruct H1 as (T1 & A1 & F1 & E1 & G1).
  assert (Hidx : findIndex (Tab.id t) (tabs s1) = Z.of_nat i).
  { unfold findIndex. rewrite T1, Hfind. reflexivity. }
  rewrite Hidx. rewrite T1, (splice_remove _ _ _ Hi). cbn [fst].
  state_simpl. rewrite A1.
  destruct (decide (activeTabId s = Some (Tab.id t))) as [Hact | Hact].
  - rewrite bool_decide_eq_true_2 by exact Hact.
    assert (Hpos : Z.to_nat (Z.max 0 (Z.of_nat i - 1)) = (i - 1)%nat) by lia.
    rewrite Hpos.
    assert (Hex : is_Some (delete i (tabs s) !! (i - 1)%nat)).
    { apply lookup_lt_is_Some. rewrite length_delete by eauto. lia. }
    destruct Hex as [t' Ht']. rewrite Ht'.
    set (pre := setItemActiveTabId
                  (with_activeTabId (Some (Tab.id t'))
                     (with_tabs (delete i (tabs s)) s1))).
    eexists. split; [reflexivity |].
    destruct (checkAutoFetchInterval_frame
                (renderTabs (saveTabsToStorage (loadTabState (Tab.id t') pre))))
      as (C1 & C2 & _ & C4 & _).
    destruct (checkAutoFetchInterval_frame_ui
                (renderTabs (saveTabsToStorage (loadTabState (Tab.id t') pre))))
      as (U1 & _ & U3 & _).
    rewrite C1, C2, C4, U1, U3. unfold renderTabs, saveTabsToStorage. state_simpl.
    destruct (loadTabState_frame (Tab.id t') pre) as (L1 & L2 & _).
    rewrite L1, L2.
    split; [reflexivity |]. exists t'. split; [reflexivity |]. split; [reflexivity |].
    assert (Hnd : NoDup (map Tab.id (delete i (tabs s)))).
    { change (map Tab.id ?l) with (Tab.id <$> l). rewrite list_fmap_delete.
      eapply sublist_NoDup; [exact Huniq | apply sublist_delete]. }
    pose proof (list_find_unique _ _ _ Hnd Ht') as Hf'.
    unfold loadTabState, find. subst pre. unfold setItemActiveTabId. state_simpl.
    rewrite Hf'. cbn [fmap option_fmap option_map snd]. unfold setTimeout.
    destruct (Bool.eqb (Tab.autoPriceEnabled t') (autoPriceEnabled s1)) eqn:E;
      destruct (Tab.calculationMode t'); state_simpl; repeat split;
      symmetry; apply Bool.eqb_prop, E.
  - rewrite bool_decide_eq_false_2 by exact Hact.
    eexists. split; [reflexivity |].
    destruct (checkAutoFetchInterval_frame
                (renderTabs (saveTabsToStorage (with_tabs (delete i (tabs s)) s1))))
      as (C1 & C2 & _ & C4 & _).
    destruct (checkAutoFetchInterval_frame_ui
                (renderTabs (saveTabsToStorage (with_tabs (delete i (tabs s)) s1))))
      as (U1 & _ & U3 & _).
    rewrite C1, C2, C4, U1, U3. unfold renderTabs, saveTabsToStorage. state_simpl.
    repeat split; assumption.
Qed.

Lemma closeTab_then_form_witness :
  exists s',
    closeTab true (Tab.id (sampleTab "a" "AAPL" false)) editedStore = Done s' /\
    tabs s' = delete 0%nat (tabs editedStore) /\
    if decide (activeTabId editedStore = Some (Tab.id (sampleTab "a" "AAPL" false))) then
      exists t',
        delete 0%nat (tabs editedStore) !! (0 - 1)%nat = Some t' /\
        activeTabId s' = Some (Tab.id t') /\
        form s'
        = {| Form.stockSymbol := Tab.stockSymbol t';
             Form.entryPrice := Tab.entryPrice t';
             Form.targetPrice := Tab.targetPrice t';
             Form.quantity := Tab.quantity t';
             Form.tpPercent := Tab.tpPercent t';
             Form.slPercent := Tab.slPercent t' |} /\
        autoPriceEnabled s' = Tab.autoPriceEnabled t' /\
        isLoadingTabState s' = true
    else
      activeTabId s' = activeTabId editedStore /\
      form s' = form editedStore /\
      autoPriceEnabled s' = autoPriceEnabled editedStore /\
      isLoadingTabState s' = isLoadingTabState editedStore.
Proof.
  apply (closeTab_then_form true editedStore 0%nat (sampleTab "a" "AAPL" false)).
  - unfold uniqueIds. decide_by_computation.
  - vm_compute. lia.
  - reflexivity.
  - right. reflexivity.
Defined.

(* ===================================================================== *)
(** * From an edit to the record *)
(* ===================================================================== *)

(** What [debouncedSaveTabState] leaves pending when no load is in
    progress: the timeouts that were pending, any earlier save taken out,
    and after them the new save under the next handle. *)
Lemma debouncedSaveTabState_schedules (s : State) :
  timersConsistent s ->
  isLoadingTabState s = false ->
  exists rest,
    debouncedSaveTabState s
    = with_saveDebounceTimer (Some (nextTimerId s))
        (with_nextTimerId (Pos.succ (nextTimerId s))
           (with_timeouts (rest ++ [(nextTimerId s, CbSaveCurrentTabState)]) s)) /\
    (forall p, p ∈ rest -> fst p ≠ nextTimerId s /\ isSave (snd p) = false).
Proof.
  intros Hc Hload. unfold debouncedSaveTabState. rewrite Hload.
  destruct (saveDebounceTimer s) as [h |] eqn:Hh.
  - exists (filter (fun p => fst p ≠ h) (timeouts s)). split; [reflexivity |].
    intros [h' cb] Hin. pose proof (clearTimeout_no_save h s Hc Hh h') as Hno.
    unfold clearTimeout in Hno. state_simpl.
    pose proof Hin as Hin'. apply list_elem_of_filter in Hin' as [_ Hin'].
    destruct Hc as (_ & Hlt & _). specialize (Hlt h' cb Hin'). cbn. split; [lia |].
    destruct cb; try reflexivity. contradiction.
  - exists (timeouts s). split; [reflexivity |].
    intros [h' cb] Hin. destruct Hc as (_ & Hlt & Hsave).
    specialize (Hlt h' cb Hin). cbn. split; [lia |].
    destruct cb; try reflexivity. specialize (Hsave h' Hin). congruence.
Qed.

(** X22: an edit reaches the record when its timer fires.  With no load
    in progress, the pending timeouts consistent and tab [a] active, an
    edit of a number field writes nothing yet: it leaves exactly one save
    pending, under the handle now in [saveDebounceTimer].  When that
    timeout fires, the record of [a] receives the form with the edit (and
    the symbol trimmed, the auto-price flag, the calculation mode), the
    collection is persisted, and no save is pending any more. *)
Theorem edit_is_saved_when_timer_fires (fld : NumberField) (value : string) (now : Z)
    (s : State) (a : string) (t : Tab.t) :
  timersConsistent s ->
  isLoadingTabState s = false ->
  activeTabId s = Some a ->
  find a (tabs s) = Some t ->
  let s1 := onNumberInput fld value s in
  let s2 := fireTimeout now (nextTimerId s) s1 in
  tabs s1 = tabs s /\
  saveDebounceTimer s1 = Some (nextTimerId s) /\
  pendingSaves s1 = [nextTimerId s] /\
  find a (tabs s2)
  = Some {| Tab.id := Tab.id t; Tab.name := Tab.name t;
            Tab.stockSymbol := trim (Form.stockSymbol (form s));
            Tab.entryPrice := Form.entryPrice (setField fld value (form s));
            Tab.targetPrice := Form.targetPrice (setField fld value (form s));
            Tab.quantity := Form.quantity (setField fld value (form s));
            Tab.tpPercent := Form.tpPercent (setField fld value (form s));
            Tab.slPercent := Form.slPercent (setField fld value (form s));
            Tab.autoPriceEnabled := autoPriceEnabled s;
            Tab.calculationMode := Some (calculationMode s);
            Tab.createdAt := Tab.createdAt t |} /\
  Storage.stockTabs (localStorage s2) = Some (tabs s2) /\
  pendingSaves s2 = [].
Proof.
  intros Hc Hload Ha Hfind s1 s2.
  set (s0 := with_form (setField fld value (form s)) s).
  assert (Hc0 : timersConsistent s0) by exact Hc.
  destruct (debouncedSaveTabState_schedules s0 Hc0 Hload) as (rest & Heq & Hrest).
  assert (Hs1 : s1 = debouncedSaveTabState s0) by reflexivity.
  rewrite Heq in Hs1. change (nextTimerId s0) with (nextTimerId s) in *.
  set (h := nextTimerId s) in *.
  assert (Hnone : filter (fun p : positive * Callback => isSave (snd p) = true) rest = []).
  { apply filter_none. intros p Hp. destruct (Hrest p Hp) as [_ Hs]. congruence. }
  assert (Hfindh : list_find (fun p : positive * Callback => fst p = h) rest = None).
  { apply list_find_None. apply Forall_forall. intros p Hp. apply Hrest, Hp. }
  assert (Hkeep : filter (fun p : positive * Callback => fst p ≠ h) rest = rest).
  { clear -Hrest. induction rest as [| p rest IH]; [reflexivity |].
    rewrite filter_cons, decide_True by (apply Hrest; left).
    f_equal. apply IH. intros q Hq. apply Hrest. right. exact Hq. }
  assert (Hfired : s2 = saveCurrentTabState
                          (with_saveDebounceTimer (Some h)
                             (with_nextTimerId (Pos.succ h) (with_timeouts rest s0)))).
  { subst s2. rewrite Hs1. unfold fireTimeout, pendingCallback. state_simpl.
    rewrite (list_find_app_r _ _ _ Hfindh). cbn [list_find].
    rewrite decide_True by reflexivity. cbn [fmap option_fmap option_map snd].
    rewrite filter_app, Hkeep, filter_cons, decide_False, filter_nil, app_nil_r;
      [reflexivity |].
    cbn. intros Hne. apply Hne. reflexivity. }
  set (pre := with_saveDebounceTimer (Some h)
                (with_nextTimerId (Pos.succ h) (with_timeouts rest s0))) in *.
  split; [rewrite Hs1; reflexivity |]. split; [rewrite Hs1; reflexivity |].
  split.
  { rewrite Hs1. unfold pendingSaves. state_simpl.
    rewrite filter_app, Hnone, filter_cons, decide_True by reflexivity. reflexivity. }
  rewrite Hfired. split; [| split].
  - apply (find_flushed a pre t Hload Ha Hfind).
  - unfold saveCurrentTabState.
    change (isLoadingTabState pre) with (isLoadingTabState s). rewrite Hload.
    change (activeTabId pre) with (activeTabId s). rewrite Ha.
    change (tabs pre) with (tabs s). unfold find in Hfind.
    destruct (list_find _ (tabs s)) as [[i x] |]; [reflexivity | discriminate].
  - destruct (saveCurrentTabState_timersUntouched pre) as (Hto & _).
    unfold pendingSaves. rewrite Hto. subst pre. state_simpl. rewrite Hnone. reflexivity.
Qed.

Lemma edit_is_saved_when_timer_fires_witness :
  tabs (onNumberInput quantityField "25" editedStore) = tabs editedStore /\
  saveDebounceTimer (onNumberInput quantityField "25" editedStore)
  = Some (nextTimerId editedStore) /\
  pendingSaves (onNumberInput quantityField "25" editedStore)
  = [nextTimerId editedStore] /\
  find "a" (tabs (fireTimeout 7 (nextTimerId editedStore)
                    (onNumberInput quantityField "25" editedStore)))
  = Some {| Tab.id := "a"; Tab.name := "New Tab";
            Tab.stockSymbol := "MSFT"; Tab.entryPrice := "410";
            Tab.targetPrice := ""; Tab.quantity := "25";
            Tab.tpPercent := ""; Tab.slPercent := "";
            Tab.autoPriceEnabled := false;
            Tab.calculationMode := Some current;
            Tab.createdAt := 0 |} /\
  Storage.stockTabs
    (localStorage (fireTimeout 7 (nextTimerId editedStore)
                     (onNumberInput quantityField "25" editedStore)))
  = Some (tabs (fireTimeout 7 (nextTimerId editedStore)
                  (onNumberInput quantityField "25" editedStore))) /\
  pendingSaves (fireTimeout 7 (nextTimerId editedStore)
                  (onNumberInput quantityField "25" editedStore))
  = [].
Proof.
  apply (edit_is_saved_when_timer_fires quantityField "25" 7 editedStore "a"
           (sampleTab "a" "AAPL" false)).
  - split; [apply NoDup_nil_2 |].
    split; [intros h cb Hin | intros h Hin]; inversion Hin.
  - reflexivity.
  - reflexivity.
  - reflexivity.
Defined.

(* ===================================================================== *)
(** * Saving twice; the theme *)
(* ===================================================================== *)

(** X23: saving twice is saving once.  In every state,
    [saveCurrentTabState] run on its own result changes nothing more: the
    record, the collection and the persisted copy are already those the
    form dictates. *)
Theorem saveCurrentTabState_idempotent (s : State) :
  saveCurrentTabState (saveCurrentTabState s) = saveCurrentTabState s.
Proof.
  destruct (isLoadingTabState s) eqn:Hload.
  { rewrite (saveCurrentTabState_loading s Hload).
    apply saveCurrentTabState_loading, Hload. }
  destruct (activeTabId s) as [a |] eqn:Ha.
  2: { assert (Hs : saveCurrentTabState s = s)
         by (unfold saveCurrentTabState; rewrite Hload, Ha; reflexivity).
       rewrite Hs. exact Hs. }
  destruct (list_find (fun t => Tab.id t = a) (tabs s)) as [[i tab] |] eqn:Hf.
  2: { assert (Hs : saveCurrentTabState s = s)
         by (unfold saveCurrentTabState; rewrite Hload, Ha, Hf; reflexivity).
       rewrite Hs. exact Hs. }
  assert (Hs : saveCurrentTabState s
               = saveTabsToStorage
                   (with_tabs
                      (<[i := {| Tab.id := Tab.id tab; Tab.name := Tab.name tab;
                                 Tab.stockSymbol := trim (Form.stockSymbol (form s));
                                 Tab.entryPrice := Form.entryPrice (form s);
                                 Tab.targetPrice := Form.targetPrice (form s);
                                 Tab.quantity := Form.quantity (form s);
                                 Tab.tpPercent := Form.tpPercent (form s);
                                 Tab.slPercent := Form.slPercent (form s);
                                 Tab.autoPriceEnabled := autoPriceEnabled s;
                                 Tab.calculationMode := Some (calculationMode s);
                                 Tab.createdAt := Tab.createdAt tab |}]> (tabs s)) s))
    by (unfold saveCurrentTabState; rewrite Hload, Ha, Hf; reflexivity).
  rewrite Hs.
  apply list_find_Some in Hf as (Hi & Hid & Hfirst).
  pose proof (lookup_lt_Some _ _ _ Hi) as Hlt.
  set (tab' := Tab.mk _ _ _ _ _ _ _ _ _ _ _).
  assert (Hf' : list_find (fun t => Tab.id t = a) (<[i:=tab']> (tabs s)) = Some (i, tab')).
  { apply list_find_Some. split; [| split].
    - apply list_lookup_insert_eq. exact Hlt.
    - exact Hid.
    - intros j y Hy Hji. rewrite list_lookup_insert_ne in Hy by lia.
      eapply Hfirst; eassumption. }
  unfold saveCurrentTabState, renderTabs, saveTabsToStorage. state_simpl.
  rewrite Hload, Ha, Hf'. state_simpl. fold tab'.
  rewrite list_insert_insert_eq. reflexivity.
Qed.

(** X24: the theme survives a reload.  [toggleTheme] flips the light
    mode, shows the icon of the theme it has chosen and stores the theme;
    two toggles bring back the mode.  When the page is loaded again with
    that stored theme, on markup that starts in dark mode with the dark
    icon shown, [loadTheme] puts the page in the mode and with the icons
    that [toggleTheme] had left. *)
Theorem theme_survives_reload (p : Theme.Page) :
  let p' := Theme.toggleTheme p in
  let reloaded :=
    Theme.loadTheme
      {| Theme.lightMode := false; Theme.themeIconDarkHidden := false;
         Theme.themeIconLightHidden := true;
         Theme.themeItem := Theme.themeItem p' |} in
  Theme.lightMode p' = negb (Theme.lightMode p) /\
  Theme.themeItem p' = Some (if Theme.lightMode p' then "light" else "dark") /\
  Theme.lightMode (Theme.toggleTheme p') = Theme.lightMode p /\
  reloaded = p'.
Proof.
  intros p' reloaded. subst reloaded p'. unfold Theme.toggleTheme.
  destruct (Theme.lightMode p); cbn; repeat split.
Qed.
